(** * detext: the reference-tracking editor, its activity sampler, the event
    log and the question-generation endpoint

    A shallow embedding of the TypeScript sources:
    - [UiEditor]  : the editor of src/components/ui/editor.tsx;
    - [Editor]    : the editor with the consistency monitor, the sampler and
                    the question client (src/pages/api/generate-questions.ts,
                    from the ['use client'] line on);
    - [Api]       : the request handler at the top of
                    src/pages/api/generate-questions.ts;
    - [ActivityPage] : the 100 ms sampler page (src/unnamed/part_001);
    - [EventLog]  : the event-log page (src/unnamed/part_000);
    - [Client]    : what the question client does with the endpoint's reply
                    (src/pages/api/generate-questions.ts, the part of
                    [handleGenerateQuestions] after its request);
    - [QuestionsDialog] : what the questions dialog shows;
    - [Json], [JsonText] : JSON values, [JSON.stringify] with a gap of two
                    spaces and [JSON.parse], after ECMA-262;
    - [JS], [Dom], [Marker] : the strings, the document tree and the
                    position marker the components work on.

    The embedding comes first; then the vocabulary of the statements
    ([DomSpec], [MarkerSpec], [Terms], [JsonSpec]) and the scenarios; then
    the facts about each part and the properties of the components.

    Conventions.  A JavaScript string is the list of its UTF-16 code units.
    The editable [div] is represented by the list of its child nodes.  React
    state is a record; a handler is a function on that record, and the event
    parameters carry what the handler reads from the browser (clipboard,
    selection, clock, the document as the browser left it). *)

From Stdlib Require Import List NArith ZArith Ascii String Bool Arith Lia.
From Stdlib Require DecimalString DecimalN DecimalPos DecimalFacts.
Import ListNotations.

Set Implicit Arguments.
Set Warnings "-register-all".

(* ================================================================== *)
(** * JavaScript strings *)
(* ================================================================== *)

(** A string is the list of its UTF-16 code units. *)
Abbreviation jsstring := (list N).

Module JS.

(** A source literal (ASCII only in this code base). *)
Definition lit (s : string) : jsstring :=
  map N_of_ascii (list_ascii_of_string s).

Fixpoint eqb (a b : jsstring) : bool :=
  match a, b with
  | [], [] => true
  | x :: a', y :: b' => N.eqb x y && eqb a' b'
  | _, _ => false
  end.

(** ECMAScript WhiteSpace and LineTerminator code points: what
    [String.prototype.trim] strips and what [\s] matches. *)
Definition isWhiteSpace (c : N) : bool :=
  existsb (N.eqb c)
    [9; 10; 11; 12; 13; 32; 160; 5760; 8232; 8233; 8239; 8287; 12288; 65279]%N
  || (N.leb 8192 c && N.leb c 8202).

Fixpoint trimStart (s : jsstring) : jsstring :=
  match s with
  | [] => []
  | c :: r => if isWhiteSpace c then trimStart r else s
  end.

Definition trimEnd (s : jsstring) : jsstring := rev (trimStart (rev s)).

Definition trim (s : jsstring) : jsstring := trimEnd (trimStart s).

(** JavaScript truthiness of a string. *)
Definition truthy (s : jsstring) : bool :=
  match s with [] => false | _ => true end.

Definition length (s : jsstring) : N := N.of_nat (List.length s).

Fixpoint startsWith (s p : jsstring) {struct p} : bool :=
  match p, s with
  | [], _ => true
  | x :: p', y :: s' => N.eqb x y && startsWith s' p'
  | _ :: _, [] => false
  end.

(** [s.split(sep)] for a one-unit separator: never empty, one more piece
    than there are separators. *)
Fixpoint split (sep : N) (s : jsstring) : list jsstring :=
  match s with
  | [] => [[]]
  | c :: r =>
      if N.eqb c sep then [] :: split sep r
      else match split sep r with
           | [] => [[c]]
           | p :: ps => (c :: p) :: ps
           end
  end.

(** [Number.prototype.toString] on a non-negative integer. *)
Definition toString (n : N) : jsstring :=
  lit (DecimalString.NilEmpty.string_of_uint (N.to_uint n)).

(** The value of a token made of decimal digits. *)
Definition parseNatural (token : jsstring) : option N :=
  option_map N.of_uint
    (DecimalString.NilEmpty.uint_of_string
       (string_of_list_ascii (map ascii_of_N token))).

End JS.


(* ================================================================== *)
(** * The document tree *)
(* ================================================================== *)

Module Dom.

(** Text nodes and elements; an element has a local name, its attributes
    in the order they were set, and its children. *)
Inductive node : Type :=
| Text (data : jsstring)
| Elem (tag : string) (attrs : list (string * jsstring)) (children : list node).

Fixpoint getAttribute (name : string) (attrs : list (string * jsstring))
  : option jsstring :=
  match attrs with
  | [] => None
  | (k, v) :: r => if String.eqb k name then Some v else getAttribute name r
  end.

(** [node.textContent]. *)
Fixpoint textContent (n : node) : jsstring :=
  match n with
  | Text d => d
  | Elem _ _ cs => flat_map textContent cs
  end.

(** [editor.textContent] for the editor's child list. *)
Definition content (doc : list node) : jsstring := flat_map textContent doc.

(** A node followed by its descendants, in tree order. *)
Fixpoint subtree (n : node) : list node :=
  n :: match n with
       | Text _ => []
       | Elem _ _ cs => flat_map subtree cs
       end.

Definition descendants (doc : list node) : list node := flat_map subtree doc.

(** [querySelectorAll]: the matching nodes in tree order. *)
Definition querySelectorAll (p : node -> bool) (doc : list node) : list node :=
  filter p (descendants doc).

(** [querySelector] / [getElementById]: the first match in tree order. *)
Definition querySelector (p : node -> bool) (doc : list node) : option node :=
  find p (descendants doc).

Definition count (p : node -> bool) (doc : list node) : nat :=
  List.length (querySelectorAll p doc).

Section Splice.
Variable p : node -> bool.
Variable f : node -> list node.

(** Replace, among [l] and below, the first node in tree order that
    satisfies [p] by the nodes [f n]; [None] when there is none. *)
Definition spliceList (rec : node -> option (list node)) :=
  fix go (l : list node) : option (list node) :=
    match l with
    | [] => None
    | c :: r =>
        match rec c with
        | Some c' => Some (c' ++ r)
        | None => option_map (cons c) (go r)
        end
    end.

Fixpoint spliceNode (n : node) : option (list node) :=
  if p n then Some (f n)
  else match n with
       | Text _ => None
       | Elem t a cs =>
           option_map (fun cs' => [Elem t a cs']) (spliceList spliceNode cs)
       end.

Definition splice (doc : list node) : option (list node) :=
  spliceList spliceNode doc.
End Splice.

(** [ref.parentNode.insertBefore(new, ref)] where [ref] is the first node
    satisfying [p]; the document is left alone when there is no such node. *)
Definition insertBefore (p : node -> bool) (new : node) (doc : list node)
  : list node :=
  match splice p (fun ref => [new; ref]) doc with
  | Some doc' => doc'
  | None => doc
  end.

(** [ref.parentNode.removeChild(ref)], same convention. *)
Definition removeChild (p : node -> bool) (doc : list node) : list node :=
  match splice p (fun _ => []) doc with
  | Some doc' => doc'
  | None => doc
  end.

(** A boundary point inside the editor: the child-index path from the
    editor to the container node, and the offset in the container. *)
Record boundary : Type := At { path : list nat; offset : nat }.

(** [range.insertNode(new)] for a range starting at the boundary, followed
    by [range.setStartAfter(new)]: the new child list and the boundary just
    after [new].  A text container is split at the offset.  [None] when the
    boundary does not exist in the tree. *)
Fixpoint insertNode (pth : list nat) (off : nat) (new : node) (cs : list node)
  : option (list node * boundary) :=
  match pth with
  | [] =>
      if off <=? List.length cs
      then Some (firstn off cs ++ new :: skipn off cs, At [] (S off))
      else None
  | i :: rest =>
      match nth_error cs i with
      | None => None
      | Some (Text d) =>
          match rest with
          | [] =>
              if off <=? List.length d
              then Some (firstn i cs
                           ++ [Text (firstn off d); new; Text (skipn off d)]
                           ++ skipn (S i) cs,
                         At [] (i + 2))
              else None
          | _ :: _ => None
          end
      | Some (Elem t a sub) =>
          match insertNode rest off new sub with
          | Some (sub', At p' o') =>
              Some (firstn i cs ++ Elem t a sub' :: skipn (S i) cs,
                    At (i :: p') o')
          | None => None
          end
      end
  end.

End Dom.

(* ================================================================== *)
(** * What both editors share: the marker node and the paste selection *)
(* ================================================================== *)

Module Marker.
Import Dom.

Definition key : jsstring := JS.lit "paste-position-marker".

(** [document.createElement('span')] with [id = 'paste-position-marker']. *)
Definition tempMarker : node := Elem "span" [("id"%string, key)] [].

(** What [document.getElementById('paste-position-marker')] matches.  Only
    the editor can hold such an element: no other element of the page
    carries this id. *)
Definition isMarker (n : node) : bool :=
  match n with
  | Text _ => false
  | Elem _ a _ =>
      match getAttribute "id" a with
      | Some v => JS.eqb v key
      | None => false
      end
  end.

Definition getElementById (doc : list node) : option node :=
  querySelector isMarker doc.

(** What [window.getSelection()] offers when a paste arrives: [null], a
    selection without a range, or a range starting at a boundary. *)
Inductive selection : Type :=
| SelectionNull
| NoRange
| Range (start : boundary).

End Marker.

Module Reference.
Record t : Type := Build { id : jsstring; text : jsstring; citation : jsstring }.
End Reference.

Module Question.
Record t : Type := Build { id : jsstring; text : jsstring }.
End Question.

(* ================================================================== *)
(** * The editor of src/components/ui/editor.tsx *)
(* ================================================================== *)

Module UiEditor.
Import Dom Marker.

Record state : Type := State {
  references : list Reference.t;
  selectedText : jsstring;
  isDialogOpen : bool;
  citation : jsstring;
  editor : list node
}.

Definition initial : state := State [] [] false [] [].

Definition setReferences v s :=
  let '(State _ t d c e) := s in State v t d c e.
Definition setSelectedText v s :=
  let '(State r _ d c e) := s in State r v d c e.
Definition setIsDialogOpen v s :=
  let '(State r t _ c e) := s in State r t v c e.
Definition setCitation v s :=
  let '(State r t d _ e) := s in State r t d v e.
Definition set_editor v s :=
  let '(State r t d c _) := s in State r t d c v.

Definition handleClearDocument (s : state) : state := set_editor [] s.

Definition handleEditorPaste (clipboardData : option jsstring)
           (sel : selection) (s : state) : state :=
  match clipboardData with
  | None => s
  | Some text =>
      if JS.truthy (JS.trim text) then
        match sel with
        | NoRange => s                       (* getRangeAt(0) raises *)
        | SelectionNull =>
            setIsDialogOpen true
              (set_editor (editor s ++ [tempMarker]) (setSelectedText text s))
        | Range (At pth off) =>
            match insertNode pth off tempMarker (editor s) with
            | Some (doc', _) =>
                setIsDialogOpen true (set_editor doc' (setSelectedText text s))
            | None => setSelectedText text s  (* no such boundary *)
            end
        end
      else s
  end.

(** The effect on [[isDialogOpen, selectedText]]: a marker still present
    when the dialog is closed is replaced by the plain text and a space. *)
Definition dialogCloseEffect (s : state) : state :=
  if isDialogOpen s then s
  else
    match getElementById (editor s) with
    | None => s
    | Some _ =>
        let textNode := Text (selectedText s) in
        let spaceNode := Text (JS.lit " ") in
        set_editor
          (removeChild isMarker
             (insertBefore isMarker spaceNode
                (insertBefore isMarker textNode (editor s)))) s
    end.

Definition refSpan (selectedText : jsstring) : node :=
  Elem "span" [("class"%string, JS.lit "text-blue-600 font-medium")]
       [Text selectedText].

Definition handleAddReference (now : N) (sel : option boundary) (s : state)
  : state :=
  if negb (JS.truthy (JS.trim (citation s)))
     || negb (JS.truthy (JS.trim (selectedText s)))
  then s
  else
    let newReference :=
      Reference.Build (JS.toString now) (selectedText s) (citation s) in
    let span := refSpan (selectedText s) in
    let spaceNode := Text (JS.lit " ") in
    let doc :=
      match getElementById (editor s) with
      | Some _ =>
          removeChild isMarker
            (insertBefore isMarker spaceNode
               (insertBefore isMarker span (editor s)))
      | None =>
          match sel with
          | Some (At pth off) =>
              match insertNode pth off span (editor s) with
              | Some (doc1, At pth1 off1) =>
                  match insertNode pth1 off1 spaceNode doc1 with
                  | Some (doc2, _) => doc2
                  | None => doc1
                  end
              | None => editor s
              end
          | None => editor s ++ [span; spaceNode]
          end
      end in
    setCitation []
      (setIsDialogOpen false
         (set_editor doc (setReferences (references s ++ [newReference]) s))).

Definition handleRemoveReference (id : jsstring) (s : state) : state :=
  setReferences
    (filter (fun ref => negb (JS.eqb (Reference.id ref) id)) (references s)) s.

Inductive event : Type :=
| Paste (clipboardData : option jsstring) (sel : selection)
| OpenChange (open : bool)    (* [onOpenChange] and the Cancel button *)
| ChangeCitation (value : jsstring)
| AddReference (now : N) (sel : option boundary)
| RemoveReference (id : jsstring)
| ClearDocument.

Definition handle (ev : event) (s : state) : state :=
  match ev with
  | Paste cd sel => handleEditorPaste cd sel s
  | OpenChange o => setIsDialogOpen o s
  | ChangeCitation v => setCitation v s
  | AddReference now sel => handleAddReference now sel s
  | RemoveReference id => handleRemoveReference id s
  | ClearDocument => handleClearDocument s
  end.

Definition step (ev : event) (s : state) : state :=
  let s' := handle ev s in
  if negb (Bool.eqb (isDialogOpen s) (isDialogOpen s'))
     || negb (JS.eqb (selectedText s) (selectedText s'))
  then dialogCloseEffect s'
  else s'.

Definition run (evs : list event) (s : state) : state :=
  fold_left (fun s ev => step ev s) evs s.

End UiEditor.

(* ================================================================== *)
(** * The editor with consistency monitor, sampler and question client *)
(* ================================================================== *)

Module Editor.
Import Dom Marker.

(** The refs and the state variables of [Editor()], plus [editor], the
    child list of the [div] that [editorRef.current] points to (the
    component is mounted whenever a handler runs). *)
Record state : Type := State {
  charAmount : N;
  backspaceAmount : N;
  charSeries : list N;
  backspaceSeries : list N;
  references : list Reference.t;
  selectedText : jsstring;
  isDialogOpen : bool;
  citation : jsstring;
  editor : list node;
  oldTextLength : N;
  questions : list Question.t;
  isQuestionsDialogOpen : bool;
  isGeneratingQuestions : bool
}.

Definition initial : state :=
  State 0 0 [] [] [] [] false [] [] 0 [] false false.

Definition set_charAmount v s :=
  let '(State _ b cs bs r t d c e o q qd g) := s in State v b cs bs r t d c e o q qd g.
Definition set_backspaceAmount v s :=
  let '(State a _ cs bs r t d c e o q qd g) := s in State a v cs bs r t d c e o q qd g.
Definition set_charSeries v s :=
  let '(State a b _ bs r t d c e o q qd g) := s in State a b v bs r t d c e o q qd g.
Definition set_backspaceSeries v s :=
  let '(State a b cs _ r t d c e o q qd g) := s in State a b cs v r t d c e o q qd g.
Definition setReferences v s :=
  let '(State a b cs bs _ t d c e o q qd g) := s in State a b cs bs v t d c e o q qd g.
Definition setSelectedText v s :=
  let '(State a b cs bs r _ d c e o q qd g) := s in State a b cs bs r v d c e o q qd g.
Definition setIsDialogOpen v s :=
  let '(State a b cs bs r t _ c e o q qd g) := s in State a b cs bs r t v c e o q qd g.
Definition setCitation v s :=
  let '(State a b cs bs r t d _ e o q qd g) := s in State a b cs bs r t d v e o q qd g.
Definition set_editor v s :=
  let '(State a b cs bs r t d c _ o q qd g) := s in State a b cs bs r t d c v o q qd g.
Definition set_oldTextLength v s :=
  let '(State a b cs bs r t d c e _ q qd g) := s in State a b cs bs r t d c e v q qd g.
Definition setQuestions v s :=
  let '(State a b cs bs r t d c e o _ qd g) := s in State a b cs bs r t d c e o v qd g.
Definition setIsQuestionsDialogOpen v s :=
  let '(State a b cs bs r t d c e o q _ g) := s in State a b cs bs r t d c e o q v g.
Definition setIsGeneratingQuestions v s :=
  let '(State a b cs bs r t d c e o q qd _) := s in State a b cs bs r t d c e o q qd v.

(** [span[data-ref-id]] and [span[data-ref-id="id"]]. *)
Definition isRefSpan (n : node) : bool :=
  match n with
  | Text _ => false
  | Elem t a _ =>
      String.eqb t "span"
      && match getAttribute "data-ref-id" a with Some _ => true | None => false end
  end.

Definition isRefSpanOf (id : jsstring) (n : node) : bool :=
  match n with
  | Text _ => false
  | Elem t a _ =>
      String.eqb t "span"
      && match getAttribute "data-ref-id" a with
         | Some v => JS.eqb v id
         | None => false
         end
  end.

Definition getRefId (n : node) : option jsstring :=
  match n with
  | Text _ => None
  | Elem _ a _ => getAttribute "data-ref-id" a
  end.

Definition handleClearDocument (s : state) : state :=
  let s := set_backspaceAmount 0 (set_charAmount 0 s) in
  let s := set_charSeries [] s in
  let s := set_backspaceSeries [] s in
  (* editorRef.current is set: innerHTML = '' and the store is emptied *)
  setReferences [] (set_editor [] s).

Definition findSpanById (id : jsstring) (s : state) : option node :=
  querySelector (isRefSpanOf id) (editor s).

Definition handleEditorPaste (clipboardData : option jsstring)
           (sel : selection) (s : state) : state :=
  match clipboardData with
  | None => s
  | Some text =>
      if JS.truthy (JS.trim text) then
        match sel with
        | NoRange => s                       (* getRangeAt(0) raises *)
        | SelectionNull =>
            setIsDialogOpen true
              (set_editor (editor s ++ [tempMarker]) (setSelectedText text s))
        | Range (At pth off) =>
            match insertNode pth off tempMarker (editor s) with
            | Some (doc', _) =>
                setIsDialogOpen true (set_editor doc' (setSelectedText text s))
            | None => setSelectedText text s  (* no such boundary *)
            end
        end
      else s
  end.

(** The set built by the [forEach] over [span[data-ref-id]]: the ids that
    are truthy, kept as a list. *)
Definition currentRefs (doc : list node) : list jsstring :=
  flat_map (fun span =>
              match getRefId span with
              | Some refId => if JS.truthy refId then [refId] else []
              | None => []
              end)
           (querySelectorAll isRefSpan doc).

Definition has (set : list jsstring) (x : jsstring) : bool :=
  existsb (JS.eqb x) set.

Definition absDiff (a b : N) : N := Z.abs_N (Z.of_N a - Z.of_N b).

Section WithInnerText.
(** [editor.innerText] depends on the rendering; it is a parameter. *)
Variable innerText : list node -> jsstring.

(** The listener for ['input']; the browser has already changed the
    editor when it runs. *)
Definition handleEditorInput (inputType : jsstring) (s : state) : state :=
  let length := JS.length (innerText (editor s)) in
  let delta := absDiff length (oldTextLength s) in
  let s := set_oldTextLength length s in
  let s :=
    if JS.eqb inputType (JS.lit "insertText")
    then set_charAmount (charAmount s + delta) s
    else if JS.startsWith inputType (JS.lit "delete")
         then set_backspaceAmount (backspaceAmount s + delta) s
         else s in
  let currentRefs := currentRefs (editor s) in
  setReferences
    (filter (fun ref => has currentRefs (Reference.id ref)) (references s)) s.

(** What the question client does to the outside. *)
Inductive effect : Type :=
| Alert (message : jsstring)
| Fetch (url : jsstring) (text : jsstring).

(** [handleGenerateQuestions] up to its first [await]. *)
Definition handleGenerateQuestions (s : state) : state * list effect :=
  let text :=
    if JS.truthy (content (editor s)) then content (editor s)
    else innerText (editor s) in
  if negb (JS.truthy text) || (JS.length (JS.trim text) <? 30)%N
  then (s, [Alert (JS.lit "Please enter more text before generating questions.")])
  else
    (setIsQuestionsDialogOpen true
       (setQuestions [] (setIsGeneratingQuestions true s)),
     [Fetch (JS.lit "/api/generate-questions") text]).

(** How the awaited part ends: an exception caught by [catch], or the
    questions array of the reply. *)
Inductive completion : Type :=
| Thrown (message : jsstring)
| Replied (formattedQuestions : list Question.t).

Definition generateQuestionsSettled (c : completion) (s : state)
  : state * list effect :=
  match c with
  | Thrown m => (setIsGeneratingQuestions false s, [Alert m])
  | Replied qs => (setIsGeneratingQuestions false (setQuestions qs s), [])
  end.
End WithInnerText.

(** The effect on [[isDialogOpen, selectedText, references]]. *)
Definition dialogCloseEffect (s : state) : state :=
  if isDialogOpen s then s
  else
    match getElementById (editor s) with
    | None => s
    | Some _ =>
        let wasAddedAsReference :=
          existsb (fun ref => JS.eqb (Reference.text ref) (selectedText s))
                  (references s) in
        (* a node found in the document has a parent *)
        if wasAddedAsReference then s
        else set_editor (removeChild isMarker (editor s)) s
    end.

Definition refSpan (ref : Reference.t) : node :=
  Elem "span"
       [("class"%string, JS.lit "text-blue-600 font-medium");
        ("data-ref-id"%string, Reference.id ref)]
       [Text (Reference.text ref)].

Definition spaceNode : node := Text [160%N].

Definition textNode : node := Elem "span" [("data-normal"%string, JS.lit "true")] [].

(** [now] is [Date.now()]; [sel] is the current selection's first range, if
    there is one (read only when the marker is gone). *)
Definition handleAddReference (now : N) (sel : option boundary) (s : state)
  : state :=
  if negb (JS.truthy (JS.trim (citation s)))
     || negb (JS.truthy (JS.trim (selectedText s)))
  then s
  else
    let newReference :=
      Reference.Build (JS.toString now) (selectedText s) (citation s) in
    let span := refSpan newReference in
    let doc :=
      match getElementById (editor s) with
      | Some _ =>
          removeChild isMarker
            (insertBefore isMarker textNode
               (insertBefore isMarker spaceNode
                  (insertBefore isMarker span (editor s))))
      | None =>
          match sel with
          | Some (At pth off) =>
              match insertNode pth off span (editor s) with
              | Some (doc1, At pth1 off1) =>
                  match insertNode pth1 off1 spaceNode doc1 with
                  | Some (doc2, At pth2 off2) =>
                      match insertNode pth2 off2 textNode doc2 with
                      | Some (doc3, _) => doc3
                      | None => doc2
                      end
                  | None => doc1
                  end
              | None => editor s
              end
          | None => editor s ++ [span; spaceNode; textNode]
          end
      end in
    setCitation []
      (setIsDialogOpen false
         (set_editor doc (setReferences (references s ++ [newReference]) s))).

(** One timer tick. *)
Definition tick (s : state) : state :=
  set_backspaceSeries (backspaceSeries s ++ [backspaceAmount s])
    (set_charSeries (charSeries s ++ [charAmount s]) s).

Definition handleRemoveReference (id : jsstring) (s : state) : state :=
  let s' :=
    setReferences
      (filter (fun ref => negb (JS.eqb (Reference.id ref) id)) (references s)) s in
  match findSpanById id s with
  | Some _ => set_editor (removeChild (isRefSpanOf id) (editor s)) s'
  | None => s'
  end.

Definition handleCancelDialog (s : state) : state :=
  setCitation [] (setIsDialogOpen false s).

(** [handleExportToCsv]: the CSV text handed to the download. *)
Definition join (sep : jsstring) (xs : list N) : jsstring :=
  match xs with
  | [] => []
  | x :: r => JS.toString x ++ flat_map (fun y => sep ++ JS.toString y) r
  end.

Definition handleExportToCsv (s : state) : jsstring :=
  join (JS.lit ",") (charSeries s) ++ [10%N] ++ join (JS.lit ",") (backspaceSeries s).

(** ** The component as a transition system *)

Inductive event : Type :=
| Paste (clipboardData : option jsstring) (sel : selection)
| Input (inputType : jsstring) (newEditor : list node)
| OpenChange (open : bool)          (* the dialog's [onOpenChange] *)
| CancelDialog
| ChangeCitation (value : jsstring)
| AddReference (now : N) (sel : option boundary)
| RemoveReference (id : jsstring)
| ClearDocument
| Tick
| GenerateQuestions
| QuestionsSettled (c : completion)
| QuestionsOpenChange (open : bool)
| ExportToCsv.

(** Closing the dialog without a commit: the Cancel button, or the
    dialog's own dismissal (Escape, overlay, close button). *)
Definition dismissal (ev : event) : Prop :=
  ev = CancelDialog \/ ev = OpenChange false.

Section Run.
Variable innerText : list node -> jsstring.

Definition handle (ev : event) (s : state) : state :=
  match ev with
  | Paste cd sel => handleEditorPaste cd sel s
  | Input ty doc => handleEditorInput innerText ty (set_editor doc s)
  | OpenChange o => setIsDialogOpen o s
  | CancelDialog => handleCancelDialog s
  | ChangeCitation v => setCitation v s
  | AddReference now sel => handleAddReference now sel s
  | RemoveReference id => handleRemoveReference id s
  | ClearDocument => handleClearDocument s
  | Tick => tick s
  | GenerateQuestions => fst (handleGenerateQuestions innerText s)
  | QuestionsSettled c => fst (generateQuestionsSettled c s)
  | QuestionsOpenChange o => setIsQuestionsDialogOpen o s
  | ExportToCsv => s
  end.

Definition effects (ev : event) (s : state) : list effect :=
  match ev with
  | GenerateQuestions => snd (handleGenerateQuestions innerText s)
  | QuestionsSettled c => snd (generateQuestionsSettled c s)
  | _ => []
  end.

(** Does the handler hand a fresh array to [setReferences]? *)
Definition setsReferences (ev : event) (s : state) : bool :=
  match ev with
  | Input _ _ | RemoveReference _ | ClearDocument => true
  | AddReference _ _ =>
      JS.truthy (JS.trim (citation s)) && JS.truthy (JS.trim (selectedText s))
  | _ => false
  end.

(** After the handler React renders again and runs the dialog-close
    effect when one of its dependencies changed. *)
Definition step (ev : event) (s : state) : state :=
  let s' := handle ev s in
  if negb (Bool.eqb (isDialogOpen s) (isDialogOpen s'))
     || negb (JS.eqb (selectedText s) (selectedText s'))
     || setsReferences ev s
  then dialogCloseEffect s'
  else s'.

Definition run (evs : list event) (s : state) : state :=
  fold_left (fun s ev => step ev s) evs s.

(** The network requests issued along a run. *)
Fixpoint requests (evs : list event) (s : state) : list effect :=
  match evs with
  | [] => []
  | ev :: r =>
      filter (fun e => match e with Fetch _ _ => true | Alert _ => false end)
             (effects ev s)
      ++ requests r (step ev s)
  end.
End Run.

End Editor.

(* ================================================================== *)
(** * JSON values *)
(* ================================================================== *)

Module Json.

(** What [JSON.parse] returns and [JSON.stringify] takes.  The type of
    numbers is left open: the code only tests them for truthiness and prints
    them.  The members of an object come in property order. *)
Inductive json (number : Type) : Type :=
| JNull
| JBool (b : bool)
| JNumber (n : number)
| JString (s : jsstring)
| JArray (items : list (json number))
| JObject (members : list (jsstring * json number)).

Arguments JNull {number}.
Arguments JBool {number} b.
Arguments JNumber {number} n.
Arguments JString {number} s.
Arguments JArray {number} items.
Arguments JObject {number} members.

Section Access.
Variable number : Type.
Variable numberTruthy : number -> bool.

(** A JavaScript value read from parsed JSON: [None] is [undefined]. *)
Definition value : Type := option (json number).

Fixpoint lookup (name : jsstring) (members : list (jsstring * json number)) : value :=
  match members with
  | [] => None
  | (k, v) :: r => if JS.eqb k name then Some v else lookup name r
  end.

Definition truthy (v : value) : bool :=
  match v with
  | None | Some JNull => false
  | Some (JBool b) => b
  | Some (JNumber n) => numberTruthy n
  | Some (JString s) => JS.truthy s
  | Some (JArray _) | Some (JObject _) => true
  end.

(** [v.name] for a name that is neither an index nor a built-in property;
    the outer [None] is the [TypeError] on [undefined] and [null]. *)
Definition member (name : jsstring) (v : value) : option value :=
  match v with
  | None | Some JNull => None
  | Some (JObject ms) => Some (lookup name ms)
  | Some _ => Some None
  end.

(** [v[0]]. *)
Definition item0 (v : value) : option value :=
  match v with
  | None | Some JNull => None
  | Some (JArray items) => Some (hd_error items)
  | Some (JString (c :: _)) => Some (Some (JString [c]))
  | Some (JObject ms) => Some (lookup (JS.lit "0") ms)
  | Some _ => Some None
  end.

(** [v?.name]. *)
Definition optMember (name : jsstring) (v : value) : value :=
  match member name v with
  | Some r => r
  | None => None
  end.

End Access.
End Json.

(* ================================================================== *)
(** * The question-generation endpoint *)
(* ================================================================== *)

Module Api.
Import Json.

Section Handler.
Variable number : Type.
Variable numberTruthy : number -> bool.
(** [JSON.stringify] of the upstream error body, and the message of the
    [TypeError] the engine raises: both only end up in [details]. *)
Variable stringify : json number -> jsstring.
Variable typeErrorMessage : jsstring.

Record request : Type := Request {
  method : jsstring;
  body : value number        (* [req.body] *)
}.

Inductive payload : Type :=
| Questions (questions : list jsstring)
| Error (error : jsstring) (details : option jsstring).

Inductive outcome : Type :=
| Sent (status : N) (json : payload)
| Uncaught.                  (* an exception leaves the handler *)

(** What [response.json()] gives. *)
Inductive parsed : Type :=
| Parsed (data : json number)
| Unparsable (message : jsstring).

(** What [await fetch(...)] gives. *)
Inductive fetched : Type :=
| Rejected (message : jsstring)
| Response (status : N) (statusText : jsstring) (json : parsed).

Record environment : Type := Environment {
  GEMINI_API_KEY : option jsstring;
  fetch : jsstring -> jsstring -> fetched     (* url, prompt text *)
}.

Definition ok (status : N) : bool := (200 <=? status)%N && (status <=? 299)%N.

Definition defaultQuestion : jsstring := JS.lit "What is the main idea of this text?".

(** [line.trim().replace(/^Q:\s*/, '')]. *)
Definition stripMarker (line : jsstring) : jsstring :=
  let t := JS.trim line in
  if JS.startsWith t (JS.lit "Q:") then JS.trimStart (skipn 2 t) else t.

Definition markedLines (responseText : jsstring) : list jsstring :=
  filter JS.truthy
    (map stripMarker
       (filter (fun line => JS.startsWith (JS.trim line) (JS.lit "Q:"))
          (JS.split 10%N responseText))).

(** The questions recovered from the upstream reply; [None] when reading the
    reply raises. *)
Definition extract (data : json number) : option (list jsstring) :=
  match member (JS.lit "candidates") (Some data) with
  | None => None
  | Some candidates =>
      let parts :=
        match item0 candidates with
        | Some first =>
            optMember (JS.lit "parts") (optMember (JS.lit "content") first)
        | None => None
        end in
      if truthy numberTruthy candidates && truthy numberTruthy parts then
        match item0 parts with
        | None => None
        | Some part =>
            match member (JS.lit "text") part with
            | Some (Some (JString responseText)) => Some (markedLines responseText)
            | _ => None
            end
        end
      else Some []
  end.

(** [while (questions.length < 3) questions.push(...)], by the number of
    rounds still allowed. *)
Fixpoint padLoop (rounds : nat) (questions : list jsstring) : list jsstring :=
  match rounds with
  | O => questions
  | S k =>
      if List.length questions <? 3
      then padLoop k (questions ++ [defaultQuestion])
      else questions
  end.

Definition endpoint : jsstring :=
  JS.lit "https://generativelanguage.googleapis.com/v1/models/gemini-1.5-flash:generateContent?key=".

Definition invalidInput : payload :=
  Error (JS.lit "Invalid input")
        (Some (JS.lit "Text is required and must be at least 30 characters")).

(** Is the [text] field missing, falsy, not a string or too short? *)
Definition rejects (text : value number) : bool :=
  match text with
  | Some (JString s) => negb (JS.truthy s) || (JS.length (JS.trim s) <? 30)%N
  | _ => true
  end.

(** The handler: its outcome and the upstream requests it made. *)
Definition handler (env : environment) (req : request)
  : outcome * list (jsstring * jsstring) :=
  if negb (JS.eqb (method req) (JS.lit "POST"))
  then (Sent 405 (Error (JS.lit "Method not allowed") None), [])
  else
    match member (JS.lit "text") (body req) with
    | None => (Uncaught, [])          (* destructuring [undefined] or [null] *)
    | Some text =>
        if rejects text then (Sent 400 invalidInput, [])
        else
          match text, GEMINI_API_KEY env with
          | Some (JString text), Some apiKey =>
              if JS.truthy apiKey then
                let url := endpoint ++ apiKey in
                let failed message :=
                  Sent 500 (Error (JS.lit "Failed to generate questions") (Some message)) in
                (match fetch env url text with
                 | Rejected message => failed message
                 | Response status statusText json =>
                     if negb (ok status) then
                       match json with
                       | Parsed errorData =>
                           Sent status (Error (JS.lit "Gemini API error")
                                              (Some (stringify errorData)))
                       | Unparsable _ =>
                           Sent status
                                (Error (JS.lit "Gemini API error")
                                       (Some (JS.lit "Status " ++ JS.toString status
                                                ++ JS.lit " - " ++ statusText)))
                       end
                     else
                       match json with
                       | Unparsable message => failed message
                       | Parsed data =>
                           match extract data with
                           | None => failed typeErrorMessage
                           | Some questions =>
                               Sent 200 (Questions (firstn 3 (padLoop 3 questions)))
                           end
                       end
                 end,
                 [(url, text)])
              else
                (Sent 500 (Error (JS.lit "Server configuration error")
                                 (Some (JS.lit "API key is missing"))), [])
          | _, _ =>
              (Sent 500 (Error (JS.lit "Server configuration error")
                               (Some (JS.lit "API key is missing"))), [])
          end
    end.

End Handler.
End Api.

(* ================================================================== *)
(** * JSON text: [JSON.stringify(value, null, 2)] and [JSON.parse] *)
(* ================================================================== *)

Module JsonText.
Import Json.

Section Text.
Variable number : Type.
(** [Number::toString] on the finite numbers, and the reading of a JSON
    number token. *)
Variable numberToString : number -> jsstring.
Variable parseNumber : jsstring -> option number.

Definition hexDigit (n : N) : N := (if n <? 10 then 48 + n else 87 + n)%N.

(** [UnicodeEscape]: a backslash, [u] and four lowercase hexadecimal digits. *)
Definition UnicodeEscape (c : N) : jsstring :=
  [92; 117; hexDigit (c / 4096); hexDigit ((c / 256) mod 16);
   hexDigit ((c / 16) mod 16); hexDigit (c mod 16)]%N.

Definition isLeadingSurrogate (c : N) : bool := ((55296 <=? c) && (c <=? 56319))%N.
Definition isTrailingSurrogate (c : N) : bool := ((56320 <=? c) && (c <=? 57343))%N.

(** One code unit outside a surrogate pair, as [QuoteJSONString] writes it. *)
Definition quoteUnit (c : N) : jsstring :=
  (if c =? 8 then [92; 98]
   else if c =? 9 then [92; 116]
   else if c =? 10 then [92; 110]
   else if c =? 12 then [92; 102]
   else if c =? 13 then [92; 114]
   else if c =? 34 then [92; 34]
   else if c =? 92 then [92; 92]
   else if (c <? 32) || isLeadingSurrogate c || isTrailingSurrogate c
        then UnicodeEscape c
        else [c])%N.

Fixpoint quoteUnits (s : jsstring) : jsstring :=
  match s with
  | [] => []
  | c :: r =>
      match r with
      | d :: r' =>
          if isLeadingSurrogate c && isTrailingSurrogate d
          then c :: d :: quoteUnits r'
          else quoteUnit c ++ quoteUnits r
      | [] => quoteUnit c
      end
  end.

Definition QuoteJSONString (s : jsstring) : jsstring :=
  34%N :: quoteUnits s ++ [34%N].

Definition gap : jsstring := [32; 32]%N.

(** The parts of an array or object joined by a comma, a line break and the
    indentation. *)
Fixpoint joinLines (indent : jsstring) (partial : list jsstring) : jsstring :=
  match partial with
  | [] => []
  | [part] => part
  | part :: r => part ++ [44%N; 10%N] ++ indent ++ joinLines indent r
  end.

Fixpoint SerializeJSONProperty (indent : jsstring) (v : json number) : jsstring :=
  match v with
  | JNull => JS.lit "null"
  | JBool true => JS.lit "true"
  | JBool false => JS.lit "false"
  | JNumber n => numberToString n
  | JString s => QuoteJSONString s
  | JArray items =>
      match items with
      | [] => JS.lit "[]"
      | _ :: _ =>
          let stepback := indent in
          let indent := indent ++ gap in
          [91%N; 10%N] ++ indent
            ++ joinLines indent (map (SerializeJSONProperty indent) items)
            ++ [10%N] ++ stepback ++ [93%N]
      end
  | JObject members =>
      match members with
      | [] => JS.lit "{}"
      | _ :: _ =>
          let stepback := indent in
          let indent := indent ++ gap in
          [123%N; 10%N] ++ indent
            ++ joinLines indent
                 (map (fun m : jsstring * json number =>
                         QuoteJSONString (fst m) ++ [58%N; 32%N]
                           ++ SerializeJSONProperty indent (snd m))
                      members)
            ++ [10%N] ++ stepback ++ [125%N]
      end
  end.

(** [JSON.stringify(value, null, 2)]. *)
Definition stringify (v : json number) : jsstring := SerializeJSONProperty [] v.

(** ** Reading *)

Definition isJsonWhiteSpace (c : N) : bool :=
  ((c =? 32) || (c =? 9) || (c =? 10) || (c =? 13))%N.

Fixpoint skipWhiteSpace (s : jsstring) : jsstring :=
  match s with
  | [] => []
  | c :: r => if isJsonWhiteSpace c then skipWhiteSpace r else s
  end.

Definition hexValue (c : N) : option N :=
  (if (48 <=? c) && (c <=? 57) then Some (c - 48)
   else if (97 <=? c) && (c <=? 102) then Some (c - 87)
   else if (65 <=? c) && (c <=? 70) then Some (c - 55)
   else None)%N.

Definition unescape (c : N) : option N :=
  (if c =? 34 then Some 34
   else if c =? 92 then Some 92
   else if c =? 47 then Some 47
   else if c =? 98 then Some 8
   else if c =? 102 then Some 12
   else if c =? 110 then Some 10
   else if c =? 114 then Some 13
   else if c =? 116 then Some 9
   else None)%N.

Definition consUnit (c : N) (r : option (jsstring * jsstring))
  : option (jsstring * jsstring) :=
  match r with
  | Some (s, rest) => Some (c :: s, rest)
  | None => None
  end.

(** The characters of a string after its opening quote, up to the closing
    one, and what follows. *)
Fixpoint parseString (s : jsstring) : option (jsstring * jsstring) :=
  match s with
  | [] => None
  | c :: r =>
      if (c =? 34)%N then Some ([], r)
      else if (c =? 92)%N then
        match r with
        | [] => None
        | e :: r1 =>
            if (e =? 117)%N then
              match r1 with
              | h3 :: h2 :: h1 :: h0 :: r2 =>
                  match hexValue h3, hexValue h2, hexValue h1, hexValue h0 with
                  | Some a, Some b, Some c', Some d =>
                      consUnit (a * 4096 + b * 256 + c' * 16 + d)%N (parseString r2)
                  | _, _, _, _ => None
                  end
              | _ => None
              end
            else
              match unescape e with
              | Some u => consUnit u (parseString r1)
              | None => None
              end
        end
      else if (c <? 32)%N then None
      else consUnit c (parseString r)
  end.

Definition isDigit (c : N) : bool := ((48 <=? c) && (c <=? 57))%N.

Definition isNumberChar (c : N) : bool :=
  (isDigit c || (c =? 45) || (c =? 43) || (c =? 46) || (c =? 101) || (c =? 69))%N.

Fixpoint spanNumber (s : jsstring) : jsstring * jsstring :=
  match s with
  | [] => ([], [])
  | c :: r =>
      if isNumberChar c
      then let (t, rest) := spanNumber r in (c :: t, rest)
      else ([], s)
  end.

(** [CreateDataProperty] on the object under construction: a repeated key
    keeps its place and takes the later value. *)
Fixpoint setMember (k : jsstring) (v : json number)
         (members : list (jsstring * json number)) : list (jsstring * json number) :=
  match members with
  | [] => [(k, v)]
  | (k', v') :: r =>
      if JS.eqb k' k then (k', v) :: r else (k', v') :: setMember k v r
  end.

Definition assemble (members : list (jsstring * json number))
  : list (jsstring * json number) :=
  fold_left (fun acc m => setMember (fst m) (snd m) acc) members [].

(** The recursive-descent reader.  One value: a string, an array, an
    object, a literal or a number. *)
Definition readValue
           (elements : jsstring -> option (list (json number) * jsstring))
           (members : jsstring -> option (list (jsstring * json number) * jsstring))
           (s : jsstring) : option (json number * jsstring) :=
  match skipWhiteSpace s with
  | [] => None
  | c :: r =>
      if (c =? 34)%N then
        match parseString r with
        | Some (str, rest) => Some (JString str, rest)
        | None => None
        end
      else if (c =? 91)%N then
        match skipWhiteSpace r with
        | [] => None
        | d :: rest =>
            if (d =? 93)%N then Some (JArray [], rest)
            else
              match elements r with
              | Some (items, rest) => Some (JArray items, rest)
              | None => None
              end
        end
      else if (c =? 123)%N then
        match skipWhiteSpace r with
        | [] => None
        | d :: rest =>
            if (d =? 125)%N then Some (JObject [], rest)
            else
              match members r with
              | Some (ms, rest) => Some (JObject (assemble ms), rest)
              | None => None
              end
        end
      else if JS.startsWith (c :: r) (JS.lit "null") then Some (JNull, skipn 4 (c :: r))
      else if JS.startsWith (c :: r) (JS.lit "true")
           then Some (JBool true, skipn 4 (c :: r))
      else if JS.startsWith (c :: r) (JS.lit "false")
           then Some (JBool false, skipn 5 (c :: r))
      else if isDigit c || (c =? 45)%N then
        let (token, rest) := spanNumber (c :: r) in
        match parseNumber token with
        | Some n => Some (JNumber n, rest)
        | None => None
        end
      else None
  end.

(** The elements of an array after its first bracket, up to the closing one. *)
Definition readElements
           (value : jsstring -> option (json number * jsstring))
           (elements : jsstring -> option (list (json number) * jsstring))
           (s : jsstring) : option (list (json number) * jsstring) :=
  match value s with
  | None => None
  | Some (v, r) =>
      match skipWhiteSpace r with
      | [] => None
      | c :: r1 =>
          if (c =? 44)%N then
            match elements r1 with
            | Some (vs, rest) => Some (v :: vs, rest)
            | None => None
            end
          else if (c =? 93)%N then Some ([v], r1)
          else None
      end
  end.

(** The members of an object after its first brace, up to the closing one. *)
Definition readMembers
           (value : jsstring -> option (json number * jsstring))
           (members : jsstring -> option (list (jsstring * json number) * jsstring))
           (s : jsstring) : option (list (jsstring * json number) * jsstring) :=
  match skipWhiteSpace s with
  | [] => None
  | q :: r =>
      if (q =? 34)%N then
        match parseString r with
        | None => None
        | Some (k, r1) =>
            match skipWhiteSpace r1 with
            | [] => None
            | colon :: r2 =>
                if (colon =? 58)%N then
                  match value r2 with
                  | None => None
                  | Some (v, r3) =>
                      match skipWhiteSpace r3 with
                      | [] => None
                      | c :: r4 =>
                          if (c =? 44)%N then
                            match members r4 with
                            | Some (ms, rest) => Some ((k, v) :: ms, rest)
                            | None => None
                            end
                          else if (c =? 125)%N then Some ([(k, v)], r4)
                          else None
                      end
                  end
                else None
            end
        end
      else None
  end.

(** [fuel] bounds the number of nested calls. *)
Fixpoint parseValue (fuel : nat) (s : jsstring) : option (json number * jsstring) :=
  match fuel with
  | O => None
  | S fuel => readValue (parseElements fuel) (parseMembers fuel) s
  end
with parseElements (fuel : nat) (s : jsstring)
  : option (list (json number) * jsstring) :=
  match fuel with
  | O => None
  | S fuel => readElements (parseValue fuel) (parseElements fuel) s
  end
with parseMembers (fuel : nat) (s : jsstring)
  : option (list (jsstring * json number) * jsstring) :=
  match fuel with
  | O => None
  | S fuel => readMembers (parseValue fuel) (parseMembers fuel) s
  end.

(** [JSON.parse]: one value, then nothing but white space. *)
Definition parse (s : jsstring) : option (json number) :=
  match parseValue (S (List.length s)) s with
  | Some (v, rest) =>
      match skipWhiteSpace rest with
      | [] => Some v
      | _ :: _ => None
      end
  | None => None
  end.

End Text.
End JsonText.

(* ================================================================== *)
(** * The event-log page (src/unnamed/part_000) *)
(* ================================================================== *)

Module EventLog.
Import Json.

Section Log.
Variable number : Type.

Inductive eventType : Type := keypress | click | change.

Record coordinates : Type := Coordinates { x : number; y : number }.

Record EventLogEntry : Type := Entry {
  timestamp : number;
  type : eventType;
  value : option jsstring;
  key : option jsstring;
  coords : option coordinates
}.

Record state : Type := State {
  text : jsstring;
  events : list EventLogEntry
}.

Definition initial : state := State [] [].

Definition logEvent (entry : EventLogEntry) (s : state) : state :=
  State (text s) (events s ++ [entry]).

Definition handleChange (timeStamp : number) (value : jsstring) (s : state) : state :=
  logEvent (Entry timeStamp change (Some value) None None) (State value (events s)).

Definition handleKeyDown (timeStamp : number) (key : jsstring) (s : state) : state :=
  logEvent (Entry timeStamp keypress None (Some key) None) s.

Definition handleClick (timeStamp clientX clientY : number) (s : state) : state :=
  logEvent (Entry timeStamp click None None (Some (Coordinates clientX clientY))) s.

Definition typeTag (t : eventType) : jsstring :=
  match t with
  | keypress => JS.lit "keypress"
  | click => JS.lit "click"
  | change => JS.lit "change"
  end.

(** The object behind an entry: the fields that are present, in the order in
    which the handlers write them. *)
Definition toObject (e : EventLogEntry) : json number :=
  JObject
    ([(JS.lit "timestamp", JNumber (timestamp e));
      (JS.lit "type", JString (typeTag (type e)))]
       ++ match value e with
          | Some v => [(JS.lit "value", JString v)]
          | None => []
          end
       ++ match key e with
          | Some k => [(JS.lit "key", JString k)]
          | None => []
          end
       ++ match coords e with
          | Some c =>
              [(JS.lit "coords",
                JObject [(JS.lit "x", JNumber (x c)); (JS.lit "y", JNumber (y c))])]
          | None => []
          end).

Variable numberToString : number -> jsstring.

(** [exportLog]: the JSON text handed to the download. *)
Definition exportLog (s : state) : jsstring :=
  JsonText.stringify numberToString (JArray (map toObject (events s))).

(** ** The page as a transition system *)

Inductive event : Type :=
| Change (timeStamp : number) (value : jsstring)
| KeyDown (timeStamp : number) (key : jsstring)
| Click (timeStamp clientX clientY : number)
| ExportLog.

Definition handle (ev : event) (s : state) : state :=
  match ev with
  | Change t v => handleChange t v s
  | KeyDown t k => handleKeyDown t k s
  | Click t cx cy => handleClick t cx cy s
  | ExportLog => s
  end.

Definition run (evs : list event) (s : state) : state :=
  fold_left (fun s ev => handle ev s) evs s.

End Log.
End EventLog.

(* ================================================================== *)
(** * The 100 ms sampler page (src/unnamed/part_001) *)
(* ================================================================== *)

Module ActivityPage.

Record state : Type := State {
  text : jsstring;
  keystrokes : list N;
  backspaces : list N;
  keystrokesRef : N;
  backspaceRef : N
}.

Definition initial : state := State [] [] [] 0 0.

(** The global ['keydown'] listener; [focused] tells whether the textarea
    is the active element. *)
Definition handleKeyDown (focused : bool) (key : jsstring) (s : state) : state :=
  let '(State t ks bs k b) := s in
  if focused then
    if JS.eqb key (JS.lit "Backspace") then State t ks bs k (b + 1)
    else State t ks bs (k + 1) b
  else s.

(** One run of the [setInterval] callback. *)
Definition interval (s : state) : state :=
  let '(State t ks bs k b) := s in State t (ks ++ [k]) (bs ++ [b]) k b.

Definition setText (v : jsstring) (s : state) : state :=
  let '(State _ ks bs k b) := s in State v ks bs k b.

(** [exportCSV]: both rows padded with empty cells to the longer length. *)
Definition pad (maxLength : nat) (arr : list N) : list jsstring :=
  map (fun i => match nth_error arr i with
                | Some v => JS.toString v
                | None => []
                end)
      (seq 0 maxLength).

Definition joinWith (sep : jsstring) (cells : list jsstring) : jsstring :=
  match cells with
  | [] => []
  | c :: r => c ++ flat_map (fun d => sep ++ d) r
  end.

Definition exportCSV (s : state) : jsstring :=
  let maxLength := Nat.max (List.length (keystrokes s)) (List.length (backspaces s)) in
  let rows := [pad maxLength (keystrokes s); pad maxLength (backspaces s)] in
  joinWith [10%N] (map (joinWith (JS.lit ",")) rows).

Fixpoint ticks (n : nat) (s : state) : state :=
  match n with
  | O => s
  | S k => ticks k (interval s)
  end.

(** ** The page as a transition system *)

Inductive event : Type :=
| KeyDown (focused : bool) (key : jsstring)   (* the window's ['keydown'] *)
| Interval                                    (* the 100 ms timer *)
| Change (value : jsstring)                   (* the textarea's [onChange] *)
| ExportCSV.                                  (* the export button *)

Definition handle (ev : event) (s : state) : state :=
  match ev with
  | KeyDown focused key => handleKeyDown focused key s
  | Interval => interval s
  | Change value => setText value s
  | ExportCSV => s
  end.

Definition run (evs : list event) (s : state) : state :=
  fold_left (fun s ev => handle ev s) evs s.

End ActivityPage.

(* ================================================================== *)
(** * The question client after its request, and what the endpoint sends *)
(* ================================================================== *)

Module Client.
Import Json.

(** A computation that returns or throws an [Error] with a message. *)
Inductive result (A : Type) : Type :=
| Ok (a : A)
| Throw (message : jsstring).

Arguments Ok {A} a.
Arguments Throw {A} message.

Definition bind (A B : Type) (r : result A) (k : A -> result B) : result B :=
  match r with
  | Ok a => k a
  | Throw m => Throw m
  end.

Notation "x <- r ;; k" := (bind r (fun x => k))
  (at level 61, r at next level, right associativity).

(** A question as [handleGenerateQuestions] builds it; [text] is whatever
    the reply holds at that place. *)
Record formatted (number : Type) : Type :=
  Format { id : jsstring; text : json number }.

(** How the part after the request ends: [alert(message)] from the [catch],
    or [setQuestions(formattedQuestions)]. *)
Inductive reply (number : Type) : Type :=
| Failed (message : jsstring)
| Formatted (formattedQuestions : list (formatted number)).

Arguments Failed {number} message.
Arguments Formatted {number} formattedQuestions.

Section Reply.
Variable number : Type.
Variable numberTruthy : number -> bool.
Variable numberToString : number -> jsstring.
(** The messages of the two [TypeError]s that reading a reply can raise:
    reading a property of [null], and an object without primitive value. *)
Variable nullMessage : jsstring -> jsstring.
Variable primitiveMessage : jsstring.

(** [ToString] on a value that [JSON.parse] built.  An array is joined with
    commas, [null] elements giving the empty string; an object gives
    ["[object Object]"], unless a key [toString] of its own hides the
    inherited method. *)
Fixpoint ToString (v : json number) : result jsstring :=
  match v with
  | JNull => Ok (JS.lit "null")
  | JBool true => Ok (JS.lit "true")
  | JBool false => Ok (JS.lit "false")
  | JNumber n => Ok (numberToString n)
  | JString s => Ok s
  | JArray items =>
      (fix join (items : list (json number)) : result jsstring :=
         match items with
         | [] => Ok []
         | x :: r =>
             let element :=
               match x with
               | JNull => Ok []
               | _ => ToString x
               end in
             match r with
             | [] => element
             | _ :: _ =>
                 e <- element ;;
                 j <- join r ;;
                 Ok (e ++ JS.lit "," ++ j)
             end
         end) items
  | JObject members =>
      match lookup (JS.lit "toString") members with
      | Some _ => Throw primitiveMessage
      | None => Ok (JS.lit "[object Object]")
      end
  end.

(** A substitution of a template literal. *)
Definition substitute (v : value number) : result jsstring :=
  match v with
  | None => Ok (JS.lit "undefined")
  | Some j => ToString j
  end.

(** [data.name]. *)
Definition get (name : jsstring) (data : json number) : result (value number) :=
  match member name (Some data) with
  | Some v => Ok v
  | None => Throw (nullMessage name)
  end.

Definition errorMessage (data : json number) : result jsstring :=
  details <- get (JS.lit "details") data ;;
  error <- get (JS.lit "error") data ;;
  if truthy numberTruthy details then
    e <- substitute error ;;
    d <- substitute details ;;
    Ok (JS.lit "Error: " ++ e ++ JS.lit " - " ++ d)
  else if truthy numberTruthy error then
    e <- substitute error ;;
    Ok (JS.lit "Error: " ++ e)
  else Ok (JS.lit "Error: " ++ JS.lit "Failed to generate questions").

(** [data.questions.map((q, index) => ...)]; [now index] is what
    [Date.now()] gives in the call for [index]. *)
Fixpoint formatFrom (now : nat -> N) (index : nat) (questions : list (json number))
  : list (formatted number) :=
  match questions with
  | [] => []
  | q :: r =>
      Format (JS.lit "q-" ++ JS.toString (now index) ++ JS.lit "-"
                ++ JS.toString (N.of_nat index)) q
        :: formatFrom now (S index) r
  end.

(** From the settled [fetch] to the end of the [try]. *)
Definition settle (now : nat -> N) (response : Api.fetched number) : reply number :=
  match response with
  | Api.Rejected _ message => Failed message
  | Api.Response status _ (Api.Unparsable _ message) => Failed message
  | Api.Response status _ (Api.Parsed data) =>
      if negb (Api.ok status) then
        match errorMessage data with
        | Ok message => Failed message
        | Throw message => Failed message
        end
      else
        match get (JS.lit "questions") data with
        | Throw message => Failed message
        | Ok (Some (JArray questions)) => Formatted (formatFrom now 0 questions)
        | Ok _ => Failed (JS.lit "Invalid response format: missing questions array")
        end
  end.

(** The reply as the state can hold it: [Question.text] is declared a
    string, and is one when the questions of the reply are strings. *)
Definition question (f : formatted number) : option Question.t :=
  match text f with
  | JString s => Some (Question.Build (id f) s)
  | _ => None
  end.

Fixpoint questions (fs : list (formatted number)) : option (list Question.t) :=
  match fs with
  | [] => Some []
  | f :: r =>
      match question f, questions r with
      | Some q, Some qs => Some (q :: qs)
      | _, _ => None
      end
  end.

Definition completion (r : reply number) : option Editor.completion :=
  match r with
  | Failed message => Some (Editor.Thrown message)
  | Formatted fs => option_map Editor.Replied (questions fs)
  end.

(** ** Between the client and the endpoint *)

(** The request the client's [fetch] makes, as the endpoint receives it:
    a POST whose parsed body is [{ text }]. *)
Definition post (text : jsstring) : Api.request number :=
  Api.Request (JS.lit "POST") (Some (JObject [(JS.lit "text", JString text)])).

(** The object handed to [res.json]. *)
Definition payloadJson (p : Api.payload) : json number :=
  match p with
  | Api.Questions questions =>
      JObject [(JS.lit "questions", JArray (map JString questions))]
  | Api.Error error None => JObject [(JS.lit "error", JString error)]
  | Api.Error error (Some details) =>
      JObject [(JS.lit "error", JString error); (JS.lit "details", JString details)]
  end.

(** What the client's [fetch] settles to when the endpoint has sent
    [res.status(status).json(payload)]. *)
Definition delivered (status : N) (p : Api.payload) : Api.fetched number :=
  Api.Response status [] (Api.Parsed (payloadJson p)).

End Reply.
End Client.

(* ================================================================== *)
(** * What the questions dialog shows *)
(* ================================================================== *)

Module QuestionsDialog.

(** The three contents of the dialog: the spinner with "Generating
    questions...", the notice "No questions generated yet.", or the
    questions, each behind its number and a full stop. *)
Inductive content : Type :=
| Generating
| NoQuestions
| Listed (items : list (jsstring * jsstring)).



End QuestionsDialog.

(* ================================================================== *)
(** * The vocabulary of the properties *)
(* ================================================================== *)

Module DomSpec.
Import Dom.

(** Induction over a node and the forest of its children at once. *)
Section NodeInduction.
Variable P : node -> Prop.
Variable Q : list node -> Prop.
Hypothesis HText : forall d, P (Text d).
Hypothesis HElem : forall t a cs, Q cs -> P (Elem t a cs).
Hypothesis Hnil : Q [].
Hypothesis Hcons : forall n l, P n -> Q l -> Q (n :: l).

Fixpoint node_forest_ind (n : node) : P n :=
  match n with
  | Text d => HText d
  | Elem t a cs =>
      HElem t a
        ((fix go (l : list node) : Q l :=
            match l with
            | [] => Hnil
            | c :: r => Hcons (node_forest_ind c) (go r)
            end) cs)
  end.

End NodeInduction.

(** A selector on the element name and the attributes only. *)
Definition elementSelector (q : node -> bool) : Prop :=
  (forall d, q (Text d) = false)
  /\ (forall t a c c', q (Elem t a c) = q (Elem t a c')).

(** What [splice p f l] has to return: nothing when no node matches, and
    otherwise the list in which the first match [n] gave way to [f n]. *)
Inductive spliced (p : node -> bool) (f : node -> list node) (l : list node)
  : option (list node) -> Prop :=
| spliced_none :
    find p (descendants l) = None -> spliced p f l None
| spliced_some n l' R pre post :
    find p (descendants l) = Some n ->
    filter p (descendants l) = filter p (subtree n) ++ R ->
    filter p (descendants l') = filter p (descendants (f n)) ++ R ->
    (forall q, elementSelector q ->
               count q l' + count q [n] = count q l + count q (f n)) ->
    content l = pre ++ textContent n ++ post ->
    content l' = pre ++ content (f n) ++ post ->
    spliced p f l (Some l').

(** The three shapes of a successful insertion. *)
Inductive inserted (new : node) : list node -> list node -> Prop :=
| inserted_here l1 l2 : inserted new (l1 ++ l2) (l1 ++ new :: l2)
| inserted_text l1 d1 d2 l2 :
    inserted new (l1 ++ Text (d1 ++ d2) :: l2)
             (l1 ++ Text d1 :: new :: Text d2 :: l2)
| inserted_below l1 t a sub sub' l2 :
    inserted new sub sub' ->
    inserted new (l1 ++ Elem t a sub :: l2) (l1 ++ Elem t a sub' :: l2).

End DomSpec.

Module MarkerSpec.
Import Dom Marker DomSpec.

(** The document holds the fresh marker and no other. *)
Definition placed (doc : list node) : Prop :=
  querySelectorAll isMarker doc = [tempMarker].

(** The three ways the paste listener can end on a clipboard text. *)
Inductive pasted (text : jsstring) (s : Editor.state) : Editor.state -> Prop :=
| pasted_ignored : pasted text s s
| pasted_raised : pasted text s (Editor.setSelectedText text s)
| pasted_marked doc' :
    inserted tempMarker (Editor.editor s) doc' ->
    JS.truthy (JS.trim text) = true ->
    pasted text s (Editor.setIsDialogOpen true (Editor.set_editor doc' (Editor.setSelectedText text s))).

(** The same for the editor of components/ui. *)
Inductive ui_pasted (text : jsstring) (s : UiEditor.state) : UiEditor.state -> Prop :=
| ui_pasted_ignored : ui_pasted text s s
| ui_pasted_raised : ui_pasted text s (UiEditor.setSelectedText text s)
| ui_pasted_marked doc' :
    inserted tempMarker (UiEditor.editor s) doc' ->
    JS.truthy (JS.trim text) = true ->
    ui_pasted text s (UiEditor.setIsDialogOpen true (UiEditor.set_editor doc' (UiEditor.setSelectedText text s))).

End MarkerSpec.

Module Terms.

(** An input type that is neither ["insertText"] nor a ["delete..."] one. *)
Definition uncounted (inputType : jsstring) : Prop :=
  JS.eqb inputType (JS.lit "insertText") = false
  /\ JS.startsWith inputType (JS.lit "delete") = false.

(** [editor.textContent || editor.innerText]. *)
Definition documentText (innerText : list Dom.node -> jsstring) (s : Editor.state)
  : jsstring :=
  if JS.truthy (Dom.content (Editor.editor s)) then Dom.content (Editor.editor s)
  else innerText (Editor.editor s).


End Terms.

Module Scenarios.
Import Dom Marker Editor.

(** Scenario B on both editors: "Climate change is accelerating." is pasted
    at the end of "Intro " and the dialog is dismissed. *)
Definition climate : jsstring := JS.lit "Climate change is accelerating.".

Definition intro : list node := [Text (JS.lit "Intro ")].

Definition ipcc : jsstring := JS.lit "(IPCC, 2023)".

Definition twoReferences : list Reference.t :=
  [Reference.Build (JS.lit "1700000000000") (JS.lit "first") (JS.lit "(A, 2023)");
   Reference.Build (JS.lit "1700000000001") (JS.lit "second") (JS.lit "(B, 2024)")].

Definition typed (n : nat) : list node := [Text (repeat 97%N n)].

(** Scenario E: two references in the store, some typing, fifteen ticks,
    then the clear action. *)
Definition beforeClear : state :=
  run content (Input (JS.lit "insertText") (typed 4) :: repeat Tick 15)
      (setReferences twoReferences initial).

Definition oneSpan : list node :=
  [Text (JS.lit "Intro ");
   refSpan (Reference.Build (JS.lit "1700000000000") climate ipcc);
   spaceNode; textNode].

Definition oneStored : state :=
  setReferences [Reference.Build (JS.lit "1700000000000") climate ipcc]
                (set_editor oneSpan initial).

Definition essay : state :=
  set_editor [Text (JS.lit "Climate change is accelerating everywhere.")] initial.

End Scenarios.

Module ApiScenarios.
Import Json Api.

Definition nonZero (n : N) : bool := negb (n =? 0)%N.

Definition noDetails (j : json N) : jsstring := [].

Definition devEnvironment : environment N :=
  Environment (Some (JS.lit "key"))
    (fun _ _ =>
       Response 200 (JS.lit "OK")
         (Parsed
            (JObject
               [(JS.lit "candidates",
                 JArray
                   [JObject
                      [(JS.lit "content",
                        JObject
                          [(JS.lit "parts",
                            JArray
                              [JObject
                                 [(JS.lit "text",
                                   JString (JS.lit "Q: Why?") )]])])]])]))).

Definition shortPost : request N :=
  Request (JS.lit "POST") (Some (JObject [(JS.lit "text", JString (JS.lit "too short"))])).

Definition longPost : request N :=
  Request (JS.lit "POST")
    (Some (JObject [(JS.lit "text",
                     JString (JS.lit "Climate change is accelerating everywhere."))])).

End ApiScenarios.

Module LogScenarios.
Import Json EventLog.

(** A change, a key press and a click, with integer time stamps. *)
Definition sampleLog : EventLog.state N :=
  handleClick 30%N 10%N 20%N
    (handleKeyDown 20%N (JS.lit "a")
       (handleChange 10%N (JS.lit "hi") (initial N))).

End LogScenarios.

Module JsonSpec.
Import Json JsonText.

(** Induction over a value, the items of an array and the members of an
    object at once. *)
Section JsonInduction.
Variable number : Type.
Variable P : json number -> Prop.
Variable Q : list (json number) -> Prop.
Variable R : list (jsstring * json number) -> Prop.
Hypothesis HNull : P JNull.
Hypothesis HBool : forall b, P (JBool b).
Hypothesis HNumber : forall n, P (JNumber n).
Hypothesis HString : forall s, P (JString s).
Hypothesis HArray : forall items, Q items -> P (JArray items).
Hypothesis HObject : forall members, R members -> P (JObject members).
Hypothesis HQnil : Q [].
Hypothesis HQcons : forall v items, P v -> Q items -> Q (v :: items).
Hypothesis HRnil : R [].
Hypothesis HRcons : forall k v members, P v -> R members -> R ((k, v) :: members).

Fixpoint json_ind3 (v : json number) : P v :=
  match v with
  | JNull => HNull
  | JBool b => HBool b
  | JNumber n => HNumber n
  | JString s => HString s
  | JArray items =>
      HArray
        ((fix go (l : list (json number)) : Q l :=
            match l with
            | [] => HQnil
            | x :: r => HQcons (json_ind3 x) (go r)
            end) items)
  | JObject members =>
      HObject
        ((fix go (l : list (jsstring * json number)) : R l :=
            match l with
            | [] => HRnil
            | (k, x) :: r => HRcons k (json_ind3 x) (go r)
            end) members)
  end.
End JsonInduction.

(** A run of white space. *)
Definition blank (w : jsstring) : Prop := forallb isJsonWhiteSpace w = true.

(** What may follow a value: nothing, or a character that no number token
    contains. *)
Definition closes (rest : jsstring) : Prop :=
  match rest with
  | [] => True
  | c :: _ => isNumberChar c = false
  end.

(** The shape of a printed number: a digit or a minus sign first, then
    digits, signs, a point or an exponent mark. *)
Definition numberText (t : jsstring) : Prop :=
  match t with
  | [] => False
  | c :: _ => isDigit c || (c =? 45)%N = true /\ forallb isNumberChar t = true
  end.

(** A value never starts with white space, nor with a closing bracket. *)
Definition opens (c : N) : Prop :=
  isJsonWhiteSpace c = false /\ (c =? 93)%N = false /\ (c =? 125)%N = false.

Section Reading.
Variable number : Type.
Variable numberToString : number -> jsstring.
Variable parseNumber : jsstring -> option number.

(** No object holds the same key twice. *)
Fixpoint uniqueKeys (v : json number) : Prop :=
  match v with
  | JArray items => fold_right (fun x acc => uniqueKeys x /\ acc) True items
  | JObject members =>
      NoDup (map fst members)
      /\ fold_right (fun m acc => uniqueKeys (snd m) /\ acc) True members
  | _ => True
  end.

(** Fuel that reading a value back takes. *)
Fixpoint need (v : json number) : nat :=
  S match v with
    | JArray items => fold_right (fun x acc => S (need x + acc)) 0 items
    | JObject members => fold_right (fun m acc => S (need (snd m) + acc)) 0 members
    | _ => 0
    end.

Definition needElements (items : list (json number)) : nat :=
  fold_right (fun x acc => S (need x + acc)) 0 items.

Definition needMembers (members : list (jsstring * json number)) : nat :=
  fold_right (fun m acc => S (need (snd m) + acc)) 0 members.

Definition memberText (indent : jsstring) (m : jsstring * json number) : jsstring :=
  QuoteJSONString (fst m) ++ [58%N; 32%N] ++ SerializeJSONProperty numberToString indent (snd m).

(** The statements of the round trip, for the items of an array, the members
    of an object and a value: the reader, given enough fuel, returns what was
    written and stops where the text stops. *)
Definition elementsRead (items : list (json number)) : Prop :=
  fold_right (fun x acc => uniqueKeys x /\ acc) True items ->
  forall k indent w stepback rest,
    items <> [] -> blank indent -> blank w -> blank stepback ->
    parseElements parseNumber (needElements items + k)
      (w ++ joinLines indent (map (SerializeJSONProperty numberToString indent) items)
         ++ [10%N] ++ stepback ++ [93%N] ++ rest)
    = Some (items, rest).

Definition membersRead (members : list (jsstring * json number)) : Prop :=
  fold_right (fun m acc => uniqueKeys (snd m) /\ acc) True members ->
  forall k indent w stepback rest,
    members <> [] -> blank indent -> blank w -> blank stepback ->
    parseMembers parseNumber (needMembers members + k)
      (w ++ joinLines indent (map (memberText indent) members)
         ++ [10%N] ++ stepback ++ [125%N] ++ rest)
    = Some (members, rest).

Definition valueRead (v : json number) : Prop :=
  uniqueKeys v ->
  forall k indent w rest,
    blank indent -> blank w -> closes rest ->
    parseValue parseNumber (need v + k) (w ++ SerializeJSONProperty numberToString indent v ++ rest) = Some (v, rest).

End Reading.
End JsonSpec.

Module SeriesSpec.

(** How many samples a series holds after the events, when it held [n]
    before them: one more for each tick, none after a clear. *)
Fixpoint samples (evs : list Editor.event) (n : nat) : nat :=
  match evs with
  | [] => n
  | Editor.Tick :: r => samples r (S n)
  | Editor.ClearDocument :: r => samples r 0
  | _ :: r => samples r n
  end.

(** A series of samples of a counter that never went down and now stands
    at [current]: it does not decrease, and stays below [current]. *)
Definition cumulative (series : list N) (current : N) : Prop :=
  (forall i j a b,
      i <= j -> nth_error series i = Some a -> nth_error series j = Some b ->
      (a <= b)%N)
  /\ (forall a, In a series -> (a <= current)%N).

End SeriesSpec.

Module CsvSpec.

(** All the values, when every cell has one. *)
Fixpoint values (cells : list (option N)) : option (list N) :=
  match cells with
  | [] => Some []
  | Some v :: r => option_map (cons v) (values r)
  | None :: _ => None
  end.

(** Reading a row of numbers separated by commas; the empty row holds no
    number. *)
Definition readRow (row : jsstring) : option (list N) :=
  match row with
  | [] => Some []
  | _ :: _ => values (map JS.parseNatural (JS.split 44%N row))
  end.

(** Reading a file of exactly two rows. *)
Definition readCsv (csv : jsstring) : option (list N * list N) :=
  match JS.split 10%N csv with
  | [first; second] =>
      match readRow first, readRow second with
      | Some a, Some b => Some (a, b)
      | _, _ => None
      end
  | _ => None
  end.

End CsvSpec.

Module UiSpec.
Import Dom Marker.

(** The document holds no marker while the dialog is closed, and at most
    one while it is open. *)
Definition tidy (s : UiEditor.state) : Prop :=
  count isMarker (UiEditor.editor s) <= (if UiEditor.isDialogOpen s then 1 else 0).

End UiSpec.

Module ActivitySpec.
Import ActivityPage.

(** The key presses that arrive while the textarea has the focus: those of
    the Backspace key, and the others. *)
Definition isErasure (ev : event) : bool :=
  match ev with
  | KeyDown true key => JS.eqb key (JS.lit "Backspace")
  | _ => false
  end.

Definition isTyped (ev : event) : bool :=
  match ev with
  | KeyDown true key => negb (JS.eqb key (JS.lit "Backspace"))
  | _ => false
  end.

Definition isInterval (ev : event) : bool :=
  match ev with
  | Interval => true
  | _ => false
  end.

Definition occurrences (p : event -> bool) (evs : list event) : nat :=
  List.length (filter p evs).

End ActivitySpec.

Module LogSpec.
Import EventLog.

Section Log.
Variable number : Type.

(** The time stamps and the kinds of the interactions among the events. *)
Definition stamps (evs : list (event number)) : list number :=
  flat_map (fun ev =>
              match ev with
              | Change t _ | KeyDown t _ | Click t _ _ => [t]
              | ExportLog _ => []
              end) evs.

Definition kinds (evs : list (event number)) : list eventType :=
  flat_map (fun ev =>
              match ev with
              | Change _ _ => [change]
              | KeyDown _ _ => [keypress]
              | Click _ _ _ => [click]
              | ExportLog _ => []
              end) evs.

(** The text that the records tell: the value of the last change record,
    the empty text when there is none. *)
Definition told (entries : list (EventLogEntry number)) : jsstring :=
  fold_left (fun text e =>
               match type e, value e with
               | change, Some v => v
               | _, _ => text
               end) entries [].

(** A record carries the payload of its kind and no other. *)
Definition wellFormed (e : EventLogEntry number) : Prop :=
  match type e with
  | change => value e <> None /\ key e = None /\ coords e = None
  | keypress => value e = None /\ key e <> None /\ coords e = None
  | click => value e = None /\ key e = None /\ coords e <> None
  end.

End Log.
End LogSpec.

Module ReplySpec.
Import Json.


End ReplySpec.

Module MoreScenarios.
Import Dom Marker.

(** A reader in 2023, for the ids of the questions. *)
Definition clock (index : nat) : N := 1700000000000%N.

Definition noMessage (name : jsstring) : jsstring := [].

Definition stored : Reference.t :=
  Reference.Build (JS.lit "1700000000000") Scenarios.climate Scenarios.ipcc.

(** The document after the commit of [stored] behind "Intro ", and a drop
    that left a copy of the reference span at its end. *)
Definition droppedCopy : list node :=
  Scenarios.oneSpan ++ [Editor.refSpan stored].

(** "Intro " typed one character at a time. *)
Definition typingIntro : list Editor.event :=
  map (fun n => Editor.Input (JS.lit "insertText") [Text (firstn n (JS.lit "Intro "))])
      [1; 2; 3; 4; 5; 6].

(** The document after the commit of [stored] behind "Intro " and one
    character typed where the commit left the cursor. *)
Definition keystrokeAfterCommit : list node :=
  [Text (JS.lit "Intro "); Editor.refSpan stored; Editor.spaceNode;
   Elem "span" [("data-normal"%string, JS.lit "true")] [Text (JS.lit "x")]].

(** The editor of components/ui with one reference in its store. *)
Definition uiStored : UiEditor.state :=
  UiEditor.setReferences [stored] (UiEditor.set_editor Scenarios.intro UiEditor.initial).

(** The same editor right after a paste at the end of "Intro ". *)
Definition uiPasted : UiEditor.state :=
  UiEditor.step (UiEditor.Paste (Some Scenarios.climate) SelectionNull)
    (UiEditor.set_editor Scenarios.intro UiEditor.initial).

(** A model that replies with an empty JSON object. *)
Definition bareEnvironment : Api.environment N :=
  Api.Environment (Some (JS.lit "key"))
    (fun _ _ => Api.Response 200 (JS.lit "OK") (Api.Parsed (Json.JObject []))).

(** The sampler page and the editor with the same two samples. *)
Definition sampledPage : ActivityPage.state :=
  ActivityPage.State [] [1%N; 1%N] [0%N; 1%N] 1 1.

Definition sampledEditor : Editor.state :=
  Editor.set_backspaceSeries [0%N; 1%N]
    (Editor.set_charSeries [1%N; 1%N] Editor.initial).

(** On the sampler page: a letter, a tick, a Backspace, a tick. *)
Definition session : list ActivityPage.event :=
  [ActivityPage.KeyDown true (JS.lit "a"); ActivityPage.Interval;
   ActivityPage.KeyDown true (JS.lit "Backspace"); ActivityPage.Interval].

(** On the event-log page: a change, a key press, an export. *)
Definition visit : list (EventLog.event N) :=
  [EventLog.Change 10%N (JS.lit "hi"); EventLog.KeyDown 20%N (JS.lit "a");
   EventLog.ExportLog N].

End MoreScenarios.

Import DomSpec MarkerSpec Terms Scenarios ApiScenarios LogScenarios JsonSpec.

(** Right-nest the appends of the goal. *)
Ltac flatten_apps := repeat progress (rewrite <- ?app_assoc; cbn [app]).

Import SeriesSpec CsvSpec UiSpec ActivitySpec LogSpec ReplySpec MoreScenarios.

(* ================================================================== *)
(** * Properties of the document operations *)
(* ================================================================== *)

Module DomFacts.
Import Dom DomSpec.

Lemma forest_ind (P : node -> Prop) (Q : list node -> Prop) :
  (forall d, P (Text d)) ->
  (forall t a cs, Q cs -> P (Elem t a cs)) ->
  Q [] ->
  (forall n l, P n -> Q l -> Q (n :: l)) ->
  forall l, Q l.
Proof.
  intros HText HElem Hnil Hcons l.
  induction l as [|c r IH]; [exact Hnil|].
  exact (Hcons c r (node_forest_ind P Q HText HElem Hnil Hcons c) IH).
Qed.



Lemma descendants_app a b : descendants (a ++ b) = descendants a ++ descendants b.
Proof. apply flat_map_app. Qed.

Lemma content_app a b : content (a ++ b) = content a ++ content b.
Proof. apply flat_map_app. Qed.

Lemma count_app q a b : count q (a ++ b) = count q a + count q b.
Proof.
  unfold count, querySelectorAll.
  now rewrite descendants_app, filter_app, length_app.
Qed.

Lemma count_cons q n l : count q (n :: l) = count q [n] + count q l.
Proof. exact (count_app q [n] l). Qed.

Lemma count_nil q : count q [] = 0.
Proof. reflexivity. Qed.

Lemma count_Elem q t a cs :
  count q [Elem t a cs] = (if q (Elem t a cs) then 1 else 0) + count q cs.
Proof.
  unfold count, querySelectorAll, descendants. simpl. rewrite app_nil_r.
  now destruct (q (Elem t a cs)).
Qed.

Lemma count_Text q d : count q [Text d] = if q (Text d) then 1 else 0.
Proof.
  unfold count, querySelectorAll, descendants. simpl.
  now destruct (q (Text d)).
Qed.

Lemma find_app (A : Type) (p : A -> bool) (a b : list A) :
  find p (a ++ b) = match find p a with Some x => Some x | None => find p b end.
Proof.
  induction a as [|x a IH]; simpl; [reflexivity|]. now destruct (p x).
Qed.

Lemma find_none_filter (A : Type) (p : A -> bool) (l : list A) :
  find p l = None -> filter p l = [].
Proof.
  induction l as [|x l IH]; simpl; [reflexivity|].
  destruct (p x); [discriminate | exact IH].
Qed.

Lemma filter_nil_find (A : Type) (p : A -> bool) (l : list A) :
  filter p l = [] -> find p l = None.
Proof.
  induction l as [|x l IH]; simpl; [reflexivity|].
  destruct (p x); [discriminate | exact IH].
Qed.

Lemma find_head_filter (A : Type) (p : A -> bool) (l : list A) :
  find p l = hd_error (filter p l).
Proof.
  induction l as [|x l IH]; simpl; [reflexivity|]. now destruct (p x).
Qed.

Lemma nth_error_decompose (A : Type) (l : list A) i x :
  nth_error l i = Some x -> l = firstn i l ++ x :: skipn (S i) l.
Proof.
  revert i; induction l as [|y l IH]; intros [|i] H; simpl in *; try discriminate.
  - now inversion H.
  - f_equal. now apply IH.
Qed.

(** ** What [splice] does *)

Section SpliceSpec.
Variable p : node -> bool.
Variable f : node -> list node.
Hypothesis p_selector : elementSelector p.


Lemma spliced_cons c r :
  spliced p f [c] (spliceNode p f c) ->
  spliced p f r (spliceList (spliceNode p f) r) ->
  spliced p f (c :: r) (spliceList (spliceNode p f) (c :: r)).
Proof.
  intros IHc IHr. simpl.
  inversion IHc as [Hnone Heq | n l' R pre post Hfind Hfl Hfl' Hcnt Hc Hc' Heq].
  - unfold descendants in Hnone; simpl in Hnone; rewrite app_nil_r in Hnone.
    inversion IHr as [Hnone' Heq' | n l' R pre post Hfind Hfl Hfl' Hcnt Hc Hc' Heq'].
    + simpl. constructor. unfold descendants; simpl.
      rewrite find_app, Hnone. exact Hnone'.
    + simpl. apply spliced_some
        with (n := n) (R := R) (pre := textContent c ++ pre) (post := post).
      * unfold descendants; simpl. rewrite find_app, Hnone. exact Hfind.
      * unfold descendants at 1; simpl.
        rewrite filter_app, (find_none_filter _ _ Hnone). exact Hfl.
      * unfold descendants at 1; simpl.
        rewrite filter_app, (find_none_filter _ _ Hnone). exact Hfl'.
      * intros q Hq. rewrite (count_cons q c l'), (count_cons q c r).
        specialize (Hcnt q Hq). lia.
      * unfold content in *; simpl. rewrite Hc. now rewrite <- app_assoc.
      * unfold content in *; simpl. rewrite Hc'. now rewrite <- app_assoc.
  - unfold descendants in Hfind, Hfl; simpl in Hfind, Hfl.
    rewrite app_nil_r in Hfind, Hfl.
    apply spliced_some
      with (n := n) (R := R ++ filter p (descendants r))
           (pre := pre) (post := post ++ content r).
    + unfold descendants; simpl. now rewrite find_app, Hfind.
    + unfold descendants at 1; simpl. rewrite filter_app, Hfl.
      now rewrite <- app_assoc.
    + rewrite descendants_app, filter_app, Hfl'. now rewrite <- app_assoc.
    + intros q Hq. rewrite count_app, (count_cons q c r).
      specialize (Hcnt q Hq). lia.
    + rewrite (content_app [c] r : content (c :: r) = _).
      rewrite Hc. now rewrite <- !app_assoc.
    + rewrite content_app, Hc'. now rewrite <- !app_assoc.
Qed.

Lemma spliceNode_spec :
  forall n, spliced p f [n] (spliceNode p f n).
Proof.
  apply (node_forest_ind
           (fun n => spliced p f [n] (spliceNode p f n))
           (fun l => spliced p f l (spliceList (spliceNode p f) l))).
  - (* text *)
    intros d. simpl. destruct p_selector as [Ht _].
    rewrite Ht. constructor. unfold descendants; simpl. now rewrite Ht.
  - (* element *)
    intros t a cs IH. simpl.
    destruct (p (Elem t a cs)) eqn:Hp.
    + apply spliced_some with (n := Elem t a cs) (R := []) (pre := []) (post := []).
      * unfold descendants; simpl. now rewrite Hp.
      * unfold descendants. simpl flat_map. now rewrite !app_nil_r.
      * now rewrite app_nil_r.
      * intros q _. lia.
      * unfold content; simpl. now rewrite !app_nil_r.
      * simpl. now rewrite app_nil_r.
    + inversion IH as [Hnone Heq | n l' R pre post Hfind Hfl Hfl' Hcnt Hc Hc' Heq].
      * simpl. constructor. unfold descendants; simpl. rewrite Hp, app_nil_r.
        exact Hnone.
      * simpl. apply spliced_some with (n := n) (R := R) (pre := pre) (post := post).
        -- unfold descendants; simpl. rewrite Hp, app_nil_r. exact Hfind.
        -- unfold descendants at 1; simpl. rewrite Hp, app_nil_r. exact Hfl.
        -- unfold descendants at 1; simpl. rewrite app_nil_r.
           destruct p_selector as [_ Hs]. rewrite (Hs t a l' cs), Hp. exact Hfl'.
        -- intros q Hq. rewrite !count_Elem.
           destruct Hq as [Hq1 Hq2]. rewrite (Hq2 t a l' cs).
           specialize (Hcnt q (conj Hq1 Hq2)). lia.
        -- unfold content; simpl. rewrite app_nil_r. exact Hc.
        -- unfold content; simpl. rewrite app_nil_r. exact Hc'.
  - constructor. reflexivity.
  - intros c r. apply spliced_cons.
Qed.

Lemma splice_spec : forall l, spliced p f l (splice p f l).
Proof.
  unfold splice. induction l as [|c r IH].
  - constructor. reflexivity.
  - apply spliced_cons; [apply spliceNode_spec | exact IH].
Qed.
End SpliceSpec.

(** ** What [insertNode] does *)

Lemma insertNode_cons i rest off new cs :
  insertNode (i :: rest) off new cs =
  match nth_error cs i with
  | None => None
  | Some (Text d) =>
      match rest with
      | [] =>
          if off <=? List.length d
          then Some (firstn i cs
                       ++ [Text (firstn off d); new; Text (skipn off d)]
                       ++ skipn (S i) cs,
                     At [] (i + 2))
          else None
      | _ :: _ => None
      end
  | Some (Elem t a sub) =>
      match insertNode rest off new sub with
      | Some (sub', At p' o') =>
          Some (firstn i cs ++ Elem t a sub' :: skipn (S i) cs, At (i :: p') o')
      | None => None
      end
  end.
Proof. reflexivity. Qed.


Lemma insertNode_inserted pth off new :
  forall cs cs' b, insertNode pth off new cs = Some (cs', b) -> inserted new cs cs'.
Proof.
  induction pth as [|i rest IH]; intros cs cs' b H.
  - cbn [insertNode] in H.
    destruct (off <=? List.length cs); [|discriminate].
    injection H as <- _.
    rewrite <- (firstn_skipn off cs) at 1. constructor.
  - rewrite insertNode_cons in H.
    destruct (nth_error cs i) as [[d|t a sub]|] eqn:Hn; [| |discriminate].
    + destruct rest; [|discriminate].
      destruct (off <=? List.length d); [|discriminate].
      injection H as <- _.
      rewrite (nth_error_decompose _ _ Hn) at 1.
      rewrite <- (firstn_skipn off d) at 1. apply inserted_text.
    + destruct (insertNode rest off new sub) as [[sub' [p' o']]|] eqn:Hr; [|discriminate].
      injection H as <- _.
      rewrite (nth_error_decompose _ _ Hn) at 1.
      apply inserted_below. exact (IH _ _ _ Hr).
Qed.

Lemma content_cons c r : content (c :: r) = textContent c ++ content r.
Proof. reflexivity. Qed.

Lemma inserted_content new cs cs' :
  inserted new cs cs' -> textContent new = [] -> content cs' = content cs.
Proof.
  intros H Hnew. induction H.
  - now rewrite !content_app, content_cons, Hnew.
  - rewrite !content_app, !content_cons, Hnew. simpl.
    now rewrite <- app_assoc.
  - rewrite !content_app, !content_cons. simpl.
    fold (content sub) (content sub'). now rewrite IHinserted.
Qed.

Lemma inserted_count q new cs cs' :
  elementSelector q -> inserted new cs cs' ->
  count q cs' = count q cs + count q [new].
Proof.
  intros [Hq1 Hq2] H. induction H.
  - rewrite !count_app, (count_cons q new). lia.
  - rewrite !count_app, (count_cons q (Text d1)), (count_cons q new),
      (count_cons q (Text d2)), (count_cons q (Text (d1 ++ d2))).
    rewrite !count_Text, !Hq1. lia.
  - rewrite !count_app, (count_cons q (Elem t a sub)), (count_cons q (Elem t a sub')).
    rewrite !count_Elem, (Hq2 t a sub' sub). lia.
Qed.

Lemma count_zero_filter q l : count q l = 0 <-> filter q (descendants l) = [].
Proof.
  unfold count, querySelectorAll. split.
  - now destruct (filter q (descendants l)).
  - now intros ->.
Qed.

Lemma querySelectorAll_app q a b :
  querySelectorAll q (a ++ b) = querySelectorAll q a ++ querySelectorAll q b.
Proof. unfold querySelectorAll. now rewrite descendants_app, filter_app. Qed.

Lemma querySelectorAll_cons q c r :
  querySelectorAll q (c :: r) = filter q (subtree c) ++ querySelectorAll q r.
Proof. unfold querySelectorAll, descendants. simpl. now rewrite filter_app. Qed.

(** Into a document without a match, the insertion brings exactly the
    matches of the new node. *)
Lemma inserted_fresh q new cs cs' :
  elementSelector q -> inserted new cs cs' -> count q cs = 0 ->
  querySelectorAll q cs' = filter q (subtree new).
Proof.
  intros [Hq1 Hq2] H. induction H; intros Hz.
  - rewrite count_app in Hz.
    assert (H1 : count q l1 = 0) by lia. assert (H2 : count q l2 = 0) by lia.
    apply count_zero_filter in H1, H2. fold (querySelectorAll q l1) in H1.
    fold (querySelectorAll q l2) in H2.
    now rewrite querySelectorAll_app, querySelectorAll_cons, H1, H2, app_nil_r.
  - rewrite count_app, count_cons in Hz.
    assert (H1 : count q l1 = 0) by lia. assert (H2 : count q l2 = 0) by lia.
    apply count_zero_filter in H1, H2. fold (querySelectorAll q l1) in H1.
    fold (querySelectorAll q l2) in H2.
    rewrite querySelectorAll_app, !querySelectorAll_cons, H1, H2, app_nil_r.
    simpl. now rewrite !Hq1, app_nil_r.
  - rewrite count_app, count_cons, count_Elem in Hz.
    assert (H1 : count q l1 = 0) by lia. assert (H2 : count q l2 = 0) by lia.
    assert (H3 : count q sub = 0) by lia.
    assert (H4 : q (Elem t a sub) = false).
    { destruct (q (Elem t a sub)); [simpl in Hz; lia | reflexivity]. }
    apply count_zero_filter in H1, H2. fold (querySelectorAll q l1) in H1.
    fold (querySelectorAll q l2) in H2.
    rewrite querySelectorAll_app, querySelectorAll_cons, H1, H2, app_nil_r.
    simpl. rewrite (Hq2 t a sub' sub), H4.
    exact (IHinserted H3).
Qed.

(** ** Successive insertions before the same node *)

Section SpliceCompose.
Variable p : node -> bool.
Hypothesis p_selector : elementSelector p.

Lemma spliceNode_success f h n :
  spliceNode p f n = None <-> spliceNode p h n = None.
Proof.
  pose proof (spliceNode_spec f p_selector n) as Hf.
  pose proof (spliceNode_spec h p_selector n) as Hh.
  split; intros E; rewrite E in *.
  - inversion Hf as [Hnone|]. inversion Hh; [reflexivity | congruence].
  - inversion Hh as [Hnone|]. inversion Hf; [reflexivity | congruence].
Qed.

Lemma spliceNode_none f n :
  find p (subtree n) = None -> spliceNode p f n = None.
Proof.
  intros Hn. pose proof (spliceNode_spec f p_selector n) as Hf.
  inversion Hf as [|m l' R pre post Hfind]; [reflexivity|].
  unfold descendants in Hfind; simpl in Hfind; rewrite app_nil_r in Hfind.
  congruence.
Qed.

Lemma spliceList_app_some rec a a' b :
  spliceList rec a = Some a' -> spliceList rec (a ++ b) = Some (a' ++ b).
Proof.
  revert a'. induction a as [|c r IH]; intros a' H; simpl in *; [discriminate|].
  destruct (rec c) as [c'|].
  - inversion H; subst. now rewrite <- app_assoc.
  - destruct (spliceList rec r) as [r'|]; [|discriminate].
    inversion H; subst. now rewrite (IH r' eq_refl).
Qed.

Variable new : node.
Variable g : node -> list node.
Hypothesis new_clear : find p (subtree new) = None.

Let f : node -> list node := fun ref => [new; ref].
Let h : node -> list node := fun n => new :: g n.

Lemma spliceList_insertBefore :
  forall l,
    match spliceList (spliceNode p f) l with
    | Some l1 =>
        spliceList (spliceNode p g) l1 = spliceList (spliceNode p h) l
    | None =>
        spliceList (spliceNode p g) l = None
        /\ spliceList (spliceNode p h) l = None
    end.
Proof.
  apply (forest_ind
    (fun n =>
       match spliceNode p f n with
       | Some l1 => spliceList (spliceNode p g) l1 = spliceNode p h n
       | None => spliceNode p g n = None /\ spliceNode p h n = None
       end)).
  - intros d. simpl. destruct p_selector as [Ht _]. rewrite Ht. now split.
  - intros t a cs IH. simpl. destruct (p (Elem t a cs)) eqn:Hp.
    + simpl. rewrite (spliceNode_none g new new_clear). simpl.
      rewrite Hp. simpl. unfold h. now rewrite app_nil_r.
    + destruct (spliceList (spliceNode p f) cs) as [cs1|]; simpl.
      * destruct p_selector as [_ Hs]. rewrite (Hs t a cs1 cs), Hp, IH.
        now destruct (spliceList (spliceNode p h) cs).
      * destruct IH as [-> ->]. now split.
  - now split.
  - intros c r IHc IHr. simpl.
    destruct (spliceNode p f c) as [c1|] eqn:Hc.
    + destruct (spliceNode p h c) as [c'|] eqn:Hh.
      * now apply spliceList_app_some.
      * apply (spliceNode_success h f) in Hh. congruence.
    + destruct IHc as [Hg Hh]. rewrite Hh.
      destruct (spliceList (spliceNode p f) r) as [r1|]; simpl.
      * now rewrite Hg, IHr.
      * destruct IHr as [Hg' Hh']. now rewrite Hg, Hg', Hh'.
Qed.

Lemma splice_insertBefore l :
  splice p g (insertBefore p new l) = splice p (fun n => new :: g n) l.
Proof.
  unfold insertBefore, splice. pose proof (spliceList_insertBefore l) as H.
  fold f. destruct (spliceList (spliceNode p f) l).
  - exact H.
  - destruct H as [Hg Hh]. rewrite Hg. symmetry. exact Hh.
Qed.
End SpliceCompose.

End DomFacts.

(* ================================================================== *)
(** * Properties of the marker protocol *)
(* ================================================================== *)

Module MarkerFacts.
Import Dom Marker DomFacts.

Lemma eqb_refl (a : jsstring) : JS.eqb a a = true.
Proof. induction a as [|x a IH]; simpl; [reflexivity|]. now rewrite N.eqb_refl. Qed.

Lemma eqb_eq (a b : jsstring) : JS.eqb a b = true <-> a = b.
Proof.
  split; [|intros ->; apply eqb_refl].
  revert b; induction a as [|x a IH]; intros [|y b] H; simpl in H;
    try discriminate; [reflexivity|].
  apply andb_true_iff in H as [H1 H2]. apply N.eqb_eq in H1. f_equal; auto.
Qed.

Lemma isMarker_selector : elementSelector isMarker.
Proof. split; intros; reflexivity. Qed.


Lemma placed_found doc : placed doc -> getElementById doc = Some tempMarker.
Proof.
  unfold placed, getElementById, querySelector, querySelectorAll. intros H.
  now rewrite find_head_filter, H.
Qed.

Lemma absent_not_found doc : count isMarker doc = 0 -> getElementById doc = None.
Proof.
  intros H. apply count_zero_filter in H. now apply filter_nil_find.
Qed.

Lemma inserted_placed doc doc' :
  inserted tempMarker doc doc' -> count isMarker doc = 0 -> placed doc'.
Proof.
  intros H Hz. unfold placed.
  now rewrite (inserted_fresh isMarker_selector H Hz).
Qed.

(** Replacing the placed marker by the nodes [ns]. *)
Lemma placed_splice ns doc :
  placed doc ->
  exists doc' pre post,
    splice isMarker (fun _ => ns) doc = Some doc'
    /\ querySelectorAll isMarker doc' = querySelectorAll isMarker ns
    /\ (forall q, elementSelector q ->
                  count q doc' + count q [tempMarker] = count q doc + count q ns)
    /\ content doc = pre ++ post
    /\ content doc' = pre ++ content ns ++ post.
Proof.
  intros Hp. pose proof (placed_found Hp) as Hf.
  pose proof (splice_spec (fun _ => ns) isMarker_selector doc) as Hs.
  inversion Hs as [Hnone | n l' R pre post Hfind Hfl Hfl' Hcnt Hc Hc' Heq].
  - unfold getElementById, querySelector in Hf. congruence.
  - unfold getElementById, querySelector in Hf. rewrite Hf in Hfind.
    inversion Hfind; subst n.
    unfold placed, querySelectorAll in Hp. rewrite Hp in Hfl.
    simpl in Hfl. inversion Hfl as [HR]. rewrite <- HR in Hfl'.
    exists l', pre, post. repeat split.
    + unfold querySelectorAll. now rewrite Hfl', app_nil_r.
    + exact Hcnt.
    + exact Hc.
    + exact Hc'.
Qed.

Lemma clear_find new : count isMarker [new] = 0 -> find isMarker (subtree new) = None.
Proof.
  intros H. apply count_zero_filter in H. apply filter_nil_find.
  unfold descendants in H; simpl in H. now rewrite app_nil_r in H.
Qed.

Lemma insert2_remove a b doc :
  count isMarker [a] = 0 -> count isMarker [b] = 0 ->
  removeChild isMarker (insertBefore isMarker b (insertBefore isMarker a doc))
  = match splice isMarker (fun _ => [a; b]) doc with
    | Some d => d
    | None => doc
    end.
Proof.
  intros Ha Hb. unfold removeChild.
  rewrite (splice_insertBefore isMarker_selector b (fun _ => []) (@clear_find _ Hb)).
  rewrite (splice_insertBefore isMarker_selector a (fun _ => [b]) (@clear_find _ Ha)).
  destruct (splice isMarker (fun _ => [a; b]) doc) eqn:E; [reflexivity|].
  assert (Hn : forall f, splice isMarker f doc = None).
  { intros f. pose proof (splice_spec f isMarker_selector doc) as Hf.
    pose proof (splice_spec (fun _ => [a; b]) isMarker_selector doc) as Hab.
    rewrite E in Hab. inversion Hab as [Hnone|].
    inversion Hf; [reflexivity | congruence]. }
  unfold insertBefore. now rewrite !Hn.
Qed.

Lemma insert3_remove a b c doc :
  count isMarker [a] = 0 -> count isMarker [b] = 0 -> count isMarker [c] = 0 ->
  removeChild isMarker
    (insertBefore isMarker c (insertBefore isMarker b (insertBefore isMarker a doc)))
  = match splice isMarker (fun _ => [a; b; c]) doc with
    | Some d => d
    | None => doc
    end.
Proof.
  intros Ha Hb Hc. unfold removeChild.
  rewrite (splice_insertBefore isMarker_selector c (fun _ => []) (@clear_find _ Hc)).
  rewrite (splice_insertBefore isMarker_selector b (fun _ => [c]) (@clear_find _ Hb)).
  rewrite (splice_insertBefore isMarker_selector a (fun _ => [b; c]) (@clear_find _ Ha)).
  destruct (splice isMarker (fun _ => [a; b; c]) doc) eqn:E; [reflexivity|].
  assert (Hn : forall f, splice isMarker f doc = None).
  { intros f. pose proof (splice_spec f isMarker_selector doc) as Hf.
    pose proof (splice_spec (fun _ => [a; b; c]) isMarker_selector doc) as Hab.
    rewrite E in Hab. inversion Hab as [Hnone|].
    inversion Hf; [reflexivity | congruence]. }
  unfold insertBefore. now rewrite !Hn.
Qed.

End MarkerFacts.

(* ================================================================== *)
(** * Properties of the editor with the consistency monitor *)
(* ================================================================== *)

Module EditorFacts.
Import Dom Marker DomFacts MarkerFacts Editor.

Lemma dialogCloseEffect_open s : isDialogOpen s = true -> dialogCloseEffect s = s.
Proof. unfold dialogCloseEffect. now intros ->. Qed.

Lemma dialogCloseEffect_absent s :
  count isMarker (editor s) = 0 -> dialogCloseEffect s = s.
Proof.
  intros H. unfold dialogCloseEffect.
  rewrite (absent_not_found _ H). now destruct (isDialogOpen s).
Qed.


Lemma handleEditorPaste_pasted text sel s :
  pasted text s (handleEditorPaste (Some text) sel s).
Proof.
  unfold handleEditorPaste.
  destruct (JS.truthy (JS.trim text)) eqn:Ht; [|constructor].
  destruct sel as [| |[pth off]].
  - apply pasted_marked; [|exact Ht].
    rewrite <- (app_nil_r (editor s)) at 1. constructor.
  - constructor.
  - destruct (insertNode pth off tempMarker (editor s)) as [[doc' b]|] eqn:Hi.
    + apply pasted_marked; [|exact Ht]. exact (insertNode_inserted _ _ _ _ Hi).
    + constructor.
Qed.

Section Steps.
Variable innerText : list node -> jsstring.

Lemma step_Paste cd sel s :
  isDialogOpen s = false -> count isMarker (editor s) = 0 ->
  step innerText (Paste cd sel) s = handleEditorPaste cd sel s.
Proof.
  intros Hd Hm. unfold step. cbn [handle setsReferences].
  rewrite orb_false_r.
  destruct (_ || _); [|reflexivity].
  destruct cd as [text|]; [|now apply dialogCloseEffect_absent].
  destruct (handleEditorPaste_pasted text sel s) as [| |doc' Hi Ht].
  - now apply dialogCloseEffect_absent.
  - apply dialogCloseEffect_absent. now destruct s.
  - apply dialogCloseEffect_open. now destruct s.
Qed.

Lemma step_cancel ev s :
  dismissal ev ->
  step innerText ev s
  = if isDialogOpen s then dialogCloseEffect (handle innerText ev s)
    else handle innerText ev s.
Proof.
  intros [-> | ->]; unfold step; cbn [handle setsReferences];
    rewrite orb_false_r.
  - replace (selectedText (handleCancelDialog s)) with (selectedText s)
      by now destruct s.
    replace (isDialogOpen (handleCancelDialog s)) with false by now destruct s.
    rewrite eqb_refl. now destruct (isDialogOpen s).
  - replace (selectedText (setIsDialogOpen false s)) with (selectedText s)
      by now destruct s.
    replace (isDialogOpen (setIsDialogOpen false s)) with false by now destruct s.
    rewrite eqb_refl. now destruct (isDialogOpen s).
Qed.

Lemma cancel_fields ev s :
  dismissal ev ->
  editor (handle innerText ev s) = editor s
  /\ references (handle innerText ev s) = references s
  /\ selectedText (handle innerText ev s) = selectedText s
  /\ isDialogOpen (handle innerText ev s) = false.
Proof. intros [-> | ->]; now destruct s. Qed.
End Steps.

(** ** The nodes a commit inserts *)

Lemma isRefSpan_selector : elementSelector isRefSpan.
Proof. split; intros; reflexivity. Qed.

Lemma isRefSpanOf_selector id : elementSelector (isRefSpanOf id).
Proof. split; intros; reflexivity. Qed.

Lemma count_isRefSpanOf_refSpan ref :
  count (isRefSpanOf (Reference.id ref)) [refSpan ref] = 1.
Proof.
  unfold refSpan. rewrite count_Elem, (count_Text _ _ : count _ [Text _] = _).
  cbn. now rewrite eqb_refl.
Qed.

Lemma count_isRefSpan_refSpan ref : count isRefSpan [refSpan ref] = 1.
Proof. reflexivity. Qed.

End EditorFacts.

(* ================================================================== *)
(** * Properties of the editor of components/ui *)
(* ================================================================== *)

Module UiEditorFacts.
Import Dom Marker DomFacts MarkerFacts UiEditor.

Lemma ui_dialogCloseEffect_open s : isDialogOpen s = true -> dialogCloseEffect s = s.
Proof. unfold dialogCloseEffect. now intros ->. Qed.

Lemma ui_dialogCloseEffect_absent s :
  count isMarker (editor s) = 0 -> dialogCloseEffect s = s.
Proof.
  intros H. unfold dialogCloseEffect.
  rewrite (absent_not_found _ H). now destruct (isDialogOpen s).
Qed.


Lemma ui_handleEditorPaste_pasted text sel s :
  ui_pasted text s (handleEditorPaste (Some text) sel s).
Proof.
  unfold handleEditorPaste.
  destruct (JS.truthy (JS.trim text)) eqn:Ht; [|constructor].
  destruct sel as [| |[pth off]].
  - apply ui_pasted_marked; [|exact Ht].
    rewrite <- (app_nil_r (editor s)) at 1. constructor.
  - constructor.
  - destruct (insertNode pth off tempMarker (editor s)) as [[doc' b]|] eqn:Hi.
    + apply ui_pasted_marked; [|exact Ht]. exact (insertNode_inserted _ _ _ _ Hi).
    + constructor.
Qed.

Lemma ui_step_Paste text sel s :
  isDialogOpen s = false -> count isMarker (editor s) = 0 ->
  step (Paste (Some text) sel) s = handleEditorPaste (Some text) sel s.
Proof.
  intros Hd Hm. unfold step. cbn [handle].
  destruct (_ || _); [|reflexivity].
  destruct (ui_handleEditorPaste_pasted text sel s) as [| |doc' Hi Ht].
  - now apply ui_dialogCloseEffect_absent.
  - apply ui_dialogCloseEffect_absent. now destruct s.
  - apply ui_dialogCloseEffect_open. now destruct s.
Qed.


End UiEditorFacts.

(* ================================================================== *)
(** * The claims *)
(* ================================================================== *)

Section PasteThenCancel.
Import Dom Marker DomFacts MarkerFacts.


End PasteThenCancel.

Section PasteThenCommit.
Import Dom Marker DomFacts MarkerFacts.

Lemma handleAddReference_placed now sel s :
  JS.truthy (JS.trim (Editor.citation s)) = true ->
  JS.truthy (JS.trim (Editor.selectedText s)) = true ->
  placed (Editor.editor s) ->
  let ref :=
    Reference.Build (JS.toString now) (Editor.selectedText s) (Editor.citation s) in
  exists doc' pre post,
    Editor.handleAddReference now sel s
    = Editor.setCitation []
        (Editor.setIsDialogOpen false
           (Editor.set_editor doc'
              (Editor.setReferences (Editor.references s ++ [ref]) s)))
    /\ count isMarker doc' = 0
    /\ (forall q, elementSelector q ->
                  count q doc' + count q [tempMarker]
                  = count q (Editor.editor s)
                    + count q [Editor.refSpan ref; Editor.spaceNode; Editor.textNode])
    /\ content (Editor.editor s) = pre ++ post
    /\ content doc'
       = pre ++ (Editor.selectedText s ++ [160%N]) ++ post.
Proof.
  intros Hc Ht Hp ref. unfold Editor.handleAddReference.
  rewrite Hc, Ht. cbn [negb orb]. rewrite (placed_found Hp).
  rewrite insert3_remove by reflexivity.
  destruct (placed_splice
              [Editor.refSpan ref; Editor.spaceNode; Editor.textNode] Hp)
    as (d & pre & post & Hs & Hq & Hn & Hcn & Hcn').
  fold ref. rewrite Hs. exists d, pre, post. repeat split.
  - unfold count. now rewrite Hq.
  - exact Hn.
  - exact Hcn.
  - rewrite Hcn'. unfold content. cbn [flat_map textContent Editor.refSpan
      Editor.spaceNode Editor.textNode Reference.text ref].
    now rewrite !app_nil_r.
Qed.

Lemma ui_handleAddReference_placed now sel s :
  JS.truthy (JS.trim (UiEditor.citation s)) = true ->
  JS.truthy (JS.trim (UiEditor.selectedText s)) = true ->
  placed (UiEditor.editor s) ->
  let ref :=
    Reference.Build (JS.toString now) (UiEditor.selectedText s) (UiEditor.citation s) in
  exists doc' pre post,
    UiEditor.handleAddReference now sel s
    = UiEditor.setCitation []
        (UiEditor.setIsDialogOpen false
           (UiEditor.set_editor doc'
              (UiEditor.setReferences (UiEditor.references s ++ [ref]) s)))
    /\ count isMarker doc' = 0
    /\ (forall q, elementSelector q ->
                  count q doc' + count q [tempMarker]
                  = count q (UiEditor.editor s)
                    + count q [UiEditor.refSpan (UiEditor.selectedText s);
                               Text (JS.lit " ")])
    /\ content (UiEditor.editor s) = pre ++ post
    /\ content doc'
       = pre ++ (UiEditor.selectedText s ++ JS.lit " ") ++ post.
Proof.
  intros Hc Ht Hp ref. unfold UiEditor.handleAddReference.
  rewrite Hc, Ht. cbn [negb orb]. rewrite (placed_found Hp).
  rewrite insert2_remove by reflexivity.
  destruct (placed_splice
              [UiEditor.refSpan (UiEditor.selectedText s); Text (JS.lit " ")] Hp)
    as (d & pre & post & Hs & Hq & Hn & Hcn & Hcn').
  fold ref. rewrite Hs. exists d, pre, post. repeat split.
  - unfold count. now rewrite Hq.
  - exact Hn.
  - exact Hcn.
  - rewrite Hcn'. unfold content. cbn [flat_map textContent UiEditor.refSpan].
    now rewrite !app_nil_r.
Qed.

(** C2 (as the code has it).  In the editor with the consistency monitor a
    paste that opened the dialog, followed by a citation that is not blank
    and a commit, appends exactly one reference to the store, with the
    pasted text as its text, and the document gains exactly one span
    carrying that reference's id; no marker is left and the dialog is
    closed.  A commit with a blank citation or a blank captured text changes
    nothing.  In the editor of components/ui the same commit appends the
    reference and inserts the text, but no span carrying an id. *)
Theorem paste_then_commit :
  (forall (innerText : list node -> jsstring) s text sel c now sel',
      Editor.isDialogOpen s = false ->
      count isMarker (Editor.editor s) = 0 ->
      JS.truthy (JS.trim c) = true ->
      let s1 := Editor.step innerText (Editor.Paste (Some text) sel) s in
      Editor.isDialogOpen s1 = true ->
      let s3 :=
        Editor.step innerText (Editor.AddReference now sel')
          (Editor.step innerText (Editor.ChangeCitation c) s1) in
      let id := JS.toString now in
      Editor.references s3
      = Editor.references s ++ [Reference.Build id text c]
      /\ count (Editor.isRefSpanOf id) (Editor.editor s3)
         = count (Editor.isRefSpanOf id) (Editor.editor s) + 1
      /\ count Editor.isRefSpan (Editor.editor s3)
         = count Editor.isRefSpan (Editor.editor s) + 1
      /\ count isMarker (Editor.editor s3) = 0
      /\ Editor.isDialogOpen s3 = false)
  /\ (forall (innerText : list node -> jsstring) s now sel,
         JS.truthy (JS.trim (Editor.citation s)) = false
         \/ JS.truthy (JS.trim (Editor.selectedText s)) = false ->
         Editor.step innerText (Editor.AddReference now sel) s = s)
  /\ (forall s text sel c now sel',
         UiEditor.isDialogOpen s = false ->
         count isMarker (UiEditor.editor s) = 0 ->
         JS.truthy (JS.trim c) = true ->
         let s1 := UiEditor.step (UiEditor.Paste (Some text) sel) s in
         UiEditor.isDialogOpen s1 = true ->
         let s3 :=
           UiEditor.step (UiEditor.AddReference now sel')
             (UiEditor.step (UiEditor.ChangeCitation c) s1) in
         UiEditor.references s3
         = UiEditor.references s ++ [Reference.Build (JS.toString now) text c]
         /\ count Editor.isRefSpan (UiEditor.editor s3)
            = count Editor.isRefSpan (UiEditor.editor s)
         /\ count isMarker (UiEditor.editor s3) = 0
         /\ exists pre post,
             content (UiEditor.editor s) = pre ++ post
             /\ content (UiEditor.editor s3) = pre ++ (text ++ JS.lit " ") ++ post).
Proof.
  split; [|split].
  - intros innerText s text sel c now sel' Hd Hm Hc. cbv zeta.
    rewrite EditorFacts.step_Paste by assumption.
    destruct (EditorFacts.handleEditorPaste_pasted text sel s) as [| |doc' Hi Htr].
    + congruence.
    + intros H. exfalso. destruct s; simpl in *. congruence.
    + intros _.
      set (s1 := Editor.setIsDialogOpen true _).
      pose proof (inserted_placed Hi Hm) as Hp.
      set (s2 := Editor.setCitation c s1).
      assert (E2 : Editor.step innerText (Editor.ChangeCitation c) s1 = s2).
      { unfold Editor.step. cbn [Editor.handle Editor.setsReferences]. fold s2.
        replace (Editor.isDialogOpen s2) with (Editor.isDialogOpen s1)
          by now destruct s.
        replace (Editor.selectedText s2) with (Editor.selectedText s1)
          by now destruct s.
        now rewrite Bool.eqb_reflx, eqb_refl. }
      rewrite E2.
      assert (Hc2 : Editor.citation s2 = c) by now destruct s.
      assert (Ht2 : Editor.selectedText s2 = text) by now destruct s.
      assert (He2 : Editor.editor s2 = doc') by now destruct s.
      assert (Hr2 : Editor.references s2 = Editor.references s) by now destruct s.
      assert (Hd2 : Editor.isDialogOpen s2 = true) by now destruct s.
      assert (Hp2 : placed (Editor.editor s2)) by now rewrite He2.
      destruct (@handleAddReference_placed now sel' s2) as
        (d & pre & post & Eh & Hz & Hn & _ & _);
        [now rewrite Hc2 | now rewrite Ht2 | exact Hp2 |].
      rewrite Hc2, Ht2, Hr2, He2 in *.
      unfold Editor.step. cbn [Editor.handle Editor.setsReferences].
      rewrite Eh. set (s3 := Editor.setCitation [] _).
      assert (He3 : Editor.editor s3 = d) by now destruct s.
      assert (Hr3 : Editor.references s3
                    = Editor.references s ++ [Reference.Build (JS.toString now) text c])
        by now destruct s.
      assert (Hd3 : Editor.isDialogOpen s3 = false) by now destruct s.
      rewrite Hd2, Hd3. cbn [Bool.eqb negb orb].
      rewrite EditorFacts.dialogCloseEffect_absent by now rewrite He3.
      rewrite He3, Hr3, Hd3.
      pose proof (inserted_count (EditorFacts.isRefSpanOf_selector (JS.toString now)) Hi)
        as H1.
      pose proof (inserted_count EditorFacts.isRefSpan_selector Hi) as H2.
      pose proof (Hn _ (EditorFacts.isRefSpanOf_selector (JS.toString now))) as H3.
      pose proof (Hn _ EditorFacts.isRefSpan_selector) as H4.
      rewrite (count_cons _ (Editor.refSpan _)) in H3.
      rewrite (count_cons _ (Editor.refSpan _)) in H4.
      pose proof (EditorFacts.count_isRefSpanOf_refSpan
                    (Reference.Build (JS.toString now) text c)) as H5.
      cbn [Reference.id] in H5. rewrite H5 in H3.
      rewrite EditorFacts.count_isRefSpan_refSpan in H4.
      change (count (Editor.isRefSpanOf (JS.toString now))
                    [Editor.spaceNode; Editor.textNode]) with 0 in H3.
      change (count Editor.isRefSpan [Editor.spaceNode; Editor.textNode])
        with 0 in H4.
      repeat split; try reflexivity; try exact Hz; lia.
  - intros innerText s now sel H. unfold Editor.step.
    cbn [Editor.handle Editor.setsReferences]. unfold Editor.handleAddReference.
    destruct H as [H | H]; rewrite H; cbn [negb orb andb].
    + now rewrite Bool.eqb_reflx, eqb_refl.
    + rewrite orb_true_r, andb_false_r. now rewrite Bool.eqb_reflx, eqb_refl.
  - intros s text sel c now sel' Hd Hm Hc. cbv zeta.
    rewrite UiEditorFacts.ui_step_Paste by assumption.
    destruct (UiEditorFacts.ui_handleEditorPaste_pasted text sel s) as [| |doc' Hi Htr].
    + congruence.
    + intros H. exfalso. destruct s; simpl in *. congruence.
    + intros _.
      set (s1 := UiEditor.setIsDialogOpen true _).
      pose proof (inserted_placed Hi Hm) as Hp.
      set (s2 := UiEditor.setCitation c s1).
      assert (E2 : UiEditor.step (UiEditor.ChangeCitation c) s1 = s2).
      { unfold UiEditor.step. cbn [UiEditor.handle]. fold s2.
        replace (UiEditor.isDialogOpen s2) with (UiEditor.isDialogOpen s1)
          by now destruct s.
        replace (UiEditor.selectedText s2) with (UiEditor.selectedText s1)
          by now destruct s.
        now rewrite Bool.eqb_reflx, eqb_refl. }
      rewrite E2.
      assert (Hc2 : UiEditor.citation s2 = c) by now destruct s.
      assert (Ht2 : UiEditor.selectedText s2 = text) by now destruct s.
      assert (He2 : UiEditor.editor s2 = doc') by now destruct s.
      assert (Hr2 : UiEditor.references s2 = UiEditor.references s) by now destruct s.
      assert (Hd2 : UiEditor.isDialogOpen s2 = true) by now destruct s.
      assert (Hp2 : placed (UiEditor.editor s2)) by now rewrite He2.
      destruct (@ui_handleAddReference_placed now sel' s2) as
        (d & pre & post & Eh & Hz & Hn & Hcn & Hcn');
        [now rewrite Hc2 | now rewrite Ht2 | exact Hp2 |].
      rewrite Hc2, Ht2, Hr2, He2 in *.
      unfold UiEditor.step. cbn [UiEditor.handle].
      rewrite Eh. set (s3 := UiEditor.setCitation [] _).
      assert (He3 : UiEditor.editor s3 = d) by now destruct s.
      assert (Hr3 : UiEditor.references s3
                    = UiEditor.references s ++ [Reference.Build (JS.toString now) text c])
        by now destruct s.
      assert (Hd3 : UiEditor.isDialogOpen s3 = false) by now destruct s.
      rewrite Hd2, Hd3. cbn [Bool.eqb negb orb].
      rewrite UiEditorFacts.ui_dialogCloseEffect_absent by now rewrite He3.
      rewrite He3, Hr3.
      pose proof (inserted_count EditorFacts.isRefSpan_selector Hi) as H2.
      pose proof (Hn _ EditorFacts.isRefSpan_selector) as H4.
      change (count Editor.isRefSpan [UiEditor.refSpan text; Text (JS.lit " ")])
        with 0 in H4.
      repeat split; try reflexivity; try exact Hz; try lia.
      exists pre, post. split; [|exact Hcn'].
      rewrite <- Hcn. symmetry. exact (inserted_content Hi eq_refl).
Qed.

End PasteThenCommit.

Section MarkerStays.
Import Dom Marker DomFacts MarkerFacts.

(** The other side of the dialog-close effect: when a stored reference has
    the captured text as its text, the dismissal leaves the marker where the
    paste put it. *)
Lemma marker_stays_when_the_text_is_stored
      (innerText : list node -> jsstring) s text sel ev :
  Editor.isDialogOpen s = false ->
  count isMarker (Editor.editor s) = 0 ->
  Editor.dismissal ev ->
  Editor.isDialogOpen (Editor.step innerText (Editor.Paste (Some text) sel) s) = true ->
  existsb (fun ref => JS.eqb (Reference.text ref) text) (Editor.references s) = true ->
  count isMarker
        (Editor.editor
           (Editor.step innerText ev
              (Editor.step innerText (Editor.Paste (Some text) sel) s))) = 1.
Proof.
  intros Hd Hm Hev. rewrite EditorFacts.step_Paste by assumption.
  rewrite EditorFacts.step_cancel by assumption.
  destruct (EditorFacts.cancel_fields innerText
              (Editor.handleEditorPaste (Some text) sel s) Hev)
    as (He & Hr & Ht & Ho).
  destruct (EditorFacts.handleEditorPaste_pasted text sel s) as [| |doc' Hi Htr].
  - congruence.
  - intros H. exfalso. destruct s; simpl in *. congruence.
  - intros Hd1 Hw. rewrite Hd1.
    set (s1 := Editor.setIsDialogOpen true _) in *.
    assert (He1 : Editor.editor s1 = doc') by now destruct s.
    assert (Hr1 : Editor.references s1 = Editor.references s) by now destruct s.
    assert (Ht1 : Editor.selectedText s1 = text) by now destruct s.
    unfold Editor.dialogCloseEffect.
    rewrite Ho, He, Hr, Ht, He1, Hr1, Ht1.
    pose proof (inserted_placed Hi Hm) as Hp.
    rewrite (placed_found Hp), Hw, He, He1.
    unfold placed in Hp. unfold count. now rewrite Hp.
Qed.

End MarkerStays.

Section MarkerExamples.
Import Dom Marker.





Lemma paste_then_commit_witness :
  (let s3 :=
     Editor.run content
       [Editor.Paste (Some climate) SelectionNull;
        Editor.ChangeCitation ipcc;
        Editor.AddReference 1700000000000 None]
       (Editor.set_editor intro Editor.initial) in
   Editor.references s3 = [Reference.Build (JS.lit "1700000000000") climate ipcc]
   /\ count (Editor.isRefSpanOf (JS.lit "1700000000000")) (Editor.editor s3) = 1)
  /\ Editor.step content (Editor.AddReference 1700000000000 None)
       (Editor.setSelectedText climate (Editor.setIsDialogOpen true Editor.initial))
     = Editor.setSelectedText climate (Editor.setIsDialogOpen true Editor.initial)
  /\ (let s3 :=
        UiEditor.run
          [UiEditor.Paste (Some climate) SelectionNull;
           UiEditor.ChangeCitation ipcc;
           UiEditor.AddReference 1700000000000 None]
          (UiEditor.set_editor intro UiEditor.initial) in
      count Editor.isRefSpan (UiEditor.editor s3) = 0).
Proof.
  destruct paste_then_commit as (H1 & H2 & H3).
  split; [split | split].
  - destruct (H1 content (Editor.set_editor intro Editor.initial) climate
                 SelectionNull ipcc 1700000000000%N None
                 eq_refl eq_refl eq_refl eq_refl) as (A & _). exact A.
  - destruct (H1 content (Editor.set_editor intro Editor.initial) climate
                 SelectionNull ipcc 1700000000000%N None
                 eq_refl eq_refl eq_refl eq_refl) as (_ & B & _). exact B.
  - exact (H2 content
              (Editor.setSelectedText climate
                 (Editor.setIsDialogOpen true Editor.initial))
              1700000000000%N None (or_introl eq_refl)).
  - destruct (H3 (UiEditor.set_editor intro UiEditor.initial) climate
                 SelectionNull ipcc 1700000000000%N None
                 eq_refl eq_refl eq_refl eq_refl) as (_ & B & _). exact B.
Defined.

(** C2 as stated fails on the editor of components/ui: the commit stores
    the reference, but no span of the document carries its id. *)
Lemma ui_commit_span_has_no_id :
  let s3 :=
    UiEditor.run
      [UiEditor.Paste (Some climate) SelectionNull;
       UiEditor.ChangeCitation ipcc;
       UiEditor.AddReference 1700000000000 None]
      (UiEditor.set_editor intro UiEditor.initial) in
  UiEditor.references s3
  = [Reference.Build (JS.lit "1700000000000") climate ipcc]
  /\ UiEditor.editor s3
     = [Text (JS.lit "Intro ");
        Elem "span" [("class"%string, JS.lit "text-blue-600 font-medium")]
             [Text climate];
        Text (JS.lit " ")]
  /\ count (Editor.isRefSpanOf (JS.lit "1700000000000")) (UiEditor.editor s3) = 0.
Proof. split; [|split]; reflexivity. Qed.

(** C4 at its failing input: a reference with the text "Climate change is
    accelerating." is in the store; the same text is pasted again and the
    dialog is cancelled.  The marker stays in the document, and the next
    paste adds a second one. *)
Theorem marker_survives_cancel_of_a_stored_text :
  let committed :=
    Editor.run content
      [Editor.Paste (Some climate) SelectionNull;
       Editor.ChangeCitation ipcc;
       Editor.AddReference 1700000000000 None]
      (Editor.set_editor intro Editor.initial) in
  let cancelled :=
    Editor.run content
      [Editor.Paste (Some climate) SelectionNull; Editor.CancelDialog] committed in
  let again :=
    Editor.step content (Editor.Paste (Some climate) SelectionNull) cancelled in
  count isMarker (Editor.editor committed) = 0
  /\ Editor.isDialogOpen cancelled = false
  /\ count isMarker (Editor.editor cancelled) = 1
  /\ count isMarker (Editor.editor again) = 2.
Proof. split; [|split; [|split]]; reflexivity. Qed.

End MarkerExamples.

(* ================================================================== *)
(** * The activity counters and the sampler *)
(* ================================================================== *)

Module CounterFacts.
Import Dom Marker Editor.

(** The dialog-close effect touches the document only. *)
Lemma dialogCloseEffect_frame s :
  let s' := dialogCloseEffect s in
  charAmount s' = charAmount s /\ backspaceAmount s' = backspaceAmount s
  /\ charSeries s' = charSeries s /\ backspaceSeries s' = backspaceSeries s
  /\ references s' = references s /\ oldTextLength s' = oldTextLength s
  /\ isDialogOpen s' = isDialogOpen s /\ selectedText s' = selectedText s.
Proof.
  unfold dialogCloseEffect.
  destruct (isDialogOpen s) eqn:Hd; [now rewrite Hd|].
  destruct (getElementById (editor s)); [|now rewrite Hd].
  destruct (existsb _ _); [now rewrite Hd|].
  destruct s; simpl in *. now rewrite Hd.
Qed.

Section Steps.
Variable innerText : list node -> jsstring.

Lemma step_frame ev s :
  let s' := step innerText ev s in
  let h := handle innerText ev s in
  charAmount s' = charAmount h /\ backspaceAmount s' = backspaceAmount h
  /\ charSeries s' = charSeries h /\ backspaceSeries s' = backspaceSeries h
  /\ references s' = references h /\ oldTextLength s' = oldTextLength h.
Proof.
  unfold step. destruct (_ || _); [|now repeat split].
  pose proof (dialogCloseEffect_frame (handle innerText ev s)) as H.
  cbv zeta in *. tauto.
Qed.

Lemma step_Tick s : step innerText Tick s = tick s.
Proof.
  unfold step. cbn [handle setsReferences].
  replace (isDialogOpen (tick s)) with (isDialogOpen s) by now destruct s.
  replace (selectedText (tick s)) with (selectedText s) by now destruct s.
  now rewrite Bool.eqb_reflx, MarkerFacts.eqb_refl.
Qed.

Lemma run_ticks n s :
  let s' := run innerText (repeat Tick n) s in
  charSeries s' = charSeries s ++ repeat (charAmount s) n
  /\ backspaceSeries s' = backspaceSeries s ++ repeat (backspaceAmount s) n
  /\ charAmount s' = charAmount s
  /\ backspaceAmount s' = backspaceAmount s.
Proof.
  revert s. induction n as [|n IH]; intros s; cbv zeta.
  - simpl. now rewrite !app_nil_r.
  - unfold run in *. simpl. rewrite step_Tick.
    destruct (IH (tick s)) as (A & B & C & D).
    rewrite A, B, C, D. destruct s; simpl. now rewrite <- !app_assoc.
Qed.
End Steps.

Lemma ticks_series n s :
  let s' := ActivityPage.ticks n s in
  ActivityPage.keystrokes s'
  = ActivityPage.keystrokes s ++ repeat (ActivityPage.keystrokesRef s) n
  /\ ActivityPage.backspaces s'
     = ActivityPage.backspaces s ++ repeat (ActivityPage.backspaceRef s) n.
Proof.
  revert s. induction n as [|n IH]; intros s; cbv zeta.
  - simpl. now rewrite !app_nil_r.
  - simpl. destruct (IH (ActivityPage.interval s)) as (A & B).
    rewrite A, B. destruct s; simpl. now rewrite <- !app_assoc.
Qed.

Lemma repeat_last_two (A : Type) (x a b : A) n l :
  repeat x n = l ++ [a; b] -> a = b.
Proof.
  intros H.
  assert (Ha : In a (repeat x n)) by (rewrite H; apply in_or_app; right; now left).
  assert (Hb : In b (repeat x n))
    by (rewrite H; apply in_or_app; right; right; now left).
  apply repeat_spec in Ha, Hb. congruence.
Qed.

End CounterFacts.

Section Counters.
Import Dom Editor.
Variable innerText : list node -> jsstring.

(** C5.  No event other than the clear action lowers a counter (a
    document-change notification in particular never does); the clear
    action sets both counters to zero and empties both series and the
    store in the same step. *)
Theorem counters_monotone_until_clear :
  (forall ev s,
      ev <> ClearDocument ->
      (charAmount s <= charAmount (step innerText ev s))%N
      /\ (backspaceAmount s <= backspaceAmount (step innerText ev s))%N)
  /\ (forall s,
         let s' := step innerText ClearDocument s in
         charAmount s' = 0%N /\ backspaceAmount s' = 0%N
         /\ charSeries s' = [] /\ backspaceSeries s' = []
         /\ references s' = []).
Proof.
  split.
  - intros ev s Hev.
    destruct (CounterFacts.step_frame innerText ev s) as (A & B & _).
    rewrite A, B. clear A B.
    destruct ev; cbn [handle]; try congruence;
      try (destruct s; simpl; split; apply N.le_refl).
    + (* paste *)
      destruct clipboardData as [t|]; [|split; apply N.le_refl].
      unfold handleEditorPaste. destruct (JS.truthy _); [|split; apply N.le_refl].
      destruct sel as [| |[pth off]]; try (destruct s; simpl; split; apply N.le_refl).
      destruct (insertNode _ _ _ _) as [[d b]|];
        destruct s; simpl; split; apply N.le_refl.
    + (* input *)
      unfold handleEditorInput.
      destruct (JS.eqb inputType _); [|destruct (JS.startsWith _ _)];
        destruct s; simpl; split; lia.
    + (* commit *)
      unfold handleAddReference. destruct (_ || _); [split; apply N.le_refl|].
      destruct s; simpl; split; apply N.le_refl.
    + (* sidebar removal *)
      unfold handleRemoveReference. destruct (findSpanById _ _);
        destruct s; simpl; split; apply N.le_refl.
    + (* question request *)
      unfold handleGenerateQuestions. destruct (_ || _);
        destruct s; simpl; split; apply N.le_refl.
    + destruct c; destruct s; simpl; split; apply N.le_refl.
  - intros s. cbv zeta.
    destruct (CounterFacts.step_frame innerText ClearDocument s)
      as (A & B & C & D & E & _).
    rewrite A, B, C, D, E. now destruct s.
Qed.

(** C6.  Every tick appends the current counter to each series, in every
    state: whatever the counters are, whether or not they moved since the
    last tick, and whatever the series hold.  So [n] ticks in a row append
    [n] copies of each counter; from empty series they give two series of
    length [n], and the last two values of each are equal.  The same holds
    of the sampler page. *)
Theorem ticks_append_to_both_series :
  (forall s,
      let s' := step innerText Tick s in
      charSeries s' = charSeries s ++ [charAmount s]
      /\ backspaceSeries s' = backspaceSeries s ++ [backspaceAmount s]
      /\ charAmount s' = charAmount s
      /\ backspaceAmount s' = backspaceAmount s)
  /\ (forall n s,
         let s' := run innerText (repeat Tick n) s in
         charSeries s' = charSeries s ++ repeat (charAmount s) n
         /\ backspaceSeries s' = backspaceSeries s ++ repeat (backspaceAmount s) n)
  /\ (forall s,
         let s' := ActivityPage.interval s in
         ActivityPage.keystrokes s'
         = ActivityPage.keystrokes s ++ [ActivityPage.keystrokesRef s]
         /\ ActivityPage.backspaces s'
            = ActivityPage.backspaces s ++ [ActivityPage.backspaceRef s]
         /\ ActivityPage.keystrokesRef s' = ActivityPage.keystrokesRef s
         /\ ActivityPage.backspaceRef s' = ActivityPage.backspaceRef s)
  /\ (forall n s,
         let s' := ActivityPage.ticks n s in
         ActivityPage.keystrokes s'
         = ActivityPage.keystrokes s ++ repeat (ActivityPage.keystrokesRef s) n
         /\ ActivityPage.backspaces s'
            = ActivityPage.backspaces s ++ repeat (ActivityPage.backspaceRef s) n)
  /\ (forall n s,
         charSeries s = [] -> backspaceSeries s = [] ->
         let s' := run innerText (repeat Tick n) s in
         List.length (charSeries s') = n /\ List.length (backspaceSeries s') = n
         /\ (forall l a b, charSeries s' = l ++ [a; b] -> a = b)
         /\ (forall l a b, backspaceSeries s' = l ++ [a; b] -> a = b))
  /\ (forall n s,
         ActivityPage.keystrokes s = [] -> ActivityPage.backspaces s = [] ->
         let s' := ActivityPage.ticks n s in
         List.length (ActivityPage.keystrokes s') = n
         /\ List.length (ActivityPage.backspaces s') = n
         /\ (forall l a b, ActivityPage.keystrokes s' = l ++ [a; b] -> a = b)
         /\ (forall l a b, ActivityPage.backspaces s' = l ++ [a; b] -> a = b)).
Proof.
  split; [|split; [|split; [|split; [|split]]]].
  - intros s. cbv zeta. rewrite CounterFacts.step_Tick. now destruct s.
  - intros n s. cbv zeta.
    destruct (CounterFacts.run_ticks innerText n s) as (A & B & _).
    now split.
  - intros s. cbv zeta. now destruct s.
  - intros n s. exact (CounterFacts.ticks_series n s).
  - intros n s Hc Hb. cbv zeta.
    destruct (CounterFacts.run_ticks innerText n s) as (A & B & _).
    rewrite A, B, Hc, Hb. simpl. rewrite !repeat_length.
    repeat split; intros l a b H; eapply CounterFacts.repeat_last_two; exact H.
  - intros n s Hc Hb. cbv zeta.
    destruct (CounterFacts.ticks_series n s) as (A & B).
    rewrite A, B, Hc, Hb. simpl. rewrite !repeat_length.
    repeat split; intros l a b H; eapply CounterFacts.repeat_last_two; exact H.
Qed.

End Counters.

Section CounterExamples.
Import Dom Editor.


Lemma counters_monotone_until_clear_witness :
  ((charAmount initial <= charAmount
      (step content (Input (JS.lit "insertText") (typed 4)) initial))%N
   /\ charAmount beforeClear = 4%N
   /\ List.length (charSeries beforeClear) = 15)
  /\ (let s' := step content ClearDocument beforeClear in
      charAmount s' = 0%N /\ backspaceAmount s' = 0%N
      /\ charSeries s' = [] /\ backspaceSeries s' = []
      /\ List.length (references s') = 0).
Proof.
  destruct (counters_monotone_until_clear content) as [H1 H2]. split.
  - split; [|split; reflexivity].
    refine (proj1 (H1 (Input (JS.lit "insertText") (typed 4)) initial _)).
    discriminate.
  - destruct (H2 beforeClear) as (A & B & C & D & E).
    cbv zeta. rewrite A, B, C, D, E. repeat split.
Defined.

(** Four characters typed, then three ticks; and three ticks of the sampler
    page from its start. *)
Lemma ticks_append_to_both_series_witness :
  (let s := step content (Input (JS.lit "insertText") (typed 4)) initial in
   charSeries (run content (repeat Tick 3) s) = [4%N; 4%N; 4%N]
   /\ backspaceSeries (run content (repeat Tick 3) s) = [0%N; 0%N; 0%N])
  /\ (let s' := run content (repeat Tick 3) initial in
      List.length (charSeries s') = 3 /\ List.length (backspaceSeries s') = 3)
  /\ (let s' := ActivityPage.ticks 3 ActivityPage.initial in
      List.length (ActivityPage.keystrokes s') = 3
      /\ List.length (ActivityPage.backspaces s') = 3).
Proof.
  destruct (ticks_append_to_both_series content) as (_ & H0 & _ & _ & H1 & H2).
  split; [|split].
  - exact (H0 3 (step content (Input (JS.lit "insertText") (typed 4)) initial)).
  - destruct (H1 3 initial eq_refl eq_refl) as (A & B & _). split; [exact A | exact B].
  - destruct (H2 3 ActivityPage.initial eq_refl eq_refl) as (A & B & _).
    split; [exact A | exact B].
Defined.

End CounterExamples.

Section UncountedInput.
Import Dom Editor.
Variable innerText : list node -> jsstring.


(** C10 (as the code has it).  On an input event of any type other than
    ["insertText"] and the ["delete..."] ones both counters stay as they
    are and the baseline becomes the new text length; the outcome of the
    event, and so of every later event, does not depend on the baseline
    that was there before.  A following ["insertText"] or ["delete..."]
    event is charged the distance to the new baseline only.  The insertion
    of a reference span is no such event: the commit raises no input event,
    moves no counter and leaves the baseline where it was, so the next
    ["insertText"] or ["delete..."] event is charged the distance between
    its text length and the old baseline, the inserted span included. *)
Theorem uncounted_input_moves_the_baseline_only :
  (forall inputType doc s,
      uncounted inputType ->
      let s' := step innerText (Input inputType doc) s in
      charAmount s' = charAmount s
      /\ backspaceAmount s' = backspaceAmount s
      /\ oldTextLength s' = JS.length (innerText doc)
      /\ (forall before evs,
             run innerText (Input inputType doc :: evs) (set_oldTextLength before s)
             = run innerText (Input inputType doc :: evs) s)
      /\ (forall doc2,
             let s2 := step innerText (Input (JS.lit "insertText") doc2) s' in
             charAmount s2
             = (charAmount s
                + absDiff (JS.length (innerText doc2)) (JS.length (innerText doc)))%N
             /\ backspaceAmount s2 = backspaceAmount s)
      /\ (forall ty2 doc2,
             JS.eqb ty2 (JS.lit "insertText") = false ->
             JS.startsWith ty2 (JS.lit "delete") = true ->
             let s2 := step innerText (Input ty2 doc2) s' in
             backspaceAmount s2
             = (backspaceAmount s
                + absDiff (JS.length (innerText doc2)) (JS.length (innerText doc)))%N
             /\ charAmount s2 = charAmount s))
  /\ (forall now sel s,
         let s' := step innerText (AddReference now sel) s in
         charAmount s' = charAmount s
         /\ backspaceAmount s' = backspaceAmount s
         /\ oldTextLength s' = oldTextLength s
         /\ (forall doc2,
                let s2 := step innerText (Input (JS.lit "insertText") doc2) s' in
                charAmount s2
                = (charAmount s
                   + absDiff (JS.length (innerText doc2)) (oldTextLength s))%N
                /\ backspaceAmount s2 = backspaceAmount s)
         /\ (forall ty2 doc2,
                JS.eqb ty2 (JS.lit "insertText") = false ->
                JS.startsWith ty2 (JS.lit "delete") = true ->
                let s2 := step innerText (Input ty2 doc2) s' in
                backspaceAmount s2
                = (backspaceAmount s
                   + absDiff (JS.length (innerText doc2)) (oldTextLength s))%N
                /\ charAmount s2 = charAmount s)).
Proof.
  split.
  - intros inputType doc s [H1 H2]. cbv zeta.
    assert (Hh : forall t,
               handle innerText (Input inputType doc) t
               = setReferences
                   (filter (fun ref => has (currentRefs doc) (Reference.id ref))
                           (references t))
                   (set_oldTextLength (JS.length (innerText doc)) (set_editor doc t))).
    { intros t. cbn [handle]. unfold handleEditorInput. rewrite H1, H2.
      now destruct t. }
    destruct (CounterFacts.step_frame innerText (Input inputType doc) s)
      as (A & B & _ & _ & _ & F).
    rewrite Hh in A, B, F.
    assert (A' : charAmount (step innerText (Input inputType doc) s) = charAmount s)
      by (rewrite A; now destruct s).
    assert (B' : backspaceAmount (step innerText (Input inputType doc) s)
                 = backspaceAmount s)
      by (rewrite B; now destruct s).
    assert (F' : oldTextLength (step innerText (Input inputType doc) s)
                 = JS.length (innerText doc))
      by (rewrite F; now destruct s).
    split; [exact A'|]. split; [exact B'|]. split; [exact F'|].
    split; [|split].
    + intros before evs. unfold run. cbn [fold_left]. f_equal.
      unfold step. rewrite !Hh. cbn [setsReferences]. rewrite !orb_true_r.
      now destruct s.
    + intros doc2.
      destruct (CounterFacts.step_frame innerText (Input (JS.lit "insertText") doc2)
                  (step innerText (Input inputType doc) s))
        as (A2 & B2 & _).
      rewrite A2, B2. cbn [handle]. unfold handleEditorInput.
      change (JS.eqb (JS.lit "insertText") (JS.lit "insertText")) with true.
      cbv iota.
      clear A B F A2 B2.
      set (t := step innerText (Input inputType doc) s) in *. clearbody t.
      destruct t; simpl in *. subst. now split.
    + intros ty2 doc2 E1 E2.
      destruct (CounterFacts.step_frame innerText (Input ty2 doc2)
                  (step innerText (Input inputType doc) s))
        as (A2 & B2 & _).
      rewrite A2, B2. cbn [handle]. unfold handleEditorInput.
      rewrite E1, E2.
      clear A B F A2 B2.
      set (t := step innerText (Input inputType doc) s) in *. clearbody t.
      destruct t; simpl in *. subst. now split.
  - intros now sel s. cbv zeta.
    destruct (CounterFacts.step_frame innerText (AddReference now sel) s)
      as (A & B & _ & _ & _ & F).
    assert (A' : charAmount (step innerText (AddReference now sel) s) = charAmount s).
    { rewrite A. cbn [handle]. unfold handleAddReference.
      destruct (_ || _); now destruct s. }
    assert (B' : backspaceAmount (step innerText (AddReference now sel) s)
                 = backspaceAmount s).
    { rewrite B. cbn [handle]. unfold handleAddReference.
      destruct (_ || _); now destruct s. }
    assert (F' : oldTextLength (step innerText (AddReference now sel) s)
                 = oldTextLength s).
    { rewrite F. cbn [handle]. unfold handleAddReference.
      destruct (_ || _); now destruct s. }
    split; [exact A'|]. split; [exact B'|]. split; [exact F'|]. split.
    + intros doc2.
      destruct (CounterFacts.step_frame innerText (Input (JS.lit "insertText") doc2)
                  (step innerText (AddReference now sel) s))
        as (A2 & B2 & _).
      rewrite A2, B2. cbn [handle]. unfold handleEditorInput.
      change (JS.eqb (JS.lit "insertText") (JS.lit "insertText")) with true.
      cbv iota.
      clear A B F A2 B2.
      set (t := step innerText (AddReference now sel) s) in *. clearbody t.
      destruct t; simpl in *. subst. now split.
    + intros ty2 doc2 E1 E2.
      destruct (CounterFacts.step_frame innerText (Input ty2 doc2)
                  (step innerText (AddReference now sel) s))
        as (A2 & B2 & _).
      rewrite A2, B2. cbn [handle]. unfold handleEditorInput.
      rewrite E1, E2.
      clear A B F A2 B2.
      set (t := step innerText (AddReference now sel) s) in *. clearbody t.
      destruct t; simpl in *. subst. now split.
Qed.

End UncountedInput.

Section UncountedExamples.
Import Dom Editor.

(** A line break typed after four characters, then one more character. *)
Lemma uncounted_input_moves_the_baseline_only_witness :
  let s := step content (Input (JS.lit "insertText") (typed 4)) initial in
  let s' := step content (Input (JS.lit "insertParagraph") (typed 9)) s in
  charAmount s' = 4%N /\ backspaceAmount s' = 0%N /\ oldTextLength s' = 9%N.
Proof.
  destruct (proj1 (uncounted_input_moves_the_baseline_only content)
              (JS.lit "insertParagraph") (typed 9)
              (step content (Input (JS.lit "insertText") (typed 4)) initial)
              (conj eq_refl eq_refl)) as (A & B & C & _).
  split; [exact A | split; [exact B | exact C]].
Defined.

(** C10 as stated fails for the insertion of a reference span.  "Intro " is
    typed, a reference of 31 characters is committed behind it, and one
    character is typed.  The commit leaves the baseline at 6 while the text
    is 38 long, and the typed character raises the keystroke counter from 6
    to 39. *)
Lemma span_insertion_is_charged_to_the_next_keystroke :
  let s :=
    run content
      (typingIntro
         ++ [Paste (Some climate) Marker.SelectionNull; ChangeCitation ipcc;
             AddReference 1700000000000 None])
      initial in
  let s' := step content (Input (JS.lit "insertText") keystrokeAfterCommit) s in
  charAmount s = 6%N
  /\ backspaceAmount s = 0%N
  /\ oldTextLength s = 6%N
  /\ JS.length (content (editor s)) = 38%N
  /\ JS.length (content keystrokeAfterCommit) = 39%N
  /\ charAmount s' = 39%N
  /\ charAmount s' <> 7%N.
Proof.
  vm_compute. split; [|split; [|split; [|split; [|split; [|split]]]]];
    try reflexivity. discriminate.
Qed.

End UncountedExamples.

(* ================================================================== *)
(** * The store as a projection of the spans *)
(* ================================================================== *)

Module StoreFacts.
Import Dom Marker DomFacts MarkerFacts Editor.

Lemma eqb_sym (a b : jsstring) : JS.eqb a b = JS.eqb b a.
Proof.
  revert b; induction a as [|x a IH]; intros [|y b]; simpl; try reflexivity.
  now rewrite N.eqb_sym, IH.
Qed.

Lemma toString_nonempty n : JS.toString n <> [].
Proof.
  unfold JS.toString, JS.lit.
  assert (H : N.to_uint n <> Decimal.Nil).
  { destruct n as [|p]; [discriminate | apply DecimalPos.Unsigned.to_uint_nonnil]. }
  destruct (N.to_uint n); try congruence; discriminate.
Qed.

(** Membership in the set of current ids, for an id that is not empty. *)
Lemma has_currentRefs id doc :
  id <> [] ->
  has (currentRefs doc) id = existsb (isRefSpanOf id) (descendants doc).
Proof.
  intros Hid. unfold has, currentRefs, querySelectorAll.
  induction (descendants doc) as [|x l IH]; [reflexivity|].
  cbn [filter existsb].
  assert (Hx : if isRefSpan x
               then existsb (JS.eqb id)
                      match getRefId x with
                      | Some refId => if JS.truthy refId then [refId] else []
                      | None => []
                      end = isRefSpanOf id x
               else isRefSpanOf id x = false).
  { destruct x as [d|t a cs]; [reflexivity|]. cbn [isRefSpan isRefSpanOf getRefId].
    destruct (String.eqb t "span"); [|reflexivity].
    destruct (getAttribute "data-ref-id" a) as [[|c v]|]; cbn.
    - destruct id; [congruence | reflexivity].
    - rewrite (eqb_sym id (c :: v)). cbn. now rewrite orb_false_r.
    - reflexivity. }
  destruct (isRefSpan x).
  - cbn [flat_map]. now rewrite existsb_app, IH, Hx.
  - now rewrite Hx, IH.
Qed.

Lemma has_currentRefs_empty doc : has (currentRefs doc) [] = false.
Proof.
  unfold has, currentRefs, querySelectorAll.
  induction (descendants doc) as [|x l IH]; [reflexivity|].
  simpl. destruct (isRefSpan x); [|exact IH]. simpl.
  destruct (getRefId x) as [[|c v]|]; simpl; exact IH.
Qed.

Lemma existsb_count q doc :
  existsb q (descendants doc) = (0 <? count q doc).
Proof.
  unfold count, querySelectorAll.
  induction (descendants doc) as [|x l IH]; [reflexivity|].
  simpl. destruct (q x); simpl; [reflexivity | exact IH].
Qed.

Lemma removeChild_count_le p q doc :
  elementSelector p -> elementSelector q ->
  count q (removeChild p doc) <= count q doc.
Proof.
  intros Hp Hq. unfold removeChild.
  pose proof (splice_spec (fun _ => []) Hp doc) as Hs.
  inversion Hs as [Hnone Heq | n l' R pre post Hfind Hfl Hfl' Hcnt Hc Hc' Heq].
  - apply Nat.le_refl.
  - specialize (Hcnt q Hq). rewrite count_nil in Hcnt. lia.
Qed.

(** Removing the first match of a selector that matches at most once. *)
Lemma removeChild_last q doc :
  elementSelector q -> count q doc <= 1 -> count q (removeChild q doc) = 0.
Proof.
  intros Hq Hle. unfold removeChild.
  pose proof (splice_spec (fun _ => []) Hq doc) as Hs.
  inversion Hs as [Hnone Heq | n l' R pre post Hfind Hfl Hfl' Hcnt Hc Hc' Heq].
  - apply count_zero_filter. now apply find_none_filter.
  - specialize (Hcnt q Hq). rewrite count_nil in Hcnt.
    apply find_some in Hfind as [_ Hn].
    assert (1 <= count q [n]).
    { destruct n as [d|t a cs].
      - rewrite count_Text, Hn. lia.
      - rewrite count_Elem, Hn. lia. }
    lia.
Qed.

Lemma dialogCloseEffect_count_le q s :
  elementSelector q ->
  count q (editor (dialogCloseEffect s)) <= count q (editor s).
Proof.
  intros Hq. unfold dialogCloseEffect.
  destruct (isDialogOpen s); [apply Nat.le_refl|].
  destruct (getElementById (editor s)); [|apply Nat.le_refl].
  destruct (existsb _ _); [apply Nat.le_refl|].
  replace (editor (set_editor (removeChild isMarker (editor s)) s))
    with (removeChild isMarker (editor s)) by now destruct s.
  now apply removeChild_count_le; [apply isMarker_selector|].
Qed.

Lemma filter_excludes (A : Type) (f : A -> bool) (l : list A) x :
  In x (filter f l) -> f x = true.
Proof. intros H. now apply filter_In in H. Qed.

Section Ids.
Variable innerText : list node -> jsstring.

(** Every id in the store is a printed [Date.now()], so none is empty. *)
Lemma stored_ids_stay_nonempty ev s :
  (forall r, In r (references s) -> Reference.id r <> []) ->
  forall r, In r (references (step innerText ev s)) -> Reference.id r <> [].
Proof.
  intros H r.
  destruct (CounterFacts.step_frame innerText ev s) as (_ & _ & _ & _ & E & _).
  rewrite E. clear E.
  assert (Hf : forall f, In r (filter f (references s)) -> Reference.id r <> []).
  { intros f Hin. apply filter_In in Hin as [Hin _]. now apply H. }
  destruct ev; cbn [handle].
  - destruct clipboardData as [t|]; [|apply H].
    unfold handleEditorPaste. destruct (JS.truthy _); [|apply H].
    destruct sel as [| |[pth off]]; try (destruct s; apply H).
    destruct (insertNode _ _ _ _) as [[d b]|]; destruct s; apply H.
  - unfold handleEditorInput.
    destruct (JS.eqb inputType _); [|destruct (JS.startsWith _ _)];
      destruct s; cbn in *; apply Hf.
  - destruct s; apply H.
  - destruct s; apply H.
  - destruct s; apply H.
  - unfold handleAddReference. destruct (_ || _); [apply H|].
    replace (references _) with
      (references s
         ++ [Reference.Build (JS.toString now) (selectedText s) (citation s)])
      by now destruct s.
    intros Hin. apply in_app_or in Hin as [Hin | [<- | []]]; [now apply H|].
    apply toString_nonempty.
  - unfold handleRemoveReference. destruct (findSpanById _ _);
      destruct s; cbn in *; apply Hf.
  - destruct s; intros [].
  - destruct s; apply H.
  - unfold handleGenerateQuestions. destruct (_ || _); destruct s; apply H.
  - destruct c; destruct s; apply H.
  - destruct s; apply H.
  - apply H.
Qed.
End Ids.

End StoreFacts.

Section StoreProjection.
Import Dom Marker DomFacts MarkerFacts Editor.
Variable innerText : list node -> jsstring.

(** C3 (as the code has it).  After a document-change notification the store
    is its previous value filtered to the references whose id is carried by
    a span of the document the notification came for (every stored id being
    non-empty, as the generated ids are).  Deleting the spans of an id by
    editing, and the sidebar removal when at most one span carries the id,
    both end with no reference of that id in the store and no span of that
    id in the document.  The sidebar removal takes out the first span of
    that id in document order, with what it contains, and nothing else:
    the other spans of that id stay where they are, every other element
    and all the text outside the removed span stay, and a document without
    such a span is left alone; in a document without marker this is all the
    event does to the document. *)
Theorem store_follows_the_spans :
  (forall inputType doc s,
      (forall r, In r (references s) -> Reference.id r <> []) ->
      references (step innerText (Input inputType doc) s)
      = filter (fun r => 0 <? count (isRefSpanOf (Reference.id r)) doc)
               (references s))
  /\ (forall inputType doc s id,
         count (isRefSpanOf id) doc = 0 ->
         let s' := step innerText (Input inputType doc) s in
         (forall r, In r (references s') -> Reference.id r <> id)
         /\ count (isRefSpanOf id) (editor s') = 0)
  /\ (forall id s,
         count (isRefSpanOf id) (editor s) <= 1 ->
         let s' := step innerText (RemoveReference id) s in
         (forall r, In r (references s') -> Reference.id r <> id)
         /\ count (isRefSpanOf id) (editor s') = 0)
  /\ (forall id s,
         let h := handleRemoveReference id s in
         (count isMarker (editor s) = 0 ->
          step innerText (RemoveReference id) s = h)
         /\ match querySelector (isRefSpanOf id) (editor s) with
            | None => editor h = editor s
            | Some first =>
                exists others pre post,
                  querySelectorAll (isRefSpanOf id) (editor s)
                  = querySelectorAll (isRefSpanOf id) [first] ++ others
                  /\ querySelectorAll (isRefSpanOf id) (editor h) = others
                  /\ (forall q, elementSelector q ->
                                count q (editor h) + count q [first]
                                = count q (editor s))
                  /\ content (editor s) = pre ++ textContent first ++ post
                  /\ content (editor h) = pre ++ post
            end).
Proof.
  assert (Hin : forall inputType doc s,
             references (handle innerText (Input inputType doc) s)
             = filter (fun ref => has (currentRefs doc) (Reference.id ref))
                      (references s)
             /\ editor (handle innerText (Input inputType doc) s) = doc).
  { intros inputType doc s. cbn [handle]. unfold handleEditorInput.
    destruct (JS.eqb inputType _); [|destruct (JS.startsWith _ _)];
      now destruct s. }
  split; [|split; [|split]].
  - intros inputType doc s Hids.
    destruct (CounterFacts.step_frame innerText (Input inputType doc) s)
      as (_ & _ & _ & _ & E & _).
    rewrite E, (proj1 (Hin inputType doc s)).
    apply filter_ext_in. intros r Hr.
    rewrite (StoreFacts.has_currentRefs doc (Hids r Hr)).
    apply StoreFacts.existsb_count.
  - intros inputType doc s id Hz. cbv zeta.
    destruct (CounterFacts.step_frame innerText (Input inputType doc) s)
      as (_ & _ & _ & _ & E & _).
    rewrite E, (proj1 (Hin inputType doc s)). split.
    + intros r Hr Heq. apply StoreFacts.filter_excludes in Hr.
      rewrite Heq in Hr. destruct id as [|c id].
      * now rewrite StoreFacts.has_currentRefs_empty in Hr.
      * rewrite StoreFacts.has_currentRefs, StoreFacts.existsb_count, Hz in Hr
          by discriminate.
        discriminate.
    + unfold step. cbn [setsReferences]. rewrite !orb_true_r.
      pose proof (StoreFacts.dialogCloseEffect_count_le
                    (handle innerText (Input inputType doc) s)
                    (EditorFacts.isRefSpanOf_selector id)) as Hle.
      rewrite (proj2 (Hin inputType doc s)) in Hle. lia.
  - intros id s Hle. cbv zeta.
    assert (Hh : references (handle innerText (RemoveReference id) s)
                 = filter (fun ref => negb (JS.eqb (Reference.id ref) id))
                          (references s)
                 /\ count (isRefSpanOf id)
                          (editor (handle innerText (RemoveReference id) s)) = 0).
    { cbn [handle]. unfold handleRemoveReference, findSpanById, querySelector.
      destruct (find (isRefSpanOf id) (descendants (editor s))) eqn:Hf.
      - split; [now destruct s|].
        replace (editor (set_editor _ _))
          with (removeChild (isRefSpanOf id) (editor s)) by now destruct s.
        apply StoreFacts.removeChild_last;
          [apply EditorFacts.isRefSpanOf_selector | exact Hle].
      - split; [now destruct s|].
        replace (editor (setReferences _ s)) with (editor s) by now destruct s.
        apply count_zero_filter. now apply find_none_filter. }
    destruct Hh as [Hr He].
    destruct (CounterFacts.step_frame innerText (RemoveReference id) s)
      as (_ & _ & _ & _ & E & _).
    rewrite E, Hr. split.
    + intros r Hin' Heq. apply StoreFacts.filter_excludes in Hin'.
      rewrite Heq, eqb_refl in Hin'. discriminate.
    + unfold step. cbn [setsReferences]. rewrite !orb_true_r.
      pose proof (StoreFacts.dialogCloseEffect_count_le
                    (handle innerText (RemoveReference id) s)
                    (EditorFacts.isRefSpanOf_selector id)) as Hle'.
      lia.
  - intros id s. cbv zeta. split.
    + intros Hz. unfold step. cbn [handle setsReferences]. rewrite !orb_true_r.
      apply EditorFacts.dialogCloseEffect_absent.
      unfold handleRemoveReference. destruct (findSpanById id s).
      * replace (editor (set_editor _ _))
          with (removeChild (isRefSpanOf id) (editor s)) by now destruct s.
        pose proof (@StoreFacts.removeChild_count_le (isRefSpanOf id) isMarker
                      (editor s) (EditorFacts.isRefSpanOf_selector id)
                      isMarker_selector) as Hle.
        lia.
      * replace (editor (setReferences _ s)) with (editor s) by now destruct s.
        exact Hz.
    + unfold handleRemoveReference, findSpanById.
      destruct (querySelector (isRefSpanOf id) (editor s)) as [first|] eqn:Hf;
        [|now destruct s].
      replace (editor (set_editor _ _))
        with (removeChild (isRefSpanOf id) (editor s)) by now destruct s.
      unfold removeChild.
      pose proof (splice_spec (fun _ => []) (EditorFacts.isRefSpanOf_selector id)
                              (editor s)) as Hs.
      unfold querySelector in Hf.
      inversion Hs as [Hnone Heq | n l' R pre post Hfind Hfl Hfl' Hcnt Hc Hc' Heq];
        [congruence|].
      rewrite Hf in Hfind. injection Hfind as <-.
      exists R, pre, post. unfold querySelectorAll at 1 2 3.
      split; [|split; [|split; [|split]]].
      * rewrite Hfl. unfold descendants. cbn [flat_map]. now rewrite app_nil_r.
      * exact Hfl'.
      * intros q Hq. specialize (Hcnt q Hq). rewrite count_nil in Hcnt. lia.
      * exact Hc.
      * exact Hc'.
Qed.

End StoreProjection.

Section StoreExamples.
Import Dom Marker Editor.


Lemma store_follows_the_spans_witness :
  references
    (step content (Input (JS.lit "deleteContentBackward") intro) oneStored) = []
  /\ (let s' := step content (Input (JS.lit "deleteContentBackward") intro) oneStored in
      count (isRefSpanOf (JS.lit "1700000000000")) (editor s') = 0)
  /\ (let s' := step content (RemoveReference (JS.lit "1700000000000")) oneStored in
      count (isRefSpanOf (JS.lit "1700000000000")) (editor s') = 0)
  /\ step content (RemoveReference (JS.lit "1700000000000")) oneStored
     = handleRemoveReference (JS.lit "1700000000000") oneStored.
Proof.
  destruct (store_follows_the_spans content) as (H1 & H2 & H3 & H4).
  split; [|split; [|split]].
  - assert (Hids : forall r, In r (references oneStored) -> Reference.id r <> []).
    { intros r [<- | []]. discriminate. }
    pose proof (H1 (JS.lit "deleteContentBackward") intro oneStored Hids) as E.
    vm_compute in E |- *. exact E.
  - pose proof (proj2 (H2 (JS.lit "deleteContentBackward") intro oneStored
                          (JS.lit "1700000000000") eq_refl)) as E.
    vm_compute in E |- *. exact E.
  - assert (Hle : count (isRefSpanOf (JS.lit "1700000000000")) (editor oneStored) <= 1)
      by (vm_compute; apply le_n).
    pose proof (proj2 (H3 (JS.lit "1700000000000") oneStored Hle)) as E.
    vm_compute in E |- *. exact E.
  - exact (proj1 (H4 (JS.lit "1700000000000") oneStored) eq_refl).
Defined.

(** C3 as stated fails when two spans carry the same id, as after a drop
    that copies a reference span: a reference is committed after "Intro ",
    the drop leaves a copy of its span at the end of the document, and the
    sidebar removal of the id follows.  The store loses the reference, and
    the document keeps the second span. *)
Lemma sidebar_removal_leaves_a_second_span :
  let id := JS.lit "1700000000000" in
  let s :=
    run content
      [Paste (Some climate) SelectionNull; ChangeCitation ipcc;
       AddReference 1700000000000 None;
       Input (JS.lit "insertFromDrop") droppedCopy]
      (set_editor intro initial) in
  let s' := step content (RemoveReference id) s in
  references s = [stored]
  /\ count (isRefSpanOf id) (editor s) = 2
  /\ references s' = []
  /\ count (isRefSpanOf id) (editor s') = 1
  /\ count (isRefSpanOf id) (editor s') <> 0.
Proof.
  vm_compute. split; [|split; [|split; [|split]]]; try reflexivity. discriminate.
Qed.

End StoreExamples.

(* ================================================================== *)
(** * The question-generation endpoint *)
(* ================================================================== *)

Section Endpoint.
Import Json Api.
Variable number : Type.
Variable numberTruthy : number -> bool.
Variable stringify : json number -> jsstring.
Variable typeErrorMessage : jsstring.






End Endpoint.

Section EndpointExamples.
Import Json Api.




End EndpointExamples.

(* ================================================================== *)
(** * The question client *)
(* ================================================================== *)

Section QuestionClient.
Import Dom Editor.
Variable innerText : list node -> jsstring.


(** C8 (as the code has it).  With an empty text, or fewer than 30
    characters once trimmed, the action alerts the user, changes nothing and
    makes no network call.  Otherwise it makes exactly one network call,
    whatever the busy flag is: the flag is set, never read. *)
Theorem generation_checks_the_text_only :
  (forall s,
      JS.truthy (documentText innerText s) = false
      \/ (JS.length (JS.trim (documentText innerText s)) < 30)%N ->
      handleGenerateQuestions innerText s
      = (s, [Alert (JS.lit "Please enter more text before generating questions.")]))
  /\ (forall s,
         JS.truthy (documentText innerText s) = true ->
         (30 <= JS.length (JS.trim (documentText innerText s)))%N ->
         forall busy,
           let s' := setIsGeneratingQuestions busy s in
           snd (handleGenerateQuestions innerText s')
           = [Fetch (JS.lit "/api/generate-questions") (documentText innerText s)]
           /\ isGeneratingQuestions (fst (handleGenerateQuestions innerText s')) = true).
Proof.
  split.
  - intros s H. unfold handleGenerateQuestions. fold (documentText innerText s).
    destruct H as [H | H].
    + now rewrite H.
    + apply N.ltb_lt in H. rewrite H. now rewrite orb_true_r.
  - intros s Ht Hl busy. cbv zeta. unfold handleGenerateQuestions.
    replace (editor (setIsGeneratingQuestions busy s)) with (editor s)
      by now destruct s.
    fold (documentText innerText s). rewrite Ht.
    apply N.ltb_ge in Hl. rewrite Hl. cbn [negb orb snd fst].
    split; [reflexivity|]. now destruct s.
Qed.

End QuestionClient.

Section QuestionClientExamples.
Import Dom Editor.


Lemma generation_checks_the_text_only_witness :
  handleGenerateQuestions content (set_editor (typed 10) initial)
  = (set_editor (typed 10) initial,
     [Alert (JS.lit "Please enter more text before generating questions.")])
  /\ snd (handleGenerateQuestions content (setIsGeneratingQuestions true essay))
     = [Fetch (JS.lit "/api/generate-questions")
              (JS.lit "Climate change is accelerating everywhere.")].
Proof.
  destruct (generation_checks_the_text_only content) as [H1 H2]. split.
  - apply H1. right. reflexivity.
  - refine (proj1 (H2 essay eq_refl _ true)). discriminate.
Defined.

(** C8 as stated fails: the action is invoked, the questions dialog is
    closed while the request is outstanding, and the action is invoked
    again.  The busy flag is set and a second request goes out. *)
Lemma second_request_while_busy :
  let evs := [GenerateQuestions; QuestionsOpenChange false; GenerateQuestions] in
  isGeneratingQuestions (run content [GenerateQuestions; QuestionsOpenChange false] essay)
  = true
  /\ requests content evs essay
     = [Fetch (JS.lit "/api/generate-questions")
              (JS.lit "Climate change is accelerating everywhere.");
        Fetch (JS.lit "/api/generate-questions")
              (JS.lit "Climate change is accelerating everywhere.")].
Proof. vm_compute. split; reflexivity. Qed.

End QuestionClientExamples.

(* ================================================================== *)
(** * Reading back what [JSON.stringify] wrote *)
(* ================================================================== *)

Module JsonFacts.
Import Json JsonText.


(** ** Strings *)

Lemma hexValue_hexDigit n : (n < 16)%N -> hexValue (hexDigit n) = Some n.
Proof.
  intros H. unfold hexDigit, hexValue.
  destruct (N.ltb_spec n 10).
  - replace ((48 <=? 48 + n) && (48 + n <=? 57))%N with true.
    + f_equal. lia.
    + symmetry. apply andb_true_iff. split; apply N.leb_le; lia.
  - replace ((48 <=? 87 + n) && (87 + n <=? 57))%N with false.
    + replace ((97 <=? 87 + n) && (87 + n <=? 102))%N with true.
      * f_equal. lia.
      * symmetry. apply andb_true_iff. split; apply N.leb_le; lia.
    + symmetry. apply andb_false_iff. right. apply N.leb_gt. lia.
Qed.

Lemma parseString_UnicodeEscape c X :
  (c < 65536)%N ->
  parseString (UnicodeEscape c ++ X) = consUnit c (parseString X).
Proof.
  intros Hc. unfold UnicodeEscape. cbn [app parseString].
  change (92 =? 34)%N with false. change (92 =? 92)%N with true.
  change (117 =? 117)%N with true. cbv iota.
  assert (H3 : (c / 4096 < 16)%N) by (apply N.Div0.div_lt_upper_bound; lia).
  assert (H2 : ((c / 256) mod 16 < 16)%N) by (apply N.mod_lt; lia).
  assert (H1 : ((c / 16) mod 16 < 16)%N) by (apply N.mod_lt; lia).
  assert (H0 : (c mod 16 < 16)%N) by (apply N.mod_lt; lia).
  rewrite !hexValue_hexDigit by assumption.
  replace (c / 4096 * 4096 + (c / 256) mod 16 * 256 + (c / 16) mod 16 * 16 + c mod 16)%N
    with c; [reflexivity|].
  pose proof (N.div_mod c 16 ltac:(lia)) as E0.
  pose proof (N.div_mod (c / 16) 16 ltac:(lia)) as E1.
  pose proof (N.div_mod (c / 256) 16 ltac:(lia)) as E2.
  replace (c / 256)%N with (c / 16 / 16)%N in * by (rewrite N.Div0.div_div; reflexivity).
  replace (c / 4096)%N with (c / 16 / 16 / 16)%N by (rewrite !N.Div0.div_div; reflexivity).
  lia.
Qed.

Lemma parseString_quoteUnit c X :
  parseString (quoteUnit c ++ X) = consUnit c (parseString X).
Proof.
  unfold quoteUnit.
  destruct (N.eqb_spec c 8); [subst; reflexivity|].
  destruct (N.eqb_spec c 9); [subst; reflexivity|].
  destruct (N.eqb_spec c 10); [subst; reflexivity|].
  destruct (N.eqb_spec c 12); [subst; reflexivity|].
  destruct (N.eqb_spec c 13); [subst; reflexivity|].
  destruct (N.eqb_spec c 34); [subst; reflexivity|].
  destruct (N.eqb_spec c 92); [subst; reflexivity|].
  destruct (_ || _) eqn:E.
  - apply parseString_UnicodeEscape.
    unfold isLeadingSurrogate, isTrailingSurrogate in E.
    apply orb_true_iff in E as [E | E]; [apply orb_true_iff in E as [E | E]|].
    + apply N.ltb_lt in E. lia.
    + apply andb_true_iff in E as [_ E]. apply N.leb_le in E. lia.
    + apply andb_true_iff in E as [_ E]. apply N.leb_le in E. lia.
  - apply orb_false_iff in E as [E _]. apply orb_false_iff in E as [E _].
    cbn [app parseString].
    destruct (N.eqb_spec c 34); [contradiction|].
    destruct (N.eqb_spec c 92); [contradiction|].
    now rewrite E.
Qed.

Lemma parseString_surrogate c X :
  isLeadingSurrogate c || isTrailingSurrogate c = true ->
  parseString (c :: X) = consUnit c (parseString X).
Proof.
  intros H. assert (Hc : (55296 <= c)%N).
  { unfold isLeadingSurrogate, isTrailingSurrogate in H.
    apply orb_true_iff in H as [H | H]; apply andb_true_iff in H as [H _];
      apply N.leb_le in H; lia. }
  cbn [parseString].
  destruct (N.eqb_spec c 34); [lia|]. destruct (N.eqb_spec c 92); [lia|].
  destruct (N.ltb_spec c 32); [lia | reflexivity].
Qed.

Lemma parseString_quoteUnits s :
  (forall rest, parseString (quoteUnits s ++ 34%N :: rest) = Some (s, rest))
  /\ (forall c rest,
         parseString (quoteUnits (c :: s) ++ 34%N :: rest) = Some (c :: s, rest)).
Proof.
  induction s as [|d r [IHa IHb]].
  - split; [reflexivity|]. intros c rest. cbn [quoteUnits].
    now rewrite parseString_quoteUnit.
  - split; [exact (IHb d)|]. intros c rest.
    change (quoteUnits (c :: d :: r))
      with (if isLeadingSurrogate c && isTrailingSurrogate d
            then c :: d :: quoteUnits r
            else quoteUnit c ++ quoteUnits (d :: r)).
    destruct (isLeadingSurrogate c && isTrailingSurrogate d) eqn:E.
    + apply andb_true_iff in E as [E1 E2].
      cbn [app]. rewrite parseString_surrogate by (rewrite E1; reflexivity).
      rewrite parseString_surrogate by (rewrite E2; apply orb_true_r).
      now rewrite IHa.
    + rewrite <- app_assoc, parseString_quoteUnit. now rewrite (IHb d).
Qed.

Lemma parseString_QuoteJSONString s rest :
  parseString (quoteUnits s ++ [34%N] ++ rest) = Some (s, rest).
Proof. exact (proj1 (parseString_quoteUnits s) rest). Qed.

(** ** White space and number tokens *)


Lemma skipWhiteSpace_blank w x :
  blank w -> skipWhiteSpace (w ++ x) = skipWhiteSpace x.
Proof.
  unfold blank. induction w as [|c w IH]; intros H; [reflexivity|].
  cbn in H. apply andb_true_iff in H as [Hc Hw]. cbn [app skipWhiteSpace].
  rewrite Hc. now apply IH.
Qed.

Lemma blank_app a b : blank a -> blank b -> blank (a ++ b).
Proof.
  unfold blank. intros Ha Hb. rewrite forallb_app.
  apply andb_true_iff. split; assumption.
Qed.

Lemma blank_gap : blank gap.
Proof. reflexivity. Qed.


Lemma spanNumber_token token rest :
  forallb isNumberChar token = true -> closes rest ->
  spanNumber (token ++ rest) = (token, rest).
Proof.
  induction token as [|c t IH]; intros Ht Hr.
  - destruct rest as [|c r]; [reflexivity|]. cbn in *. now rewrite Hr.
  - cbn in Ht. apply andb_true_iff in Ht as [Hc Ht].
    cbn [app spanNumber]. rewrite Hc, (IH Ht Hr). reflexivity.
Qed.

(** ** Objects without a repeated key *)

Lemma setMember_fresh (number : Type) k (v : json number) members :
  ~ In k (map fst members) -> setMember k v members = members ++ [(k, v)].
Proof.
  induction members as [|[k' v'] r IH]; intros H; [reflexivity|].
  cbn [setMember]. destruct (JS.eqb k' k) eqn:E.
  - apply MarkerFacts.eqb_eq in E. subst. elim H. now left.
  - cbn [app]. f_equal. apply IH. intros Hin. apply H. now right.
Qed.

Lemma assemble_unique (number : Type) (members : list (jsstring * json number)) :
  NoDup (map fst members) -> assemble members = members.
Proof.
  unfold assemble.
  assert (H : forall acc,
             NoDup (map fst (acc ++ members)) ->
             fold_left (fun acc m => setMember (fst m) (snd m) acc) members acc
             = acc ++ members).
  { induction members as [|[k v] r IH]; intros acc Hnd.
    - now rewrite app_nil_r.
    - cbn [fold_left fst snd]. rewrite setMember_fresh.
      + rewrite IH; rewrite <- app_assoc; [reflexivity | exact Hnd].
      + rewrite map_app in Hnd. cbn in Hnd. apply NoDup_remove_2 in Hnd.
        intros Hin. apply Hnd. apply in_or_app. now left. }
  intros Hnd. exact (H [] Hnd).
Qed.

(** ** The round trip *)

Section RoundTrip.
Variable number : Type.
Variable numberToString : number -> jsstring.
Variable parseNumber : jsstring -> option number.


Hypothesis numberToString_shape : forall n, numberText (numberToString n).
Hypothesis parseNumber_numberToString :
  forall n, parseNumber (numberToString n) = Some n.


Local Abbreviation ser := (SerializeJSONProperty numberToString).
Local Abbreviation memberText := (JsonSpec.memberText numberToString).
Local Abbreviation elementsRead := (JsonSpec.elementsRead numberToString parseNumber).
Local Abbreviation membersRead := (JsonSpec.membersRead numberToString parseNumber).
Local Abbreviation valueRead := (JsonSpec.valueRead numberToString parseNumber).


Lemma ser_JArray indent x items :
  ser indent (JArray (x :: items))
  = [91%N; 10%N] ++ (indent ++ gap)
      ++ joinLines (indent ++ gap) (map (ser (indent ++ gap)) (x :: items))
      ++ [10%N] ++ indent ++ [93%N].
Proof. reflexivity. Qed.

Lemma ser_JObject indent m members :
  ser indent (JObject (m :: members))
  = [123%N; 10%N] ++ (indent ++ gap)
      ++ joinLines (indent ++ gap) (map (memberText (indent ++ gap)) (m :: members))
      ++ [10%N] ++ indent ++ [125%N].
Proof. reflexivity. Qed.


Lemma digit_or_minus c :
  isDigit c || (c =? 45)%N = true ->
  opens c /\ (c =? 34)%N = false /\ (c =? 91)%N = false /\ (c =? 123)%N = false
  /\ (110 =? c)%N = false /\ (116 =? c)%N = false /\ (102 =? c)%N = false.
Proof.
  intros H. assert (Hc : (48 <= c <= 57)%N \/ c = 45%N).
  { apply orb_true_iff in H as [H | H].
    - left. unfold isDigit in H. apply andb_true_iff in H as [H1 H2].
      apply N.leb_le in H1, H2. lia.
    - right. now apply N.eqb_eq in H. }
  unfold opens, isJsonWhiteSpace.
  repeat split; repeat (apply orb_false_iff; split); apply N.eqb_neq; lia.
Qed.

Lemma ser_head indent v :
  exists c t, ser indent v = c :: t /\ opens c.
Proof.
  destruct v as [|[|]|n|s|[|x items]|[|m members]].
  1-3, 5-9: eexists; eexists; split; [reflexivity | repeat split].
  pose proof (numberToString_shape n) as H. cbn [SerializeJSONProperty].
  destruct (numberToString n) as [|c t]; [contradiction|].
  destruct H as [H _]. exists c, t. split; [reflexivity|].
  exact (proj1 (digit_or_minus c H)).
Qed.

Lemma skipWhiteSpace_opens c t : opens c -> skipWhiteSpace (c :: t) = c :: t.
Proof. intros [H _]. cbn [skipWhiteSpace]. now rewrite H. Qed.

Lemma parseValue_S fuel s :
  parseValue parseNumber (S fuel) s
  = readValue parseNumber (parseElements parseNumber fuel)
              (parseMembers parseNumber fuel) s.
Proof. reflexivity. Qed.

Lemma parseElements_S fuel s :
  parseElements parseNumber (S fuel) s
  = readElements (parseValue parseNumber fuel) (parseElements parseNumber fuel) s.
Proof. reflexivity. Qed.

Lemma parseMembers_S fuel s :
  parseMembers parseNumber (S fuel) s
  = readMembers (parseValue parseNumber fuel) (parseMembers parseNumber fuel) s.
Proof. reflexivity. Qed.

Lemma parseValue_atom fuel indent w v rest :
  match v with JArray _ | JObject _ => False | _ => True end ->
  blank w -> closes rest ->
  parseValue parseNumber (S fuel) (w ++ ser indent v ++ rest) = Some (v, rest).
Proof.
  intros Hv Hw Hr. rewrite parseValue_S. unfold readValue.
  rewrite (skipWhiteSpace_blank _ Hw).
  destruct v as [|[|]|n|s| |]; try contradiction; try reflexivity.
  - cbn [SerializeJSONProperty].
    pose proof (numberToString_shape n) as H.
    pose proof (parseNumber_numberToString n) as Hn.
    destruct (numberToString n) as [|c t] eqn:E; [contradiction|].
    destruct H as [Hc Ht].
    destruct (digit_or_minus c Hc) as (Ho & H34 & H91 & H123 & Hn1 & Ht1 & Hf1).
    cbn [app]. rewrite (skipWhiteSpace_opens _ Ho).
    rewrite H34, H91, H123. cbn [JS.startsWith JS.lit map list_ascii_of_string].
    change (N_of_ascii "n") with 110%N. change (N_of_ascii "t") with 116%N.
    change (N_of_ascii "f") with 102%N.
    rewrite Hn1, Ht1, Hf1. cbn [andb]. rewrite Hc.
    change (c :: t ++ rest) with ((c :: t) ++ rest).
    rewrite spanNumber_token by assumption. now rewrite Hn.
  - cbn [SerializeJSONProperty QuoteJSONString app skipWhiteSpace].
    change (isJsonWhiteSpace 34) with false. cbv iota.
    change (34 =? 34)%N with true. cbv iota.
    rewrite <- app_assoc. now rewrite parseString_QuoteJSONString.
Qed.

Lemma joinLines_cons indent part partial :
  joinLines indent (part :: partial)
  = part ++ match partial with
            | [] => []
            | _ :: _ => [44%N; 10%N] ++ indent ++ joinLines indent partial
            end.
Proof. destruct partial; [now rewrite app_nil_r | reflexivity]. Qed.


Lemma blank_line indent : blank indent -> blank (10%N :: indent).
Proof. intros H. exact H. Qed.

Lemma arrayRead items : elementsRead items -> valueRead (JArray items).
Proof.
  intros IH Hu k indent w rest Hi Hw Hr.
  destruct items as [|x items].
  - change (need (JArray []) + k) with (S k).
    rewrite parseValue_S. unfold readValue. now rewrite (skipWhiteSpace_blank _ Hw).
  - change (need (JArray (x :: items)) + k) with (S (needElements (x :: items) + k)).
    rewrite parseValue_S, ser_JArray. unfold readValue.
    rewrite (skipWhiteSpace_blank _ Hw).
    set (I := indent ++ gap).
    assert (HI : blank I) by (apply blank_app; [exact Hi | exact blank_gap]).
    set (J := joinLines I (map (ser I) (x :: items))).
    replace (([91%N; 10%N] ++ I ++ J ++ [10%N] ++ indent ++ [93%N]) ++ rest)
      with (91%N :: ((10%N :: I) ++ J ++ [10%N] ++ indent ++ [93%N] ++ rest))
      by (flatten_apps; reflexivity).
    cbn [skipWhiteSpace]. change (isJsonWhiteSpace 91) with false. cbv iota.
    change (91 =? 34)%N with false. change (91 =? 91)%N with true. cbv iota.
    rewrite (skipWhiteSpace_blank _ (blank_line HI)).
    assert (Hhead : exists c t,
               skipWhiteSpace (J ++ [10%N] ++ indent ++ [93%N] ++ rest) = c :: t
               /\ (c =? 93)%N = false).
    { unfold J. cbn [map]. rewrite joinLines_cons.
      destruct (ser_head I x) as (c & t & Ec & Hc). rewrite Ec.
      rewrite <- app_assoc. cbn [app]. exists c. eexists.
      split; [apply skipWhiteSpace_opens; exact Hc | apply Hc]. }
    destruct Hhead as (c & t & E1 & E2). rewrite E1, E2.
    unfold J.
    now rewrite (IH Hu k I (10%N :: I) indent rest ltac:(discriminate)
                    HI (blank_line HI) Hi).
Qed.

Lemma elementsRead_cons x items :
  valueRead x -> elementsRead items -> elementsRead (x :: items).
Proof.
  intros IHx IHr [Hux Hur] k indent w stepback rest _ Hi Hw Hs.
  change (needElements (x :: items) + k)
    with (S (need x + needElements items + k)).
  rewrite parseElements_S. unfold readElements.
  destruct items as [|y items].
  - change (joinLines indent (map (ser indent) [x])) with (ser indent x).
    replace (need x + needElements [] + k) with (need x + k) by (cbn; lia).
    rewrite (IHx Hux k indent w ([10%N] ++ stepback ++ [93%N] ++ rest)
                 Hi Hw eq_refl).
    replace ([10%N] ++ stepback ++ [93%N] ++ rest)
      with ((10%N :: stepback) ++ 93%N :: rest) by reflexivity.
    rewrite (skipWhiteSpace_blank _ (blank_line Hs)).
    reflexivity.
  - set (tail := joinLines indent (map (ser indent) (y :: items))).
    change (joinLines indent (map (ser indent) (x :: y :: items)))
      with (ser indent x ++ [44%N; 10%N] ++ indent ++ tail).
    replace (w ++ (ser indent x ++ [44%N; 10%N] ++ indent ++ tail)
               ++ [10%N] ++ stepback ++ [93%N] ++ rest)
      with (w ++ ser indent x
              ++ 44%N :: ((10%N :: indent) ++ tail ++ [10%N] ++ stepback ++ [93%N] ++ rest))
      by (flatten_apps; reflexivity).
    replace (need x + needElements (y :: items) + k)
      with (need x + (needElements (y :: items) + k)) by lia.
    rewrite (IHx Hux _ indent w
                 (44%N :: ((10%N :: indent) ++ tail
                             ++ [10%N] ++ stepback ++ [93%N] ++ rest))
                 Hi Hw eq_refl).
    cbn [skipWhiteSpace]. change (isJsonWhiteSpace 44) with false. cbv iota.
    change (44 =? 44)%N with true. cbv iota.
    replace (need x + (needElements (y :: items) + k))
      with (needElements (y :: items) + (need x + k)) by lia.
    unfold tail.
    now rewrite (IHr Hur (need x + k) indent (10%N :: indent) stepback rest
                     ltac:(discriminate) Hi (blank_line Hi) Hs).
Qed.

Lemma objectRead members : membersRead members -> valueRead (JObject members).
Proof.
  intros IH [Hnd Hu] k indent w rest Hi Hw Hr.
  destruct members as [|m members].
  - change (need (JObject []) + k) with (S k).
    rewrite parseValue_S. unfold readValue. now rewrite (skipWhiteSpace_blank _ Hw).
  - change (need (JObject (m :: members)) + k)
      with (S (needMembers (m :: members) + k)).
    rewrite parseValue_S, ser_JObject. unfold readValue.
    rewrite (skipWhiteSpace_blank _ Hw).
    set (I := indent ++ gap).
    assert (HI : blank I) by (apply blank_app; [exact Hi | exact blank_gap]).
    set (J := joinLines I (map (memberText I) (m :: members))).
    replace (([123%N; 10%N] ++ I ++ J ++ [10%N] ++ indent ++ [125%N]) ++ rest)
      with (123%N :: ((10%N :: I) ++ J ++ [10%N] ++ indent ++ [125%N] ++ rest))
      by (flatten_apps; reflexivity).
    cbn [skipWhiteSpace]. change (isJsonWhiteSpace 123) with false. cbv iota.
    change (123 =? 34)%N with false. change (123 =? 91)%N with false.
    change (123 =? 123)%N with true. cbv iota.
    rewrite (skipWhiteSpace_blank _ (blank_line HI)).
    assert (Hhead : exists t,
               skipWhiteSpace (J ++ [10%N] ++ indent ++ [125%N] ++ rest) = 34%N :: t).
    { unfold J. cbn [map]. rewrite joinLines_cons. unfold memberText at 1.
      unfold QuoteJSONString. flatten_apps. eexists. reflexivity. }
    destruct Hhead as (t & E1). rewrite E1.
    change (34 =? 125)%N with false. cbv iota. unfold J.
    rewrite (IH Hu k I (10%N :: I) indent rest ltac:(discriminate)
                HI (blank_line HI) Hi).
    now rewrite (assemble_unique _ Hnd).
Qed.

Lemma membersRead_cons key v members :
  valueRead v -> membersRead members -> membersRead ((key, v) :: members).
Proof.
  intros IHv IHr [Huv Hur] k indent w stepback rest _ Hi Hw Hs.
  change (needMembers ((key, v) :: members) + k)
    with (S (need v + needMembers members + k)).
  rewrite parseMembers_S. unfold readMembers.
  rewrite (skipWhiteSpace_blank _ Hw).
  destruct members as [|m members].
  - change (joinLines indent (map (memberText indent) [(key, v)]))
      with (QuoteJSONString key ++ [58%N; 32%N] ++ ser indent v).
    unfold QuoteJSONString.
    replace (((34%N :: quoteUnits key ++ [34%N]) ++ [58%N; 32%N] ++ ser indent v)
               ++ [10%N] ++ stepback ++ [125%N] ++ rest)
      with (34%N :: (quoteUnits key ++ [34%N]
                       ++ 58%N :: ([32%N] ++ ser indent v
                                     ++ [10%N] ++ stepback ++ [125%N] ++ rest)))
      by (flatten_apps; reflexivity).
    cbn [skipWhiteSpace]. change (isJsonWhiteSpace 34) with false. cbv iota.
    change (34 =? 34)%N with true. cbv iota.
    rewrite parseString_QuoteJSONString.
    cbn [skipWhiteSpace]. change (isJsonWhiteSpace 58) with false. cbv iota.
    change (58 =? 58)%N with true. cbv iota.
    replace (need v + needMembers [] + k) with (need v + k) by (cbn; lia).
    rewrite (IHv Huv k indent [32%N] ([10%N] ++ stepback ++ [125%N] ++ rest)
                 Hi eq_refl eq_refl).
    replace ([10%N] ++ stepback ++ [125%N] ++ rest)
      with ((10%N :: stepback) ++ 125%N :: rest) by reflexivity.
    rewrite (skipWhiteSpace_blank _ (blank_line Hs)).
    reflexivity.
  - set (tail := joinLines indent (map (memberText indent) (m :: members))).
    change (joinLines indent (map (memberText indent) ((key, v) :: m :: members)))
      with ((QuoteJSONString key ++ [58%N; 32%N] ++ ser indent v)
              ++ [44%N; 10%N] ++ indent ++ tail).
    unfold QuoteJSONString.
    replace ((((34%N :: quoteUnits key ++ [34%N]) ++ [58%N; 32%N] ++ ser indent v)
                ++ [44%N; 10%N] ++ indent ++ tail)
               ++ [10%N] ++ stepback ++ [125%N] ++ rest)
      with (34%N :: (quoteUnits key ++ [34%N]
                       ++ 58%N :: ([32%N] ++ ser indent v
                                     ++ 44%N :: ((10%N :: indent) ++ tail
                                                   ++ [10%N] ++ stepback
                                                   ++ [125%N] ++ rest))))
      by (flatten_apps; reflexivity).
    cbn [skipWhiteSpace]. change (isJsonWhiteSpace 34) with false. cbv iota.
    change (34 =? 34)%N with true. cbv iota.
    rewrite parseString_QuoteJSONString.
    cbn [skipWhiteSpace]. change (isJsonWhiteSpace 58) with false. cbv iota.
    change (58 =? 58)%N with true. cbv iota.
    replace (need v + needMembers (m :: members) + k)
      with (need v + (needMembers (m :: members) + k)) by lia.
    rewrite (IHv Huv _ indent [32%N]
                 (44%N :: ((10%N :: indent) ++ tail
                             ++ [10%N] ++ stepback ++ [125%N] ++ rest))
                 Hi eq_refl eq_refl).
    cbn [skipWhiteSpace]. change (isJsonWhiteSpace 44) with false. cbv iota.
    change (44 =? 44)%N with true. cbv iota.
    replace (need v + (needMembers (m :: members) + k))
      with (needMembers (m :: members) + (need v + k)) by lia.
    unfold tail.
    now rewrite (IHr Hur (need v + k) indent (10%N :: indent) stepback rest
                     ltac:(discriminate) Hi (blank_line Hi) Hs).
Qed.

(** Every value without a repeated key is read back from its text. *)
Lemma parseValue_serialized : forall v, valueRead v.
Proof.
  apply (json_ind3 valueRead elementsRead membersRead).
  - intros _ k indent w rest Hi Hw Hr. now apply parseValue_atom.
  - intros b _ k indent w rest Hi Hw Hr. now apply parseValue_atom.
  - intros n _ k indent w rest Hi Hw Hr. now apply parseValue_atom.
  - intros s _ k indent w rest Hi Hw Hr. now apply parseValue_atom.
  - exact arrayRead.
  - exact objectRead.
  - intros _ k indent w stepback rest H. now elim H.
  - exact elementsRead_cons.
  - intros _ k indent w stepback rest H. now elim H.
  - exact membersRead_cons.
Qed.

(** The text of a value is at least as long as the fuel it takes. *)
Lemma need_le_length : forall v indent, need v <= List.length (ser indent v).
Proof.
  apply (json_ind3
           (fun v => forall indent, need v <= List.length (ser indent v))
           (fun items =>
              forall indent I,
                needElements items
                <= List.length (joinLines I (map (ser indent) items)) + 1)
           (fun members =>
              forall indent I,
                needMembers members
                <= List.length (joinLines I (map (memberText indent) members)) + 1)).
  - intros indent. cbn. lia.
  - intros [|] indent; cbn; lia.
  - intros n indent. cbn [need SerializeJSONProperty].
    pose proof (numberToString_shape n) as H.
    destruct (numberToString n); [contradiction | cbn; lia].
  - intros s indent. cbn [need SerializeJSONProperty]. unfold QuoteJSONString.
    cbn [List.length]. lia.
  - intros [|x items] IH indent; [cbn; lia|].
    rewrite ser_JArray. change (need (JArray (x :: items)))
      with (S (needElements (x :: items))).
    specialize (IH (indent ++ gap) (indent ++ gap)).
    rewrite !length_app. cbn [List.length]. lia.
  - intros [|m members] IH indent; [cbn; lia|].
    rewrite ser_JObject. change (need (JObject (m :: members)))
      with (S (needMembers (m :: members))).
    specialize (IH (indent ++ gap) (indent ++ gap)).
    rewrite !length_app. cbn [List.length]. lia.
  - intros indent I. cbn. lia.
  - intros x items IHx IHr indent I.
    change (needElements (x :: items)) with (S (need x + needElements items)).
    specialize (IHx indent). specialize (IHr indent I).
    destruct items as [|y items].
    + change (joinLines I (map (ser indent) [x])) with (ser indent x). cbn. lia.
    + change (joinLines I (map (ser indent) (x :: y :: items)))
        with (ser indent x ++ [44%N; 10%N] ++ I
                ++ joinLines I (map (ser indent) (y :: items))).
      rewrite !length_app. cbn [List.length]. lia.
  - intros indent I. cbn. lia.
  - intros key v members IHv IHr indent I.
    change (needMembers ((key, v) :: members))
      with (S (need v + needMembers members)).
    specialize (IHv indent). specialize (IHr indent I).
    destruct members as [|m members].
    + change (joinLines I (map (memberText indent) [(key, v)]))
        with (QuoteJSONString key ++ [58%N; 32%N] ++ ser indent v).
      rewrite !length_app. cbn. lia.
    + change (joinLines I (map (memberText indent) ((key, v) :: m :: members)))
        with ((QuoteJSONString key ++ [58%N; 32%N] ++ ser indent v)
                ++ [44%N; 10%N] ++ I
                ++ joinLines I (map (memberText indent) (m :: members))).
      rewrite !length_app. cbn [List.length]. lia.
Qed.

(** [JSON.parse(JSON.stringify(v, null, 2))] is [v]. *)
Lemma parse_stringify v :
  uniqueKeys v -> parse parseNumber (stringify numberToString v) = Some v.
Proof.
  intros Hu. unfold parse, stringify.
  pose proof (need_le_length v []) as Hn.
  replace (S (List.length (ser [] v)))
    with (need v + (S (List.length (ser [] v)) - need v)) by lia.
  pose proof (parseValue_serialized v Hu) as H.
  specialize (H (S (List.length (ser [] v)) - need v) [] [] []
                eq_refl eq_refl Logic.I).
  cbn [app] in H. rewrite app_nil_r in H. now rewrite H.
Qed.

End RoundTrip.

End JsonFacts.

(* ================================================================== *)
(** * The event log read back from its export *)
(* ================================================================== *)

Module NaturalFacts.
Import JsonText JsonFacts.

Lemma unlit_lit s : string_of_list_ascii (map ascii_of_N (JS.lit s)) = s.
Proof.
  unfold JS.lit. rewrite map_map.
  rewrite (map_ext _ (fun a => a)) by apply ascii_N_embedding.
  rewrite map_id. apply string_of_list_ascii_of_string.
Qed.

Lemma parseNatural_toString n : JS.parseNatural (JS.toString n) = Some n.
Proof.
  unfold JS.parseNatural, JS.toString. rewrite unlit_lit.
  rewrite DecimalString.NilEmpty.usu. cbn [option_map].
  now rewrite DecimalN.Unsigned.of_to.
Qed.

Lemma digits_of_uint d :
  forallb isDigit (JS.lit (DecimalString.NilEmpty.string_of_uint d)) = true.
Proof. induction d; cbn; try reflexivity; exact IHd. Qed.

Lemma toString_shape n : numberText (JS.toString n).
Proof.
  pose proof (StoreFacts.toString_nonempty n) as Hne.
  pose proof (digits_of_uint (N.to_uint n)) as Hd.
  unfold JS.toString in *.
  destruct (JS.lit _) as [|c t]; [congruence|].
  cbn [forallb] in Hd. apply andb_true_iff in Hd as [Hc Ht].
  split; [now rewrite Hc|].
  cbn [forallb]. unfold isNumberChar at 1. rewrite Hc. cbn [orb].
  clear -Ht. induction t as [|a t IH]; [reflexivity|].
  cbn [forallb] in *. apply andb_true_iff in Ht as [Ha Ht].
  unfold isNumberChar at 1. rewrite Ha. cbn [orb andb]. now apply IH.
Qed.

End NaturalFacts.

Section LogRoundTrip.
Import Json JsonText JsonFacts EventLog.
Variable number : Type.
Variable numberToString : number -> jsstring.
Variable parseNumber : jsstring -> option number.
Hypothesis numberToString_shape : forall n, numberText (numberToString n).
Hypothesis parseNumber_numberToString :
  forall n, parseNumber (numberToString n) = Some n.

Lemma toObject_uniqueKeys (e : EventLogEntry number) : uniqueKeys (toObject e).
Proof.
  destruct e as [t ty [v|] [k|] [[cx cy]|]]; cbn;
    repeat split;
    repeat (constructor; [cbn; intuition discriminate|]); constructor.
Qed.

Lemma log_uniqueKeys (entries : list (EventLogEntry number)) :
  uniqueKeys (JArray (map (@toObject number) entries)).
Proof.
  cbn [uniqueKeys]. induction entries as [|e r IH]; [exact Logic.I|].
  cbn [map fold_right]. split; [apply toObject_uniqueKeys | exact IH].
Qed.

Lemma typeTag_injective t1 t2 : typeTag t1 = typeTag t2 -> t1 = t2.
Proof. destruct t1, t2; intros H; try reflexivity; discriminate H. Qed.

Lemma toObject_injective (e1 e2 : EventLogEntry number) :
  toObject e1 = toObject e2 -> e1 = e2.
Proof.
  destruct e1 as [t1 ty1 v1 k1 c1], e2 as [t2 ty2 v2 k2 c2].
  unfold toObject. cbn [timestamp type value key coords].
  intros H. injection H as Ht Hty H. apply typeTag_injective in Hty. subst.
  destruct v1 as [v1|], v2 as [v2|], k1 as [k1|], k2 as [k2|],
           c1 as [[x1 y1]|], c2 as [[x2 y2]|];
    cbn in H; try discriminate H; try reflexivity;
    injection H; intros; subst; reflexivity.
Qed.

(** C9.  Whatever events were logged, parsing the export gives back the
    array of the logged records: as many, in the same order, and with the
    same fields and values (a record is determined by its object).  The
    numbers are printed by [Number::toString] and read back by the number
    reader of [JSON.parse], which are taken to invert each other on the
    finite numbers that time stamps and coordinates are. *)
Theorem export_then_parse_gives_the_log :
  forall s : EventLog.state number,
    parse parseNumber (exportLog numberToString s)
    = Some (JArray (map (@toObject number) (events s)))
    /\ List.length (map (@toObject number) (events s)) = List.length (events s)
    /\ (forall e1 e2 : EventLogEntry number, toObject e1 = toObject e2 -> e1 = e2)
    /\ (forall e, events (logEvent e s) = events s ++ [e]).
Proof.
  intros s. split; [|split; [|split]].
  - unfold exportLog.
    apply (parse_stringify numberToString parseNumber
             numberToString_shape parseNumber_numberToString).
    apply log_uniqueKeys.
  - apply length_map.
  - exact toObject_injective.
  - reflexivity.
Qed.

End LogRoundTrip.

Section LogExamples.
Import Json JsonText EventLog.


Lemma export_then_parse_gives_the_log_witness :
  parse JS.parseNatural (exportLog JS.toString sampleLog)
  = Some (JArray (map (@toObject N) (events sampleLog)))
  /\ List.length (events sampleLog) = 3.
Proof.
  split; [|reflexivity].
  exact (proj1 (export_then_parse_gives_the_log
                  JS.toString JS.parseNatural
                  NaturalFacts.toString_shape NaturalFacts.parseNatural_toString
                  sampleLog)).
Defined.

End LogExamples.

(* ================================================================== *)
(** * The endpoint: every way through the handler *)
(* ================================================================== *)

Module HandlerFacts.
Import Json Api.

Section Cases.
Variable number : Type.
Variable numberTruthy : number -> bool.
Variable stringify : json number -> jsstring.
Variable typeErrorMessage : jsstring.

Local Abbreviation handler := (Api.handler numberTruthy stringify typeErrorMessage).

(** The five ways through the handler. *)
Lemma handler_cases (env : environment number) (req : request number) :
  (method req <> JS.lit "POST"
   /\ handler env req = (Sent 405 (Error (JS.lit "Method not allowed") None), []))
  \/ (method req = JS.lit "POST"
      /\ member (JS.lit "text") (body req) = None
      /\ handler env req = (Uncaught, []))
  \/ (exists text,
         method req = JS.lit "POST"
         /\ member (JS.lit "text") (body req) = Some text
         /\ rejects text = true
         /\ handler env req = (Sent 400 invalidInput, []))
  \/ (exists text,
         method req = JS.lit "POST"
         /\ member (JS.lit "text") (body req) = Some (Some (JString text))
         /\ rejects (Some (@JString number text)) = false
         /\ (GEMINI_API_KEY env = None \/ GEMINI_API_KEY env = Some [])
         /\ handler env req
            = (Sent 500 (Error (JS.lit "Server configuration error")
                               (Some (JS.lit "API key is missing"))), []))
  \/ (exists text apiKey,
         method req = JS.lit "POST"
         /\ member (JS.lit "text") (body req) = Some (Some (JString text))
         /\ rejects (Some (@JString number text)) = false
         /\ GEMINI_API_KEY env = Some apiKey
         /\ JS.truthy apiKey = true
         /\ snd (handler env req) = [(endpoint ++ apiKey, text)]
         /\ ((exists message,
                 fst (handler env req)
                 = Sent 500 (Error (JS.lit "Failed to generate questions")
                                   (Some message)))
             \/ (exists status details,
                    ok status = false
                    /\ fst (handler env req)
                       = Sent status (Error (JS.lit "Gemini API error") (Some details)))
             \/ (exists data recovered,
                    extract numberTruthy data = Some recovered
                    /\ fst (handler env req)
                       = Sent 200 (Questions (firstn 3 (padLoop 3 recovered)))))).
Proof.
  unfold Api.handler.
  destruct (JS.eqb (method req) (JS.lit "POST")) eqn:Em; cbn [negb].
  2:{ left. split; [|reflexivity]. intros H. rewrite H in Em.
      now rewrite MarkerFacts.eqb_refl in Em. }
  apply MarkerFacts.eqb_eq in Em. right.
  destruct (member (JS.lit "text") (body req)) as [text|] eqn:Et.
  2:{ left. now repeat split. }
  right.
  destruct (rejects text) eqn:Er.
  { left. exists text. now repeat split. }
  right.
  destruct text as [[| | |s| |]|]; try discriminate Er.
  destruct (GEMINI_API_KEY env) as [apiKey|] eqn:Ek.
  2:{ left. exists s. repeat split; auto. }
  destruct (JS.truthy apiKey) eqn:Ea.
  2:{ left. exists s. destruct apiKey; [|discriminate Ea]. repeat split; auto. }
  right. exists s, apiKey. repeat split; auto.
  destruct (fetch env (endpoint ++ apiKey) s) as [m|status statusText js]; cbn [fst].
  - left. now exists m.
  - destruct (ok status) eqn:Eo; cbn [negb].
    + destruct js as [data|m]; [|left; now exists m].
      destruct (extract numberTruthy data) as [recovered|] eqn:Ee.
      * right. right. now exists data, recovered.
      * left. now eexists.
    + right. left. destruct js as [data|m]; eexists _, _; split; eauto.
Qed.

End Cases.
End HandlerFacts.

(* ================================================================== *)
(** * Trimming *)
(* ================================================================== *)

Module TrimFacts.

Lemma trimStart_suffix s : exists pre, s = pre ++ JS.trimStart s.
Proof.
  induction s as [|c r [pre IH]]; [now exists []|].
  cbn [JS.trimStart]. destruct (JS.isWhiteSpace c).
  - exists (c :: pre). cbn. now rewrite <- IH.
  - now exists [].
Qed.

Lemma trimStart_length s : List.length (JS.trimStart s) <= List.length s.
Proof.
  destruct (trimStart_suffix s) as [pre H]. rewrite H at 2.
  rewrite length_app. lia.
Qed.

Lemma trimStart_head c r : JS.trimStart (c :: r) = c :: r -> JS.isWhiteSpace c = false.
Proof.
  cbn [JS.trimStart]. destruct (JS.isWhiteSpace c); [|reflexivity].
  intros H. pose proof (trimStart_length r) as L. rewrite H in L. cbn in L. lia.
Qed.

Lemma trimStart_keeps c r : JS.isWhiteSpace c = false -> JS.trimStart (c :: r) = c :: r.
Proof. cbn [JS.trimStart]. now intros ->. Qed.

Lemma trimStart_idempotent s : JS.trimStart (JS.trimStart s) = JS.trimStart s.
Proof.
  induction s as [|c r IH]; [reflexivity|].
  cbn [JS.trimStart]. destruct (JS.isWhiteSpace c) eqn:E; [exact IH|].
  cbn [JS.trimStart]. now rewrite E.
Qed.

Lemma trimEnd_idempotent s : JS.trimEnd (JS.trimEnd s) = JS.trimEnd s.
Proof. unfold JS.trimEnd. now rewrite rev_involutive, trimStart_idempotent. Qed.

(** A string without white space at its end has none at the end of its
    non-empty suffixes. *)
Lemma trimEnd_suffix pre q :
  q <> [] -> JS.trimEnd (pre ++ q) = pre ++ q -> JS.trimEnd q = q.
Proof.
  intros Hq H. unfold JS.trimEnd in *.
  apply (f_equal (@rev N)) in H. rewrite rev_involutive, rev_app_distr in H.
  destruct (rev q) as [|c r] eqn:E.
  - apply (f_equal (@rev N)) in E. rewrite rev_involutive in E. now elim Hq.
  - cbn [app] in H. apply trimStart_head in H.
    rewrite trimStart_keeps by exact H. rewrite <- E. apply rev_involutive.
Qed.

(** What [line.trim().replace(/^Q:\s*/, '')] leaves, when it leaves
    something, has no white space at either end. *)
Lemma stripped_is_trimmed line :
  let q := JS.trimStart (skipn 2 (JS.trim line)) in
  q <> [] -> JS.trim q = q.
Proof.
  cbv zeta. intros Hq. unfold JS.trim at 1. rewrite trimStart_idempotent.
  destruct (trimStart_suffix (skipn 2 (JS.trim line))) as [pre Hp].
  apply (@trimEnd_suffix (firstn 2 (JS.trim line) ++ pre)); [exact Hq|].
  rewrite <- app_assoc, <- Hp, firstn_skipn.
  unfold JS.trim. apply trimEnd_idempotent.
Qed.

Lemma truthy_nonempty s : JS.truthy s = true <-> s <> [].
Proof. destruct s; split; intros H; try reflexivity; try discriminate; now elim H. Qed.

End TrimFacts.

(* ================================================================== *)
(** * The endpoint: its answers, its upstream call, its questions *)
(* ================================================================== *)

Section EndpointAnswers.
Import Json Api.
Variable number : Type.
Variable numberTruthy : number -> bool.
Variable stringify : json number -> jsstring.
Variable typeErrorMessage : jsstring.

Local Abbreviation handler := (Api.handler numberTruthy stringify typeErrorMessage).

Lemma member_none (name : jsstring) (v : value number) :
  member name v = None <-> v = None \/ v = Some JNull.
Proof.
  destruct v as [[]|]; cbn; split; intros H; try discriminate; auto;
    destruct H as [H|H]; discriminate H.
Qed.

(** X1.  An exception leaves the handler only for a POST whose body is
    [undefined] or [null].  Of the answers it sends, 200 is the only status
    in the success range, the answers with status 200 are exactly those that
    carry questions, and every other answer carries an error text that is
    not empty. *)
Theorem handler_answer_table :
  forall (env : environment number) (req : request number),
    (fst (handler env req) = Uncaught
     <-> method req = JS.lit "POST" /\ (body req = None \/ body req = Some JNull))
    /\ (forall status payload,
           fst (handler env req) = Sent status payload ->
           ((exists questions, payload = Questions questions) <-> status = 200%N)
           /\ (ok status = true -> status = 200%N)
           /\ (forall error details,
                  payload = Error error details -> JS.truthy error = true)).
Proof.
  intros env req.
  destruct (HandlerFacts.handler_cases numberTruthy stringify typeErrorMessage env req)
    as [(Hm & E) | [(Hm & Ht & E) | [(text & Hm & Ht & Hr & E)
       | [(text & Hm & Ht & Hr & Hk & E)
       | (text & key & Hm & Ht & Hr & Hk & Ha & Ec & E)]]]].
  - rewrite E. cbn [fst]. split.
    + split; [discriminate | intros [H _]; contradiction].
    + intros status payload H. injection H as <- <-.
      repeat split; try discriminate.
      * intros [q H]; discriminate H.
      * intros error details H. now injection H as <- _.
  - rewrite E. cbn [fst]. split.
    + split; [|reflexivity]. intros _. split; [exact Hm|].
      now apply member_none in Ht.
    + discriminate.
  - rewrite E. cbn [fst]. split.
    + split; [discriminate|]. intros [_ H]. apply (member_none (JS.lit "text")) in H.
      congruence.
    + intros status payload H. injection H as <- <-.
      repeat split; try discriminate.
      * intros [q H]; discriminate H.
      * intros error details H. now injection H as <- _.
  - rewrite E. cbn [fst]. split.
    + split; [discriminate|]. intros [_ H]. apply (member_none (JS.lit "text")) in H.
      congruence.
    + intros status payload H. injection H as <- <-.
      repeat split; try discriminate.
      * intros [q H]; discriminate H.
      * intros error details H. now injection H as <- _.
  - split.
    + split.
      * intros H. destruct E as [(m & E) | [(st & d & _ & E) | (dt & rc & _ & E)]];
          rewrite E in H; discriminate H.
      * intros [_ H]. apply (member_none (JS.lit "text")) in H. congruence.
    + intros status payload H.
      destruct E as [(m & E) | [(st & d & Ho & E) | (dt & rc & _ & E)]];
        rewrite E in H; injection H as <- <-.
      * repeat split; try discriminate.
        -- intros [q H]; discriminate H.
        -- intros error details H. now injection H as <- _.
      * repeat split.
        -- intros [q H]; discriminate H.
        -- intros ->. discriminate Ho.
        -- congruence.
        -- intros error details H. now injection H as <- _.
      * repeat split; try discriminate. intros _. now eexists.
Qed.

(** X2.  The handler calls the model at most once, and only for a POST
    whose [text] is a string of at least 30 characters once trimmed, with an
    API key that is set: the call goes to the endpoint followed by the key,
    for that text.  Under these conditions the call is always made. *)
Theorem upstream_call_only_for_a_valid_text :
  (forall (env : environment number) (req : request number) url prompt,
      In (url, prompt) (snd (handler env req)) ->
      snd (handler env req) = [(url, prompt)]
      /\ method req = JS.lit "POST"
      /\ member (JS.lit "text") (body req) = Some (Some (JString prompt))
      /\ JS.truthy prompt = true
      /\ (30 <= JS.length (JS.trim prompt))%N
      /\ exists apiKey,
          GEMINI_API_KEY env = Some apiKey /\ JS.truthy apiKey = true
          /\ url = endpoint ++ apiKey)
  /\ (forall (env : environment number) (req : request number) text apiKey,
         method req = JS.lit "POST" ->
         member (JS.lit "text") (body req) = Some (Some (JString text)) ->
         JS.truthy text = true ->
         (30 <= JS.length (JS.trim text))%N ->
         GEMINI_API_KEY env = Some apiKey ->
         JS.truthy apiKey = true ->
         snd (handler env req) = [(endpoint ++ apiKey, text)]).
Proof.
  split.
  - intros env req url prompt Hin.
    destruct (HandlerFacts.handler_cases numberTruthy stringify typeErrorMessage env req)
      as [(Hm & E) | [(Hm & Ht & E) | [(text & Hm & Ht & Hr & E)
         | [(text & Hm & Ht & Hr & Hk & E)
         | (text & key & Hm & Ht & Hr & Hk & Ha & Ec & E)]]]];
      try (rewrite E in Hin; now elim Hin).
    rewrite Ec in Hin. destruct Hin as [Hin | []]. injection Hin as <- <-.
    split; [exact Ec|]. split; [exact Hm|]. split; [exact Ht|].
    unfold rejects in Hr. apply orb_false_iff in Hr as [H1 H2].
    apply negb_false_iff in H1. apply N.ltb_ge in H2.
    split; [exact H1|]. split; [exact H2|]. now exists key.
  - intros env req text apiKey Hm Ht H1 H2 Hk Ha.
    destruct (HandlerFacts.handler_cases numberTruthy stringify typeErrorMessage env req)
      as [(Hm' & E) | [(_ & Ht' & E) | [(text' & _ & Ht' & Hr & E)
         | [(text' & _ & Ht' & Hr & Hk' & E)
         | (text' & key & _ & Ht' & Hr & Hk' & Ha' & Ec & E)]]]].
    + contradiction.
    + congruence.
    + exfalso. rewrite Ht in Ht'. injection Ht' as <-.
      unfold rejects in Hr. rewrite H1 in Hr. apply N.ltb_ge in H2.
      rewrite H2 in Hr. discriminate Hr.
    + exfalso. rewrite Hk in Hk'. destruct Hk' as [H | H]; [discriminate H|].
      injection H as ->. discriminate Ha.
    + rewrite Ht in Ht'. injection Ht' as <-. rewrite Hk in Hk'.
      injection Hk' as <-. exact Ec.
Qed.

Lemma markedLines_clean responseText q :
  In q (markedLines responseText) -> JS.truthy q = true /\ JS.trim q = q.
Proof.
  unfold markedLines. intros H. apply filter_In in H as [H Hq].
  split; [exact Hq|].
  apply in_map_iff in H as (line & <- & H). apply filter_In in H as [_ Hs].
  unfold stripMarker in *. rewrite Hs in *.
  apply TrimFacts.stripped_is_trimmed. now apply TrimFacts.truthy_nonempty.
Qed.

Lemma extract_clean data recovered q :
  extract numberTruthy data = Some recovered -> In q recovered ->
  JS.truthy q = true /\ JS.trim q = q.
Proof.
  unfold extract. destruct (member _ (Some data)) as [candidates|]; [|discriminate].
  destruct (_ && _).
  - destruct (item0 _) as [part|]; [|discriminate].
    destruct (member _ part) as [[[| | |responseText| |]|]|]; try discriminate.
    intros H. injection H as <-. apply markedLines_clean.
  - intros H. injection H as <-. intros [].
Qed.

(** X3.  Every question of a 200 answer is a non-empty string with no white
    space at its start or at its end. *)
Theorem questions_are_trimmed_and_not_empty :
  forall (env : environment number) (req : request number) questions q,
    fst (handler env req) = Sent 200 (Questions questions) ->
    In q questions ->
    JS.truthy q = true /\ JS.trim q = q.
Proof.
  intros env req questions q H Hin.
  destruct (HandlerFacts.handler_cases numberTruthy stringify typeErrorMessage env req)
    as [(Hm & E) | [(Hm & Ht & E) | [(text & Hm & Ht & Hr & E)
       | [(text & Hm & Ht & Hr & Hk & E)
       | (text & key & Hm & Ht & Hr & Hk & Ha & Ec & E)]]]];
    try (rewrite E in H; discriminate H).
  destruct E as [(m & E) | [(st & d & Ho & E) | (dt & rc & He & E)]];
    rewrite E in H; try discriminate H.
  injection H as <-.
  assert (Hin' : In q (padLoop 3 rc)).
  { rewrite <- (firstn_skipn 3). apply in_or_app. now left. }
  clear Hin. rename Hin' into Hin.
  assert (Hp : padLoop 3 rc = rc ++ repeat defaultQuestion (3 - List.length rc)).
  { destruct rc as [|a [|b [|c r]]]; cbn; try reflexivity. now rewrite app_nil_r. }
  rewrite Hp in Hin. apply in_app_or in Hin as [Hin | Hin].
  - exact (extract_clean _ _ He Hin).
  - apply repeat_spec in Hin. subst q. split; reflexivity.
Qed.

(** X4.  What the handler makes of a reply of the model that lacks the
    expected parts: a JSON object without [candidates] is answered 200 with
    three default questions, and the JSON value [null] is answered 500, with
    the message of the [TypeError] as details. *)
Theorem reply_without_candidates :
  forall (env : environment number) (req : request number) text apiKey
         status statusText data,
    method req = JS.lit "POST" ->
    member (JS.lit "text") (body req) = Some (Some (JString text)) ->
    JS.truthy text = true ->
    (30 <= JS.length (JS.trim text))%N ->
    GEMINI_API_KEY env = Some apiKey ->
    JS.truthy apiKey = true ->
    fetch env (endpoint ++ apiKey) text = Response status statusText (Parsed data) ->
    ok status = true ->
    ((exists members,
         data = JObject members /\ lookup (JS.lit "candidates") members = None) ->
     fst (handler env req)
     = Sent 200 (Questions [defaultQuestion; defaultQuestion; defaultQuestion]))
    /\ (data = JNull ->
        fst (handler env req)
        = Sent 500 (Error (JS.lit "Failed to generate questions")
                          (Some typeErrorMessage))).
Proof.
  intros env req text apiKey status statusText data Hm Ht H1 H2 Hk Ha Hf Ho.
  assert (E : fst (handler env req)
              = match extract numberTruthy data with
                | Some questions => Sent 200 (Questions (firstn 3 (padLoop 3 questions)))
                | None => Sent 500 (Error (JS.lit "Failed to generate questions")
                                          (Some typeErrorMessage))
                end).
  { unfold Api.handler. rewrite Hm, MarkerFacts.eqb_refl, Ht. cbn [negb].
    unfold rejects. rewrite H1. apply N.ltb_ge in H2. rewrite H2. cbn [negb orb].
    rewrite Hk, Ha, Hf, Ho. cbn [negb fst].
    now destruct (extract numberTruthy data). }
  split.
  - intros (members & -> & Hc). rewrite E. unfold extract. cbn [member].
    rewrite Hc. reflexivity.
  - intros ->. rewrite E. reflexivity.
Qed.

End EndpointAnswers.

(* ================================================================== *)
(** * The question client and the endpoint together *)
(* ================================================================== *)

Section ClientAndEndpoint.
Import Json Api.
Variable number : Type.
Variable numberTruthy : number -> bool.
Variable stringify : json number -> jsstring.
Variable typeErrorMessage : jsstring.
Variable numberToString : number -> jsstring.
Variable nullMessage : jsstring -> jsstring.
Variable primitiveMessage : jsstring.
Variable innerText : list Dom.node -> jsstring.

Local Abbreviation handler := (Api.handler numberTruthy stringify typeErrorMessage).
Local Abbreviation settle :=
  (Client.settle numberTruthy numberToString nullMessage primitiveMessage).

(** An answer that carries an error has a status outside the success range
    and an error text that is not empty. *)
Lemma error_answers (env : environment number) (req : request number)
      status error details :
  fst (handler env req) = Sent status (Error error details) ->
  ok status = false /\ JS.truthy error = true.
Proof.
  intros H.
  destruct (HandlerFacts.handler_cases numberTruthy stringify typeErrorMessage env req)
    as [(Hm & E) | [(Hm & Ht & E) | [(text & Hm & Ht & Hr & E)
       | [(text & Hm & Ht & Hr & Hk & E)
       | (text & key & Hm & Ht & Hr & Hk & Ha & Ec & E)]]]];
    try (rewrite E in H; cbn [fst] in H; try discriminate H;
         injection H as <- <- _; split; reflexivity).
  destruct E as [(m & E) | [(st & d & Ho & E) | (dt & rc & _ & E)]];
    rewrite E in H; try discriminate H.
  - injection H as <- <- _. split; reflexivity.
  - injection H as <- <- _. split; [exact Ho | reflexivity].
Qed.

Lemma three_questions (env : environment number) (req : request number) questions :
  fst (handler env req) = Sent 200 (Questions questions) ->
  exists q1 q2 q3, questions = [q1; q2; q3].
Proof.
  intros H.
  destruct (HandlerFacts.handler_cases numberTruthy stringify typeErrorMessage env req)
    as [(Hm & E) | [(Hm & Ht & E) | [(text & Hm & Ht & Hr & E)
       | [(text & Hm & Ht & Hr & Hk & E)
       | (text & key & Hm & Ht & Hr & Hk & Ha & Ec & E)]]]];
    try (rewrite E in H; discriminate H).
  destruct E as [(m & E) | [(st & d & Ho & E) | (dt & rc & _ & E)]];
    rewrite E in H; try discriminate H.
  injection H as <-.
  destruct rc as [|a [|b [|c r]]]; cbn; eauto.
Qed.

(** X5.  A request that the question client sends passes the endpoint's
    validation: the generation action posts to the endpoint's path, and for
    the text it posts the endpoint either reports the missing API key or
    calls the model once with that text. *)
Theorem client_request_passes_validation :
  forall (s : Editor.state) url text (env : environment number),
    In (Editor.Fetch url text) (snd (Editor.handleGenerateQuestions innerText s)) ->
    url = JS.lit "/api/generate-questions"
    /\ (handler env (Client.post number text)
        = (Sent 500 (Error (JS.lit "Server configuration error")
                           (Some (JS.lit "API key is missing"))), [])
        \/ exists apiKey,
            snd (handler env (Client.post number text)) = [(endpoint ++ apiKey, text)]).
Proof.
  intros s url text env. unfold Editor.handleGenerateQuestions.
  fold (documentText innerText s).
  destruct (JS.truthy (documentText innerText s)) eqn:Ht; cbn [negb orb].
  2:{ cbn. intros [H | []]. discriminate H. }
  destruct (JS.length (JS.trim (documentText innerText s)) <? 30)%N eqn:Hl; cbn [snd].
  { intros [H | []]. discriminate H. }
  intros [H | []]. injection H as <- <-. split; [reflexivity|].
  set (text := documentText innerText s) in *.
  assert (Hb : member (JS.lit "text") (body (Client.post number text))
               = Some (Some (JString text))) by reflexivity.
  assert (Hv : rejects (Some (@JString number text)) = false).
  { unfold rejects. now rewrite Ht, Hl. }
  destruct (HandlerFacts.handler_cases numberTruthy stringify typeErrorMessage env
              (Client.post number text))
    as [(Hm & E) | [(Hm & Ht' & E) | [(text' & Hm & Ht' & Hr & E)
       | [(text' & Hm & Ht' & Hr & Hk & E)
       | (text' & key & Hm & Ht' & Hr & Hk & Ha & Ec & E)]]]].
  - now elim Hm.
  - rewrite Hb in Ht'. discriminate Ht'.
  - rewrite Hb in Ht'. injection Ht' as <-. rewrite Hv in Hr. discriminate Hr.
  - left. exact E.
  - right. exists key. rewrite Hb in Ht'. injection Ht' as <-. exact Ec.
Qed.

(** X6.  When the endpoint answers 200, the client ends with exactly the
    three questions of the answer in the state, in their order, the one at
    index [i] under the id ["q-<Date.now()>-<i>"]; the busy flag is cleared
    and nothing is alerted. *)
Theorem served_questions_reach_the_state :
  forall (env : environment number) (req : request number) questions now
         (s : Editor.state),
    fst (handler env req) = Sent 200 (Questions questions) ->
    exists q1 q2 q3,
      questions = [q1; q2; q3]
      /\ option_map (fun c => Editor.generateQuestionsSettled c s)
           (Client.completion (settle now (Client.delivered number 200 (Questions questions))))
         = Some
             (Editor.setIsGeneratingQuestions false
                (Editor.setQuestions
                   [Question.Build
                      (JS.lit "q-" ++ JS.toString (now 0) ++ JS.lit "-0") q1;
                    Question.Build
                      (JS.lit "q-" ++ JS.toString (now 1) ++ JS.lit "-1") q2;
                    Question.Build
                      (JS.lit "q-" ++ JS.toString (now 2) ++ JS.lit "-2") q3]
                   s),
              []).
Proof.
  intros env req questions now s H.
  destruct (three_questions _ _ H) as (q1 & q2 & q3 & ->).
  exists q1, q2, q3. split; reflexivity.
Qed.

(** X7.  When the endpoint answers with an error, the client alerts
    ["Error: <error> - <details>"], or ["Error: <error>"] when the answer has
    no details or empty ones; the questions stay as they are and the busy
    flag is cleared. *)
Theorem served_error_reaches_the_user :
  forall (env : environment number) (req : request number) status error details now
         (s : Editor.state),
    fst (handler env req) = Sent status (Error error details) ->
    let message :=
      JS.lit "Error: " ++ error
        ++ match details with
           | Some d => if JS.truthy d then JS.lit " - " ++ d else []
           | None => []
           end in
    option_map (fun c => Editor.generateQuestionsSettled c s)
      (Client.completion
         (settle now (Client.delivered number status (Error error details))))
    = Some (Editor.setIsGeneratingQuestions false s, [Editor.Alert message]).
Proof.
  intros env req status error details now s H.
  destruct (error_answers _ _ H) as [Ho He]. cbv zeta.
  unfold Client.settle, Client.delivered. rewrite Ho. cbn [negb].
  destruct details as [d|].
  - change (Client.errorMessage numberTruthy numberToString nullMessage primitiveMessage
              (Client.payloadJson number (Error error (Some d))))
      with (if JS.truthy d
            then Client.Ok (JS.lit "Error: " ++ error ++ JS.lit " - " ++ d)
            else if JS.truthy error
                 then Client.Ok (JS.lit "Error: " ++ error)
                 else Client.Ok (JS.lit "Error: " ++ JS.lit "Failed to generate questions")).
    rewrite He. destruct (JS.truthy d); cbn [Client.completion option_map];
      unfold Editor.generateQuestionsSettled; repeat f_equal.
    now rewrite app_nil_r.
  - change (Client.errorMessage numberTruthy numberToString nullMessage primitiveMessage
              (Client.payloadJson number (Error error None)))
      with (if JS.truthy error
            then Client.Ok (JS.lit "Error: " ++ error)
            else Client.Ok (JS.lit "Error: " ++ JS.lit "Failed to generate questions")).
    rewrite He. cbn [Client.completion option_map].
    unfold Editor.generateQuestionsSettled. repeat f_equal.
    now rewrite app_nil_r.
Qed.

End ClientAndEndpoint.

(* ================================================================== *)
(** * The sampler of the editor: what the series hold *)
(* ================================================================== *)

Module SamplerFacts.
Import Dom Marker Editor.

Section Steps.
Variable innerText : list node -> jsstring.

(** What an event does to the counters and the series: a tick samples both
    counters, the clear action resets everything, and any other event
    leaves the series alone and lowers no counter. *)
Lemma step_sampler ev s :
  let s' := step innerText ev s in
  (ev = Tick
   /\ charSeries s' = charSeries s ++ [charAmount s]
   /\ backspaceSeries s' = backspaceSeries s ++ [backspaceAmount s]
   /\ charAmount s' = charAmount s /\ backspaceAmount s' = backspaceAmount s)
  \/ (ev = ClearDocument
      /\ charSeries s' = [] /\ backspaceSeries s' = []
      /\ charAmount s' = 0%N /\ backspaceAmount s' = 0%N)
  \/ (ev <> Tick /\ ev <> ClearDocument
      /\ charSeries s' = charSeries s /\ backspaceSeries s' = backspaceSeries s
      /\ (charAmount s <= charAmount s')%N
      /\ (backspaceAmount s <= backspaceAmount s')%N).
Proof.
  cbv zeta.
  destruct (CounterFacts.step_frame innerText ev s) as (A & B & C & D & _).
  rewrite A, B, C, D. clear A B C D.
  destruct ev; cbn [handle];
    try (right; right; split; [discriminate|]; split; [discriminate|]).
  - destruct clipboardData as [t|]; [|repeat split; apply N.le_refl].
    unfold handleEditorPaste. destruct (JS.truthy _); [|repeat split; apply N.le_refl].
    destruct sel as [| |[pth off]];
      try (destruct s; cbn; repeat split; apply N.le_refl).
    destruct (insertNode _ _ _ _) as [[d b]|];
      destruct s; cbn; repeat split; apply N.le_refl.
  - unfold handleEditorInput.
    destruct (JS.eqb inputType _); [|destruct (JS.startsWith _ _)];
      destruct s; cbn; repeat split; lia.
  - destruct s; cbn; repeat split; apply N.le_refl.
  - destruct s; cbn; repeat split; apply N.le_refl.
  - destruct s; cbn; repeat split; apply N.le_refl.
  - unfold handleAddReference. destruct (_ || _); [repeat split; apply N.le_refl|].
    destruct s; cbn; repeat split; apply N.le_refl.
  - unfold handleRemoveReference. destruct (findSpanById _ _);
      destruct s; cbn; repeat split; apply N.le_refl.
  - right; left. now destruct s.
  - left. now destruct s.
  - unfold handleGenerateQuestions. destruct (_ || _);
      destruct s; cbn; repeat split; apply N.le_refl.
  - destruct c; destruct s; cbn; repeat split; apply N.le_refl.
  - destruct s; cbn; repeat split; apply N.le_refl.
  - repeat split; apply N.le_refl.
Qed.

Lemma run_cons ev evs s :
  run innerText (ev :: evs) s = run innerText evs (step innerText ev s).
Proof. reflexivity. Qed.

End Steps.

Lemma cumulative_nil current : cumulative [] current.
Proof.
  split.
  - intros i j a b _ H. destruct i; discriminate H.
  - intros a [].
Qed.

Lemma cumulative_raise series current current' :
  (current <= current')%N -> cumulative series current -> cumulative series current'.
Proof.
  intros Hle [H1 H2]. split; [exact H1|].
  intros a Ha. specialize (H2 a Ha). lia.
Qed.

Lemma cumulative_sample series current :
  cumulative series current -> cumulative (series ++ [current]) current.
Proof.
  intros [H1 H2]. split.
  - intros i j a b Hij Hi Hj.
    destruct (Nat.lt_ge_cases j (List.length series)) as [Hlt | Hge].
    + rewrite nth_error_app1 in Hi by lia. rewrite nth_error_app1 in Hj by lia.
      exact (H1 i j a b Hij Hi Hj).
    + rewrite nth_error_app2 in Hj by lia.
      assert (Hb : b = current).
      { destruct (j - List.length series) as [|k]; cbn in Hj; [congruence|].
        destruct k; discriminate Hj. }
      subst b.
      destruct (Nat.lt_ge_cases i (List.length series)) as [Hlt' | Hge'].
      * rewrite nth_error_app1 in Hi by lia.
        apply H2. now apply nth_error_In in Hi.
      * rewrite nth_error_app2 in Hi by lia.
        destruct (i - List.length series) as [|k]; cbn in Hi;
          [injection Hi as <-; apply N.le_refl|].
        destruct k; discriminate Hi.
  - intros a Ha. apply in_app_or in Ha as [Ha | [<- | []]];
      [now apply H2 | apply N.le_refl].
Qed.

End SamplerFacts.

Section Sampler.
Import Dom Editor.
Variable innerText : list node -> jsstring.

(** X8.  Each series holds one sample for each tick since the last clear
    action, so the two series have the same length after any events when
    they had before. *)
Theorem series_hold_one_sample_per_tick :
  forall evs s,
    List.length (charSeries (run innerText evs s))
    = samples evs (List.length (charSeries s))
    /\ List.length (backspaceSeries (run innerText evs s))
       = samples evs (List.length (backspaceSeries s))
    /\ (List.length (charSeries s) = List.length (backspaceSeries s) ->
        List.length (charSeries (run innerText evs s))
        = List.length (backspaceSeries (run innerText evs s))).
Proof.
  assert (H : forall evs s,
             List.length (charSeries (run innerText evs s))
             = samples evs (List.length (charSeries s))
             /\ List.length (backspaceSeries (run innerText evs s))
                = samples evs (List.length (backspaceSeries s))).
  { induction evs as [|ev evs IH]; intros s; [split; reflexivity|].
    rewrite SamplerFacts.run_cons. destruct (IH (step innerText ev s)) as [A B].
    rewrite A, B. clear A B IH.
    destruct (SamplerFacts.step_sampler innerText ev s)
      as [(-> & C & D & _) | [(-> & C & D & _) | (Ht & Hc & C & D & _)]];
      rewrite C, D.
    - rewrite !length_app. cbn [List.length samples]. now rewrite !Nat.add_1_r.
    - split; reflexivity.
    - destruct ev; try (split; reflexivity); congruence. }
  intros evs s. destruct (H evs s) as [A B]. split; [exact A|]. split; [exact B|].
  intros E. now rewrite A, B, E.
Qed.

(** X9.  Both series are cumulative: along any events, a series that did
    not decrease and stayed below its counter still does. *)
Theorem series_are_cumulative :
  forall evs s,
    cumulative (charSeries s) (charAmount s) ->
    cumulative (backspaceSeries s) (backspaceAmount s) ->
    cumulative (charSeries (run innerText evs s)) (charAmount (run innerText evs s))
    /\ cumulative (backspaceSeries (run innerText evs s))
                  (backspaceAmount (run innerText evs s)).
Proof.
  induction evs as [|ev evs IH]; intros s Hc Hb; [now split|].
  rewrite SamplerFacts.run_cons. apply IH; clear IH;
    destruct (SamplerFacts.step_sampler innerText ev s)
      as [(_ & C & D & A & B) | [(_ & C & D & A & B) | (_ & _ & C & D & A & B)]].
  - rewrite C, A. now apply SamplerFacts.cumulative_sample.
  - rewrite C, A. apply SamplerFacts.cumulative_nil.
  - rewrite C. exact (SamplerFacts.cumulative_raise A Hc).
  - rewrite D, B. now apply SamplerFacts.cumulative_sample.
  - rewrite D, B. apply SamplerFacts.cumulative_nil.
  - rewrite D. exact (SamplerFacts.cumulative_raise B Hb).
Qed.

End Sampler.

(* ================================================================== *)
(** * The CSV exports *)
(* ================================================================== *)

Module CsvFacts.

Lemma split_whole sep a : ~ In sep a -> JS.split sep a = [a].
Proof.
  induction a as [|c a IH]; intros H; [reflexivity|].
  cbn [JS.split]. destruct (N.eqb_spec c sep) as [->|Hc].
  - elim H. now left.
  - rewrite IH; [reflexivity|]. intros Ha. apply H. now right.
Qed.

Lemma split_app sep a b :
  ~ In sep a -> JS.split sep (a ++ sep :: b) = a :: JS.split sep b.
Proof.
  induction a as [|c a IH]; intros H.
  - cbn [app JS.split]. now rewrite N.eqb_refl.
  - cbn [app JS.split]. destruct (N.eqb_spec c sep) as [->|Hc].
    + elim H. now left.
    + rewrite IH; [reflexivity|]. intros Ha. apply H. now right.
Qed.

(** Cells joined by a separator they do not contain come apart again. *)
Lemma split_joinWith sep cell cells :
  (forall c, In c (cell :: cells) -> ~ In sep c) ->
  JS.split sep (ActivityPage.joinWith [sep] (cell :: cells)) = cell :: cells.
Proof.
  revert cell. induction cells as [|d cells IH]; intros cell H.
  - cbn. rewrite app_nil_r. apply split_whole. apply H. now left.
  - change (ActivityPage.joinWith [sep] (cell :: d :: cells))
      with (cell ++ sep :: ActivityPage.joinWith [sep] (d :: cells)).
    rewrite split_app by (apply H; now left).
    rewrite IH; [reflexivity|]. intros c Hc. apply H. now right.
Qed.

Lemma join_joinWith sep xs :
  Editor.join sep xs = ActivityPage.joinWith sep (map JS.toString xs).
Proof.
  destruct xs as [|x r]; [reflexivity|]. cbn. f_equal.
  induction r as [|y r IH]; [reflexivity|]. cbn. now rewrite IH.
Qed.

Lemma digit_not c x :
  JsonText.isDigit x = false -> forallb JsonText.isDigit c = true -> ~ In x c.
Proof.
  intros Hx Hc Hin. rewrite forallb_forall in Hc. specialize (Hc x Hin). congruence.
Qed.

Lemma toString_digits n : forallb JsonText.isDigit (JS.toString n) = true.
Proof. apply NaturalFacts.digits_of_uint. Qed.

Lemma joinWith_chars sep cells x :
  In x (ActivityPage.joinWith sep cells) ->
  In x sep \/ exists c, In c cells /\ In x c.
Proof.
  destruct cells as [|c r]; [intros []|]. cbn [ActivityPage.joinWith].
  intros H. apply in_app_or in H as [H | H].
  - right. exists c. split; [now left | exact H].
  - apply in_flat_map in H as (d & Hd & H). apply in_app_or in H as [H | H].
    + now left.
    + right. exists d. split; [now right | exact H].
Qed.

Lemma values_Some xs : values (map Some xs) = Some xs.
Proof. induction xs as [|x r IH]; [reflexivity|]. cbn. now rewrite IH. Qed.

(** A row of printed numbers reads back as the numbers. *)
Lemma readRow_row xs :
  readRow (ActivityPage.joinWith (JS.lit ",") (map JS.toString xs)) = Some xs.
Proof.
  destruct xs as [|x r]; [reflexivity|].
  unfold readRow.
  destruct (ActivityPage.joinWith _ _) as [|c row] eqn:E.
  - exfalso. cbn in E. apply app_eq_nil in E as [E _].
    exact (StoreFacts.toString_nonempty _ E).
  - rewrite <- E. change (JS.lit ",") with [44%N].
    cbn [map]. rewrite split_joinWith.
    + change (JS.toString x :: map JS.toString r) with (map JS.toString (x :: r)).
      rewrite map_map.
      rewrite (map_ext _ Some) by apply NaturalFacts.parseNatural_toString.
      apply values_Some.
    + intros cell Hc. change (In cell (map JS.toString (x :: r))) in Hc.
      apply in_map_iff in Hc as (n & <- & _).
      apply digit_not; [reflexivity | apply toString_digits].
Qed.

Lemma row_has_no_line_break xs :
  ~ In 10%N (ActivityPage.joinWith (JS.lit ",") (map JS.toString xs)).
Proof.
  intros H. apply joinWith_chars in H as [H | (c & Hc & H)].
  - destruct H as [H | []]. discriminate H.
  - apply in_map_iff in Hc as (n & <- & _). revert H.
    apply digit_not; [reflexivity | apply toString_digits].
Qed.

Lemma readCsv_rows xs ys :
  readCsv (ActivityPage.joinWith (JS.lit ",") (map JS.toString xs)
             ++ 10%N :: ActivityPage.joinWith (JS.lit ",") (map JS.toString ys))
  = Some (xs, ys).
Proof.
  unfold readCsv. rewrite split_app by apply row_has_no_line_break.
  rewrite split_whole by apply row_has_no_line_break.
  now rewrite !readRow_row.
Qed.

(** A series padded to its own length is the series, printed. *)
Lemma pad_whole arr :
  ActivityPage.pad (List.length arr) arr = map JS.toString arr.
Proof.
  apply nth_error_ext. intros i. unfold ActivityPage.pad.
  rewrite !nth_error_map, nth_error_seq. cbn [Nat.add].
  destruct (i <? List.length arr) eqn:Hi.
  - apply Nat.ltb_lt in Hi. cbn [option_map].
    destruct (nth_error arr i) eqn:E; [reflexivity|].
    apply nth_error_None in E. lia.
  - apply Nat.ltb_ge in Hi. apply nth_error_None in Hi. now rewrite Hi.
Qed.

End CsvFacts.

Section SeriesExport.
Import Editor.

(** X10.  The CSV export of the editor loses nothing: its text is two rows,
    and reading the numbers between the commas of the first and of the
    second row gives the keystroke series and the deletion series back. *)
Theorem csv_export_reads_back :
  forall s : Editor.state,
    readCsv (handleExportToCsv s) = Some (charSeries s, backspaceSeries s).
Proof.
  intros s. unfold handleExportToCsv. rewrite !CsvFacts.join_joinWith.
  apply CsvFacts.readCsv_rows.
Qed.

(** X11.  The two exporters write the same file: for series of the same
    length, the export of the sampler page is the export of the editor. *)
Theorem exporters_agree :
  forall (p : ActivityPage.state) (s : Editor.state),
    List.length (ActivityPage.keystrokes p) = List.length (ActivityPage.backspaces p) ->
    ActivityPage.keystrokes p = charSeries s ->
    ActivityPage.backspaces p = backspaceSeries s ->
    ActivityPage.exportCSV p = handleExportToCsv s.
Proof.
  intros p s H Hk Hb. unfold ActivityPage.exportCSV, handleExportToCsv.
  rewrite !CsvFacts.join_joinWith, <- Hk, <- Hb.
  rewrite <- H, Nat.max_id.
  rewrite CsvFacts.pad_whole. rewrite H. rewrite CsvFacts.pad_whole.
  cbn [map ActivityPage.joinWith flat_map]. now rewrite app_nil_r.
Qed.

End SeriesExport.

(* ================================================================== *)
(** * The ids of the questions *)
(* ================================================================== *)

Module QuestionIdFacts.

Lemma toString_injective a b : JS.toString a = JS.toString b -> a = b.
Proof.
  intros H. apply (f_equal JS.parseNatural) in H.
  rewrite !NaturalFacts.parseNatural_toString in H. congruence.
Qed.

Lemma no_hyphen n : ~ In 45%N (JS.toString n).
Proof. apply CsvFacts.digit_not; [reflexivity | apply CsvFacts.toString_digits]. Qed.

(** The id made for an index tells the index. *)
Lemma id_tells_index a i b j :
  JS.lit "q-" ++ JS.toString a ++ JS.lit "-" ++ JS.toString i
  = JS.lit "q-" ++ JS.toString b ++ JS.lit "-" ++ JS.toString j ->
  i = j.
Proof.
  intros H. apply app_inv_head in H.
  apply (f_equal (JS.split 45%N)) in H.
  change (JS.lit "-") with [45%N] in H. cbn [app] in H.
  rewrite !CsvFacts.split_app in H by apply no_hyphen.
  rewrite !CsvFacts.split_whole in H by apply no_hyphen.
  injection H as _ H. now apply toString_injective.
Qed.

Lemma formatFrom_ids (number : Type) now index (questions : list (Json.json number)) x :
  In x (map (@Client.id number) (Client.formatFrom now index questions)) ->
  exists j, index <= j
            /\ x = JS.lit "q-" ++ JS.toString (now j) ++ JS.lit "-"
                     ++ JS.toString (N.of_nat j).
Proof.
  revert index. induction questions as [|q r IH]; intros index H; [now elim H|].
  cbn [Client.formatFrom map Client.id] in H. destruct H as [<- | H].
  - exists index. split; [apply Nat.le_refl | reflexivity].
  - destruct (IH _ H) as (j & Hj & E). exists j. split; [lia | exact E].
Qed.

End QuestionIdFacts.

Section QuestionIds.
Variable number : Type.

(** X12.  The ids that the client gives to the questions of one reply are
    pairwise different, whatever the clock shows at each of them. *)
Theorem question_ids_are_distinct :
  forall (now : nat -> N) (questions : list (Json.json number)),
    NoDup (map (@Client.id number) (Client.formatFrom now 0 questions)).
Proof.
  intros now questions. generalize 0 as index.
  induction questions as [|q r IH]; intros index; [constructor|].
  cbn [Client.formatFrom map Client.id]. constructor; [|apply IH].
  intros H. apply QuestionIdFacts.formatFrom_ids in H as (j & Hj & E).
  apply QuestionIdFacts.id_tells_index in E. apply Nat2N.inj in E. lia.
Qed.

End QuestionIds.

(* ================================================================== *)
(** * The store of references: what leaves it, and the ids *)
(* ================================================================== *)

Module ReferenceFacts.
Import Dom Marker.

Lemma filter_all (A : Type) (p : A -> bool) (l : list A) :
  (forall x, In x l -> p x = true) -> filter p l = l.
Proof.
  induction l as [|x l IH]; intros H; [reflexivity|].
  cbn [filter]. rewrite H by now left. f_equal. apply IH.
  intros y Hy. apply H. now right.
Qed.

(** Filtering the store keeps its ids pairwise different. *)
Lemma filtered_ids_unique (keep : Reference.t -> bool) (refs : list Reference.t) :
  NoDup (map Reference.id refs) -> NoDup (map Reference.id (filter keep refs)).
Proof.
  intros H. induction refs as [|r refs IH]; [constructor|].
  cbn [map] in H. apply NoDup_cons_iff in H as [Hr Hrefs].
  cbn [filter]. destruct (keep r); [|exact (IH Hrefs)].
  cbn [map]. apply NoDup_cons; [|exact (IH Hrefs)].
  intros Hin. apply Hr. apply in_map_iff in Hin as (z & Hz & Hin).
  apply filter_In in Hin as [Hin _]. apply in_map_iff. now exists z.
Qed.

(** Filtering out an id that one entry has, when no two entries share an
    id, takes out that entry and nothing else. *)
Lemma filter_out_id before (r : Reference.t) after :
  NoDup (map Reference.id (before ++ r :: after)) ->
  filter (fun ref => negb (JS.eqb (Reference.id ref) (Reference.id r)))
         (before ++ r :: after)
  = before ++ after.
Proof.
  intros H. rewrite map_app in H. cbn [map] in H.
  pose proof (NoDup_remove_2 _ _ _ H) as Hr.
  rewrite filter_app. cbn [filter]. rewrite MarkerFacts.eqb_refl. cbn [negb].
  rewrite !filter_all; [reflexivity | |].
  - intros x Hx. apply negb_true_iff.
    destruct (JS.eqb (Reference.id x) (Reference.id r)) eqn:E; [|reflexivity].
    apply MarkerFacts.eqb_eq in E. elim Hr. apply in_or_app. right.
    rewrite <- E. now apply in_map.
  - intros x Hx. apply negb_true_iff.
    destruct (JS.eqb (Reference.id x) (Reference.id r)) eqn:E; [|reflexivity].
    apply MarkerFacts.eqb_eq in E. elim Hr. apply in_or_app. left.
    rewrite <- E. now apply in_map.
Qed.

(** The dialog-close effect of the editor of components/ui touches the
    document only. *)
Lemma ui_dialogCloseEffect_frame s :
  let s' := UiEditor.dialogCloseEffect s in
  UiEditor.references s' = UiEditor.references s
  /\ UiEditor.selectedText s' = UiEditor.selectedText s
  /\ UiEditor.isDialogOpen s' = UiEditor.isDialogOpen s
  /\ UiEditor.citation s' = UiEditor.citation s.
Proof.
  unfold UiEditor.dialogCloseEffect.
  destruct (UiEditor.isDialogOpen s) eqn:Hd; [now rewrite Hd|].
  destruct (getElementById (UiEditor.editor s)); [|now rewrite Hd].
  destruct s; cbn in *. now rewrite Hd.
Qed.

Lemma ui_step_frame ev s :
  let s' := UiEditor.step ev s in
  let h := UiEditor.handle ev s in
  UiEditor.references s' = UiEditor.references h
  /\ UiEditor.selectedText s' = UiEditor.selectedText h
  /\ UiEditor.isDialogOpen s' = UiEditor.isDialogOpen h
  /\ UiEditor.citation s' = UiEditor.citation h.
Proof.
  unfold UiEditor.step. destruct (_ || _); [|now repeat split].
  apply ui_dialogCloseEffect_frame.
Qed.

(** What each event of the editor of components/ui does to the store. *)
Lemma ui_handle_references ev s :
  let refs := UiEditor.references (UiEditor.handle ev s) in
  refs = UiEditor.references s
  \/ (exists now sel new,
         ev = UiEditor.AddReference now sel
         /\ Reference.id new = JS.toString now
         /\ refs = UiEditor.references s ++ [new])
  \/ (exists id,
         ev = UiEditor.RemoveReference id
         /\ refs = filter (fun ref => negb (JS.eqb (Reference.id ref) id))
                          (UiEditor.references s)).
Proof.
  cbv zeta. destruct ev; cbn [UiEditor.handle].
  - left. destruct clipboardData as [t|]; [|reflexivity].
    unfold UiEditor.handleEditorPaste. destruct (JS.truthy _); [|reflexivity].
    destruct sel as [| |[pth off]]; try now destruct s.
    destruct (insertNode _ _ _ _) as [[d b]|]; now destruct s.
  - left. now destruct s.
  - left. now destruct s.
  - unfold UiEditor.handleAddReference. destruct (_ || _); [now left|].
    right. left. eexists now, sel, _. split; [reflexivity|].
    split; [|now destruct s]. reflexivity.
  - right. right. exists id. split; [reflexivity|]. now destruct s.
  - left. now destruct s.
Qed.

Section Steps.
Variable innerText : list node -> jsstring.

(** What each event of the editor with the monitor does to the store. *)
Lemma step_references ev s :
  let refs := Editor.references (Editor.step innerText ev s) in
  refs = Editor.references s
  \/ (exists now sel new,
         ev = Editor.AddReference now sel
         /\ Reference.id new = JS.toString now
         /\ refs = Editor.references s ++ [new])
  \/ (exists id,
         ev = Editor.RemoveReference id
         /\ refs = filter (fun ref => negb (JS.eqb (Reference.id ref) id))
                          (Editor.references s))
  \/ (ev = Editor.ClearDocument /\ refs = [])
  \/ (exists inputType doc,
         ev = Editor.Input inputType doc
         /\ refs = filter (fun ref => Editor.has (Editor.currentRefs doc)
                                                 (Reference.id ref))
                          (Editor.references s)).
Proof.
  cbv zeta.
  destruct (CounterFacts.step_frame innerText ev s) as (_ & _ & _ & _ & E & _).
  rewrite E. clear E.
  destruct ev; cbn [Editor.handle].
  - left. destruct clipboardData as [t|]; [|reflexivity].
    unfold Editor.handleEditorPaste. destruct (JS.truthy _); [|reflexivity].
    destruct sel as [| |[pth off]]; try now destruct s.
    destruct (insertNode _ _ _ _) as [[d b]|]; now destruct s.
  - do 4 right. exists inputType, newEditor. split; [reflexivity|].
    unfold Editor.handleEditorInput.
    destruct (JS.eqb inputType _); [|destruct (JS.startsWith _ _)]; now destruct s.
  - left. now destruct s.
  - left. now destruct s.
  - left. now destruct s.
  - unfold Editor.handleAddReference. destruct (_ || _); [now left|].
    right. left. eexists now, sel, _. split; [reflexivity|].
    split; [|now destruct s]. reflexivity.
  - right. right. left. exists id. split; [reflexivity|].
    unfold Editor.handleRemoveReference.
    destruct (Editor.findSpanById _ _); now destruct s.
  - do 3 right. left. split; [reflexivity|]. now destruct s.
  - left. now destruct s.
  - left. unfold Editor.handleGenerateQuestions. destruct (_ || _); now destruct s.
  - left. destruct c; now destruct s.
  - left. now destruct s.
  - now left.
Qed.

End Steps.
End ReferenceFacts.

Section Store.
Import Dom Marker Editor.
Variable innerText : list node -> jsstring.

(** X13.  In the editor with the monitor a stored reference leaves the
    store in three ways only: the sidebar removal of its id, the clear
    action, and a document-change notification for a document in which no
    span carries its id (or when its id is empty). *)
Theorem reference_leaves_the_store_three_ways :
  forall ev s r,
    In r (references s) ->
    In r (references (step innerText ev s))
    \/ ev = RemoveReference (Reference.id r)
    \/ ev = ClearDocument
    \/ exists inputType doc,
        ev = Input inputType doc
        /\ (Reference.id r = [] \/ count (isRefSpanOf (Reference.id r)) doc = 0).
Proof.
  intros ev s r Hin.
  destruct (ReferenceFacts.step_references innerText ev s)
    as [E | [(now & sel & new & _ & _ & E) | [(id & -> & E)
       | [(-> & E) | (inputType & doc & -> & E)]]]]; cbv zeta in E.
  - left. now rewrite E.
  - left. rewrite E. apply in_or_app. now left.
  - destruct (JS.eqb (Reference.id r) id) eqn:Ei.
    + right. left. apply MarkerFacts.eqb_eq in Ei. now subst id.
    + left. rewrite E. apply filter_In. split; [exact Hin|]. now rewrite Ei.
  - right. right. now left.
  - destruct (has (currentRefs doc) (Reference.id r)) eqn:Eh.
    + left. rewrite E. apply filter_In. now split.
    + do 3 right. exists inputType, doc. split; [reflexivity|].
      destruct (Reference.id r) as [|c i] eqn:Eid; [now left|]. right.
      rewrite StoreFacts.has_currentRefs in Eh by discriminate.
      rewrite StoreFacts.existsb_count in Eh. apply Nat.ltb_ge in Eh. lia.
Qed.

(** X14.  In the editor of components/ui nothing but the sidebar removal of
    its id takes a reference out of the store: neither clearing the document
    nor any other event does. *)
Theorem ui_reference_leaves_the_store_by_removal_only :
  forall ev s r,
    In r (UiEditor.references s) ->
    In r (UiEditor.references (UiEditor.step ev s))
    \/ ev = UiEditor.RemoveReference (Reference.id r).
Proof.
  intros ev s r Hin.
  destruct (ReferenceFacts.ui_step_frame ev s) as (E & _). rewrite E. clear E.
  destruct (ReferenceFacts.ui_handle_references ev s)
    as [E | [(now & sel & new & _ & _ & E) | (id & -> & E)]]; cbv zeta in E.
  - left. now rewrite E.
  - left. rewrite E. apply in_or_app. now left.
  - destruct (JS.eqb (Reference.id r) id) eqn:Ei.
    + right. apply MarkerFacts.eqb_eq in Ei. now subst id.
    + left. rewrite E. apply filter_In. split; [exact Hin|]. now rewrite Ei.
Qed.

(** X15.  The ids of the store stay pairwise different under every event,
    a commit included when the printed time of the commit is not yet an id
    of the store. *)
Theorem ids_stay_unique :
  forall ev s,
    NoDup (map Reference.id (references s)) ->
    (forall now sel,
        ev = AddReference now sel ->
        ~ In (JS.toString now) (map Reference.id (references s))) ->
    NoDup (map Reference.id (references (step innerText ev s))).
Proof.
  intros ev s Hn Hfresh.
  destruct (ReferenceFacts.step_references innerText ev s)
    as [E | [(now & sel & new & -> & Hid & E) | [(id & -> & E)
       | [(-> & E) | (inputType & doc & -> & E)]]]]; cbv zeta in E; rewrite E.
  - exact Hn.
  - rewrite map_app. cbn [map]. rewrite Hid.
    apply NoDup_app.
    + exact Hn.
    + constructor; [intros [] | constructor].
    + intros x Hx [<- | []]. exact (Hfresh now sel eq_refl Hx).
  - now apply ReferenceFacts.filtered_ids_unique.
  - constructor.
  - now apply ReferenceFacts.filtered_ids_unique.
Qed.

(** X16.  When no two stored references share an id, the sidebar removal of
    an entry takes exactly that entry out of the store and leaves the others
    in their order; in both editors. *)
Theorem sidebar_removal_takes_one_entry :
  (forall s before r after,
      references s = before ++ r :: after ->
      NoDup (map Reference.id (references s)) ->
      references (step innerText (RemoveReference (Reference.id r)) s)
      = before ++ after)
  /\ (forall s before r after,
         UiEditor.references s = before ++ r :: after ->
         NoDup (map Reference.id (UiEditor.references s)) ->
         UiEditor.references
           (UiEditor.step (UiEditor.RemoveReference (Reference.id r)) s)
         = before ++ after).
Proof.
  split.
  - intros s before r after Hs Hn.
    destruct (ReferenceFacts.step_references innerText
                (RemoveReference (Reference.id r)) s)
      as [E | [(now & sel & new & Hev & _) | [(id & Hev & E)
         | [(Hev & _) | (inputType & doc & Hev & _)]]]]; cbv zeta in *;
      try discriminate Hev.
    + exfalso. revert E. unfold step. cbn [handle setsReferences].
      rewrite orb_true_r.
      destruct (CounterFacts.dialogCloseEffect_frame
                  (handleRemoveReference (Reference.id r) s))
        as (_ & _ & _ & _ & E' & _).
      rewrite E'. unfold handleRemoveReference.
      replace (references _)
        with (filter (fun ref => negb (JS.eqb (Reference.id ref) (Reference.id r)))
                     (references s))
        by (destruct (findSpanById _ _); now destruct s).
      rewrite Hs in *. rewrite ReferenceFacts.filter_out_id by exact Hn.
      intros E. apply (f_equal (@List.length _)) in E.
      rewrite !length_app in E. cbn in E. lia.
    + injection Hev as <-. rewrite E, Hs. apply ReferenceFacts.filter_out_id.
      now rewrite <- Hs.
  - intros s before r after Hs Hn.
    destruct (ReferenceFacts.ui_step_frame
                (UiEditor.RemoveReference (Reference.id r)) s) as (E & _).
    rewrite E. cbn [UiEditor.handle]. unfold UiEditor.handleRemoveReference.
    replace (UiEditor.references (UiEditor.setReferences _ s))
      with (filter (fun ref => negb (JS.eqb (Reference.id ref) (Reference.id r)))
                   (UiEditor.references s)) by now destruct s.
    rewrite Hs. apply ReferenceFacts.filter_out_id. now rewrite <- Hs.
Qed.

End Store.

(* ================================================================== *)
(** * Commits, the clear action and repeated notifications *)
(* ================================================================== *)

Module CommitFacts.
Import Dom Marker DomFacts MarkerFacts.

Lemma dialogCloseEffect_citation s :
  Editor.citation (Editor.dialogCloseEffect s) = Editor.citation s.
Proof.
  unfold Editor.dialogCloseEffect.
  destruct (Editor.isDialogOpen s); [reflexivity|].
  destruct (getElementById (Editor.editor s)); [|reflexivity].
  destruct (existsb _ _); [reflexivity|]. now destruct s.
Qed.

Lemma absDiff_same l : Editor.absDiff l l = 0%N.
Proof. unfold Editor.absDiff. now rewrite Z.sub_diag. Qed.

Lemma filter_idempotent (A : Type) (p : A -> bool) (l : list A) :
  filter p (filter p l) = filter p l.
Proof.
  apply ReferenceFacts.filter_all. intros x H. now apply filter_In in H.
Qed.

Section WithInnerText.
Variable innerText : list node -> jsstring.

(** The input listener run again on what it left. *)
Lemma handleEditorInput_again inputType inputType' s :
  let h := Editor.handleEditorInput innerText inputType s in
  Editor.handleEditorInput innerText inputType' h = h.
Proof.
  cbv zeta. unfold Editor.handleEditorInput.
  destruct s as [a b cs bs r t d c e o q qd g].
  destruct (JS.eqb inputType _); [|destruct (JS.startsWith inputType _)];
    (destruct (JS.eqb inputType' _); [|destruct (JS.startsWith inputType' _)]);
    cbn; rewrite ?absDiff_same, ?N.add_0_r, filter_idempotent; reflexivity.
Qed.

Lemma handleEditorInput_editor inputType s :
  Editor.editor (Editor.handleEditorInput innerText inputType s) = Editor.editor s.
Proof.
  unfold Editor.handleEditorInput.
  destruct (JS.eqb inputType _); [|destruct (JS.startsWith inputType _)];
    now destruct s.
Qed.

End WithInnerText.

(** Replacing the first marker of a document that holds at most one, by
    nodes that are no markers, leaves none. *)
Lemma replace_marker ns doc :
  count isMarker ns = 0 -> count isMarker doc <= 1 ->
  count isMarker
        match splice isMarker (fun _ => ns) doc with
        | Some d => d
        | None => doc
        end = 0.
Proof.
  intros Hns Hle.
  pose proof (splice_spec (fun _ => ns) isMarker_selector doc) as Hs.
  inversion Hs as [Hnone Heq | n l' R pre post Hfind Hfl Hfl' Hcnt Hc Hc' Heq].
  - apply count_zero_filter. now apply find_none_filter.
  - specialize (Hcnt isMarker isMarker_selector).
    apply find_some in Hfind as [_ Hn].
    assert (1 <= count isMarker [n]).
    { destruct n as [d|t a cs].
      - rewrite count_Text, Hn. lia.
      - rewrite count_Elem, Hn. lia. }
    lia.
Qed.

Lemma not_found_absent doc : getElementById doc = None -> count isMarker doc = 0.
Proof.
  intros H. apply count_zero_filter. now apply find_none_filter.
Qed.

(** The dialog-close effect of the editor of components/ui tidies a
    document that holds at most one marker. *)
Lemma ui_effect_tidy h :
  count isMarker (UiEditor.editor h) <= 1 -> tidy (UiEditor.dialogCloseEffect h).
Proof.
  intros Hle. unfold tidy, UiEditor.dialogCloseEffect.
  destruct (UiEditor.isDialogOpen h) eqn:Hd; [now rewrite Hd|].
  destruct (getElementById (UiEditor.editor h)) eqn:Hf.
  - replace (UiEditor.isDialogOpen (UiEditor.set_editor _ h)) with false
      by now destruct h.
    replace (UiEditor.editor (UiEditor.set_editor _ h))
      with (removeChild isMarker
              (insertBefore isMarker (Text (JS.lit " "))
                 (insertBefore isMarker (Text (UiEditor.selectedText h))
                    (UiEditor.editor h)))) by now destruct h.
    rewrite insert2_remove by reflexivity.
    rewrite replace_marker; [apply Nat.le_refl | reflexivity | exact Hle].
  - rewrite Hd. now rewrite (not_found_absent _ Hf).
Qed.

(** What a handler of the editor of components/ui leaves is tidy, the
    closing of an open dialog apart; it never leaves more than one marker. *)
Lemma ui_handle_tidy ev s :
  tidy s ->
  (forall cd sel, ev = UiEditor.Paste cd sel -> UiEditor.isDialogOpen s = false) ->
  count isMarker (UiEditor.editor (UiEditor.handle ev s)) <= 1
  /\ (tidy (UiEditor.handle ev s)
      \/ (ev = UiEditor.OpenChange false /\ UiEditor.isDialogOpen s = true)).
Proof.
  unfold tidy. intros Ht Hp.
  assert (Hle : count isMarker (UiEditor.editor s) <= 1)
    by (destruct (UiEditor.isDialogOpen s); lia).
  destruct ev; cbn [UiEditor.handle].
  - specialize (Hp _ _ eq_refl). rewrite Hp in Ht.
    assert (Hz : count isMarker (UiEditor.editor s) = 0) by lia.
    destruct clipboardData as [text|];
      [|cbn [UiEditor.handleEditorPaste]; split; [exact Hle | left; rewrite Hp; lia]].
    destruct (UiEditorFacts.ui_handleEditorPaste_pasted text sel s)
      as [| |doc' Hi Htr].
    + split; [exact Hle | left; rewrite Hp; lia].
    + replace (UiEditor.editor (UiEditor.setSelectedText text s))
        with (UiEditor.editor s) by now destruct s.
      replace (UiEditor.isDialogOpen (UiEditor.setSelectedText text s))
        with (UiEditor.isDialogOpen s) by now destruct s.
      split; [exact Hle | left; rewrite Hp; lia].
    + replace (UiEditor.editor (UiEditor.setIsDialogOpen true _)) with doc'
        by now destruct s.
      replace (UiEditor.isDialogOpen (UiEditor.setIsDialogOpen true _)) with true
        by now destruct s.
      rewrite (inserted_count isMarker_selector Hi), Hz. cbn. split; [lia | left; lia].
  - replace (UiEditor.editor (UiEditor.setIsDialogOpen open s))
      with (UiEditor.editor s) by now destruct s.
    replace (UiEditor.isDialogOpen (UiEditor.setIsDialogOpen open s)) with open
      by now destruct s.
    split; [exact Hle|].
    destruct open; [left; exact Hle|].
    destruct (UiEditor.isDialogOpen s); [now right | now left].
  - replace (UiEditor.editor (UiEditor.setCitation value s))
      with (UiEditor.editor s) by now destruct s.
    replace (UiEditor.isDialogOpen (UiEditor.setCitation value s))
      with (UiEditor.isDialogOpen s) by now destruct s.
    split; [exact Hle | now left].
  - unfold UiEditor.handleAddReference.
    destruct (_ || _); [split; [exact Hle | now left]|].
    match goal with
    | |- context [UiEditor.set_editor ?d _] => set (doc := d)
    end.
    replace (UiEditor.editor (UiEditor.setCitation [] _)) with doc by now destruct s.
    replace (UiEditor.isDialogOpen (UiEditor.setCitation [] _)) with false
      by now destruct s.
    assert (Hz : count isMarker doc = 0).
    { subst doc. destruct (getElementById (UiEditor.editor s)) eqn:Hf.
      - rewrite insert2_remove by reflexivity.
        apply replace_marker; [reflexivity | exact Hle].
      - apply not_found_absent in Hf.
        destruct sel as [[pth off]|].
        + destruct (insertNode pth off _ (UiEditor.editor s))
            as [[doc1 [pth1 off1]]|] eqn:H1; [|exact Hf].
          apply insertNode_inserted in H1.
          assert (Hz1 : count isMarker doc1 = 0)
            by (rewrite (inserted_count isMarker_selector H1), Hf; reflexivity).
          destruct (insertNode pth1 off1 _ doc1) as [[doc2 b2]|] eqn:H2;
            [|exact Hz1].
          apply insertNode_inserted in H2.
          rewrite (inserted_count isMarker_selector H2), Hz1. reflexivity.
        + rewrite count_app, Hf. reflexivity. }
    rewrite Hz. split; [lia | left; lia].
  - replace (UiEditor.editor (UiEditor.handleRemoveReference id s))
      with (UiEditor.editor s) by now destruct s.
    replace (UiEditor.isDialogOpen (UiEditor.handleRemoveReference id s))
      with (UiEditor.isDialogOpen s) by now destruct s.
    split; [exact Hle | now left].
  - replace (UiEditor.editor (UiEditor.handleClearDocument s)) with (@nil node)
      by now destruct s.
    rewrite count_nil. split; [lia | left; lia].
Qed.

End CommitFacts.

Section Commits.
Import Dom Marker Editor.
Variable innerText : list node -> jsstring.

(** X17.  A commit right after a commit changes nothing: the first one
    empties the citation, so a second press of the button adds no second
    reference and no second span; in both editors. *)
Theorem second_commit_changes_nothing :
  (forall s now1 sel1 now2 sel2,
      step innerText (AddReference now2 sel2)
           (step innerText (AddReference now1 sel1) s)
      = step innerText (AddReference now1 sel1) s)
  /\ (forall s now1 sel1 now2 sel2,
         UiEditor.step (UiEditor.AddReference now2 sel2)
                       (UiEditor.step (UiEditor.AddReference now1 sel1) s)
         = UiEditor.step (UiEditor.AddReference now1 sel1) s).
Proof.
  split.
  - intros s now1 sel1 now2 sel2.
    assert (Hidle : forall x now sel,
               negb (JS.truthy (JS.trim (citation x)))
               || negb (JS.truthy (JS.trim (selectedText x))) = true ->
               step innerText (AddReference now sel) x = x).
    { intros x now sel Hg. unfold step. cbn [handle setsReferences].
      unfold handleAddReference. rewrite Hg.
      rewrite Bool.eqb_reflx, MarkerFacts.eqb_refl. cbn [negb orb].
      destruct (JS.truthy (JS.trim (citation x)));
        destruct (JS.truthy (JS.trim (selectedText x))); try reflexivity.
      discriminate Hg. }
    destruct (negb (JS.truthy (JS.trim (citation s)))
              || negb (JS.truthy (JS.trim (selectedText s)))) eqn:Hg.
    + rewrite (Hidle s now1 sel1 Hg). exact (Hidle s now2 sel2 Hg).
    + apply Hidle.
      assert (Hc : citation (step innerText (AddReference now1 sel1) s) = []).
      { unfold step. cbn [handle].
        assert (Hh : citation (handleAddReference now1 sel1 s) = []).
        { unfold handleAddReference. rewrite Hg. now destruct s. }
        match goal with
        | |- context [if ?c then _ else _] => destruct c
        end; [|exact Hh].
        now rewrite CommitFacts.dialogCloseEffect_citation. }
      now rewrite Hc.
  - intros s now1 sel1 now2 sel2.
    assert (Hidle : forall x now sel,
               negb (JS.truthy (JS.trim (UiEditor.citation x)))
               || negb (JS.truthy (JS.trim (UiEditor.selectedText x))) = true ->
               UiEditor.step (UiEditor.AddReference now sel) x = x).
    { intros x now sel Hg. unfold UiEditor.step. cbn [UiEditor.handle].
      unfold UiEditor.handleAddReference. rewrite Hg.
      now rewrite Bool.eqb_reflx, MarkerFacts.eqb_refl. }
    destruct (negb (JS.truthy (JS.trim (UiEditor.citation s)))
              || negb (JS.truthy (JS.trim (UiEditor.selectedText s)))) eqn:Hg.
    + rewrite (Hidle s now1 sel1 Hg). exact (Hidle s now2 sel2 Hg).
    + apply Hidle.
      destruct (ReferenceFacts.ui_step_frame (UiEditor.AddReference now1 sel1) s)
        as (_ & _ & _ & Hc).
      rewrite Hc. cbn [UiEditor.handle]. unfold UiEditor.handleAddReference.
      rewrite Hg. now destruct s.
Qed.

(** X18.  The clear action empties the document and leaves the text-length
    baseline where it was: the first inserted text after a clear is counted
    as the distance between the new length and the length before the
    clear. *)
Theorem clear_keeps_the_length_baseline :
  forall s doc,
    let cleared := step innerText ClearDocument s in
    editor cleared = []
    /\ oldTextLength cleared = oldTextLength s
    /\ charAmount (step innerText (Input (JS.lit "insertText") doc) cleared)
       = absDiff (JS.length (innerText doc)) (oldTextLength s).
Proof.
  intros s doc. cbv zeta.
  assert (Hc : step innerText ClearDocument s = handleClearDocument s).
  { unfold step. cbn [handle setsReferences]. rewrite !orb_true_r.
    apply EditorFacts.dialogCloseEffect_absent. now destruct s. }
  rewrite Hc. split; [now destruct s|]. split; [now destruct s|].
  destruct (CounterFacts.step_frame innerText (Input (JS.lit "insertText") doc)
              (handleClearDocument s)) as (A & _).
  rewrite A. now destruct s.
Qed.

(** X19.  A document-change notification for the document that the last
    one was for changes nothing, whatever its input type: no counter moves
    and the store stays. *)
Theorem repeated_notification_changes_nothing :
  forall inputType inputType' doc s,
    count isMarker doc = 0 ->
    let s1 := step innerText (Input inputType doc) s in
    step innerText (Input inputType' doc) s1 = s1.
Proof.
  intros inputType inputType' doc s Hz. cbv zeta.
  assert (Hs : forall ty x,
             step innerText (Input ty doc) x
             = handleEditorInput innerText ty (set_editor doc x)).
  { intros ty x. unfold step. cbn [handle setsReferences]. rewrite !orb_true_r.
    apply EditorFacts.dialogCloseEffect_absent.
    rewrite CommitFacts.handleEditorInput_editor. now destruct x. }
  rewrite !Hs.
  set (h := handleEditorInput innerText inputType (set_editor doc s)).
  assert (He : set_editor doc h = h).
  { assert (E : editor h = doc)
      by (unfold h; rewrite CommitFacts.handleEditorInput_editor; now destruct s).
    destruct h; cbn in *. now subst. }
  rewrite He. apply CommitFacts.handleEditorInput_again.
Qed.

End Commits.

Section UiMarker.
Import Dom Marker.

(** X20.  In the editor of components/ui the marker never outlives the
    dialog: as long as a paste arrives only while the dialog is closed, the
    document holds no marker while the dialog is closed and at most one
    while it is open. *)
Theorem ui_marker_never_outlives_the_dialog :
  forall ev s,
    tidy s ->
    (forall cd sel, ev = UiEditor.Paste cd sel -> UiEditor.isDialogOpen s = false) ->
    tidy (UiEditor.step ev s).
Proof.
  intros ev s Ht Hp.
  destruct (@CommitFacts.ui_handle_tidy ev s Ht Hp) as [Hle [Hh | [-> Hd]]].
  - unfold UiEditor.step. destruct (_ || _); [|exact Hh].
    now apply CommitFacts.ui_effect_tidy.
  - unfold UiEditor.step. cbn [UiEditor.handle] in *.
    replace (UiEditor.isDialogOpen (UiEditor.setIsDialogOpen false s)) with false
      by now destruct s.
    rewrite Hd. cbn [Bool.eqb negb orb].
    now apply CommitFacts.ui_effect_tidy.
Qed.

End UiMarker.

(* ================================================================== *)
(** * The sampler page *)
(* ================================================================== *)

Module ActivityFacts.
Import ActivityPage.

Lemma activity_run_cons ev evs s : run (ev :: evs) s = run evs (handle ev s).
Proof. reflexivity. Qed.

Lemma occurrences_cons p ev evs :
  occurrences p (ev :: evs) = (if p ev then 1 else 0) + occurrences p evs.
Proof. unfold occurrences. cbn [filter]. now destruct (p ev). Qed.

(** A tick samples both counters; any other event leaves the series alone
    and lowers no counter. *)
Lemma handle_sampler ev s :
  let s' := handle ev s in
  (ev = Interval
   /\ keystrokes s' = keystrokes s ++ [keystrokesRef s]
   /\ backspaces s' = backspaces s ++ [backspaceRef s]
   /\ keystrokesRef s' = keystrokesRef s /\ backspaceRef s' = backspaceRef s)
  \/ (ev <> Interval
      /\ keystrokes s' = keystrokes s /\ backspaces s' = backspaces s
      /\ (keystrokesRef s <= keystrokesRef s')%N
      /\ (backspaceRef s <= backspaceRef s')%N).
Proof.
  cbv zeta. destruct s as [t ks bs k b]. destruct ev; cbn.
  - right. split; [discriminate|].
    destruct focused; [destruct (JS.eqb key _)|]; cbn; repeat split; lia.
  - left. now repeat split.
  - right. split; [discriminate|]. repeat split; apply N.le_refl.
  - right. split; [discriminate|]. repeat split; apply N.le_refl.
Qed.

Lemma pad_cells m arr :
  List.length arr <= m ->
  pad m arr = map JS.toString arr ++ repeat [] (m - List.length arr).
Proof.
  intros Hle. apply nth_error_ext. intros i. unfold pad.
  rewrite nth_error_map, nth_error_seq. cbn [Nat.add].
  destruct (Nat.lt_ge_cases i (List.length arr)) as [Hi | Hi].
  - rewrite nth_error_app1 by (rewrite length_map; exact Hi).
    rewrite nth_error_map.
    assert (Hm : (i <? m) = true) by (apply Nat.ltb_lt; lia). rewrite Hm.
    cbn [option_map]. destruct (nth_error arr i) eqn:E; [reflexivity|].
    apply nth_error_None in E. lia.
  - rewrite nth_error_app2 by (rewrite length_map; exact Hi).
    rewrite length_map.
    assert (En : nth_error arr i = None) by now apply nth_error_None.
    destruct (i <? m) eqn:Hm.
    + apply Nat.ltb_lt in Hm. cbn [option_map]. rewrite En.
      symmetry. apply nth_error_repeat. lia.
    + apply Nat.ltb_ge in Hm. cbn [option_map]. symmetry.
      apply nth_error_None. rewrite repeat_length. lia.
Qed.

End ActivityFacts.

Section Activity.
Import ActivityPage.

(** X21.  Every key press that arrives while the textarea has the focus is
    counted once, in one counter: the deletion counter grows by the number
    of Backspace presses, the keystroke counter by the number of the other
    presses, and nothing else moves either counter. *)
Theorem focused_key_presses_are_counted_once :
  forall evs s,
    keystrokesRef (run evs s)
    = (keystrokesRef s + N.of_nat (occurrences isTyped evs))%N
    /\ backspaceRef (run evs s)
       = (backspaceRef s + N.of_nat (occurrences isErasure evs))%N.
Proof.
  induction evs as [|ev evs IH]; intros s.
  - cbn. now rewrite !N.add_0_r.
  - rewrite ActivityFacts.activity_run_cons, !ActivityFacts.occurrences_cons.
    destruct (IH (handle ev s)) as [A B]. rewrite A, B. clear A B IH.
    destruct s as [t ks bs k b].
    destruct ev as [[|] key| | |]; cbn [handle handleKeyDown interval setText
      keystrokesRef backspaceRef isTyped isErasure];
      try (split; lia).
    destruct (JS.eqb key (JS.lit "Backspace"));
      cbn [negb keystrokesRef backspaceRef]; split; lia.
Qed.

(** X22.  On the sampler page the two series grow together, by one sample
    for each tick, and each is cumulative: it does not decrease and stays
    below its counter. *)
Theorem activity_series_grow_together :
  forall evs s,
    List.length (keystrokes s) = List.length (backspaces s) ->
    cumulative (keystrokes s) (keystrokesRef s) ->
    cumulative (backspaces s) (backspaceRef s) ->
    let s' := run evs s in
    List.length (keystrokes s')
    = List.length (keystrokes s) + occurrences isInterval evs
    /\ List.length (backspaces s') = List.length (keystrokes s')
    /\ cumulative (keystrokes s') (keystrokesRef s')
    /\ cumulative (backspaces s') (backspaceRef s').
Proof.
  induction evs as [|ev evs IH]; intros s Hl Hk Hb; cbv zeta.
  - cbn [run fold_left]. unfold occurrences. cbn. rewrite Nat.add_0_r.
    split; [reflexivity|]. split; [now symmetry|]. now split.
  - rewrite ActivityFacts.activity_run_cons, ActivityFacts.occurrences_cons.
    destruct (ActivityFacts.handle_sampler ev s)
      as [(-> & C & D & A & B) | (Hev & C & D & A & B)].
    + destruct (IH (handle Interval s)) as (E1 & E2 & E3 & E4).
      * rewrite C, D, !length_app. cbn. lia.
      * rewrite C, A. now apply SamplerFacts.cumulative_sample.
      * rewrite D, B. now apply SamplerFacts.cumulative_sample.
      * split; [|split; [exact E2 | now split]].
        rewrite E1, C, length_app. cbn [isInterval List.length]. lia.
    + destruct (IH (handle ev s)) as (E1 & E2 & E3 & E4).
      * now rewrite C, D.
      * rewrite C. exact (SamplerFacts.cumulative_raise A Hk).
      * rewrite D. exact (SamplerFacts.cumulative_raise B Hb).
      * split; [|split; [exact E2 | now split]].
        rewrite E1, C.
        assert (Hi : isInterval ev = false) by (destruct ev; try reflexivity; congruence).
        rewrite Hi. lia.
Qed.

(** X23.  The CSV export of the sampler page fills the shorter series with
    empty cells up to the length of the longer one; when the two series
    have the same length, as they have on the page, nothing is filled in and
    reading the two rows gives the two series back. *)
Theorem activity_export_reads_back :
  (forall m arr,
      List.length arr <= m ->
      pad m arr = map JS.toString arr ++ repeat [] (m - List.length arr))
  /\ (forall s,
         List.length (keystrokes s) = List.length (backspaces s) ->
         readCsv (exportCSV s) = Some (keystrokes s, backspaces s)).
Proof.
  split; [exact ActivityFacts.pad_cells|].
  intros s H. unfold exportCSV. rewrite <- H, Nat.max_id.
  rewrite ActivityFacts.pad_cells by apply Nat.le_refl.
  rewrite Nat.sub_diag. rewrite H.
  rewrite ActivityFacts.pad_cells by apply Nat.le_refl.
  rewrite Nat.sub_diag. cbn [repeat]. rewrite !app_nil_r.
  cbn [map ActivityPage.joinWith flat_map]. rewrite app_nil_r.
  apply CsvFacts.readCsv_rows.
Qed.

End Activity.

(* ================================================================== *)
(** * The event-log page *)
(* ================================================================== *)

Section EventLogPage.
Import EventLog.
Variable number : Type.

Lemma log_run_cons (ev : event number) evs s :
  run (ev :: evs) s = run evs (handle ev s).
Proof. reflexivity. Qed.

Lemma told_app (entries : list (EventLogEntry number)) e :
  told (entries ++ [e])
  = match type e, value e with
    | change, Some v => v
    | _, _ => told entries
    end.
Proof. unfold told. now rewrite fold_left_app. Qed.

(** X24.  The log holds one record for each interaction, in the order of
    the interactions, after the records it held: the time stamps and the
    kinds of the new records are those of the events, and the export adds
    none. *)
Theorem log_records_every_interaction_in_order :
  forall (evs : list (event number)) s,
    map (@timestamp number) (events (run evs s))
    = map (@timestamp number) (events s) ++ stamps evs
    /\ map (@type number) (events (run evs s))
       = map (@type number) (events s) ++ kinds evs
    /\ exists logged, events (run evs s) = events s ++ logged.
Proof.
  induction evs as [|ev evs IH]; intros s.
  - cbn. rewrite !app_nil_r. split; [reflexivity|]. split; [reflexivity|].
    exists []. now rewrite app_nil_r.
  - rewrite log_run_cons. destruct (IH (handle ev s)) as (A & B & logged & C).
    rewrite A, B, C. clear A B C IH.
    destruct ev as [t v|t k|t cx cy|]; cbn [handle handleChange handleKeyDown
      handleClick logEvent events stamps kinds flat_map];
      rewrite ?map_app, <- ?app_assoc; cbn [map app timestamp type];
      (split; [reflexivity|]; split; [reflexivity|]); eexists; reflexivity.
Qed.

(** X25.  The text of the textarea is what the log tells: along any events
    it stays the value of the last change record of the log, when it was
    before. *)
Theorem text_is_the_last_logged_change :
  forall (evs : list (event number)) s,
    text s = told (events s) ->
    text (run evs s) = told (events (run evs s)).
Proof.
  induction evs as [|ev evs IH]; intros s H; [exact H|].
  rewrite log_run_cons. apply IH. clear IH.
  destruct ev as [t v|t k|t cx cy|]; cbn [handle handleChange handleKeyDown
    handleClick logEvent events text];
    rewrite ?told_app; cbn [type value]; try exact H; reflexivity.
Qed.

(** X26.  Every record that the page logs carries the payload of its kind
    and no other: a value for a change, a key for a key press, coordinates
    for a click. *)
Theorem logged_records_carry_their_payload :
  forall (evs : list (event number)) s,
    Forall (@wellFormed number) (events s) ->
    Forall (@wellFormed number) (events (run evs s)).
Proof.
  induction evs as [|ev evs IH]; intros s H; [exact H|].
  rewrite log_run_cons. apply IH. clear IH.
  destruct ev as [t v|t k|t cx cy|]; cbn [handle handleChange handleKeyDown
    handleClick logEvent events]; try exact H;
    apply Forall_app; (split; [exact H|]); constructor; try constructor;
    cbn; repeat split; discriminate.
Qed.

End EventLogPage.

(* ================================================================== *)
(** * The questions dialog along a generation *)
(* ================================================================== *)

Section GenerationDialog.
Import Dom Editor.
Variable innerText : list node -> jsstring.





End GenerationDialog.
(* ================================================================== *)
(** * The properties at work *)
(* ================================================================== *)

Section EndpointInstances.
Import Json Api.

Lemma handler_answer_table_witness :
  ok 400 = false /\ JS.truthy (JS.lit "Invalid input") = true.
Proof.
  destruct (handler_answer_table nonZero noDetails [] devEnvironment shortPost)
    as [_ H].
  destruct (H 400%N invalidInput eq_refl) as (_ & _ & H3).
  split; [reflexivity | exact (H3 _ _ eq_refl)].
Defined.

Lemma upstream_call_only_for_a_valid_text_witness :
  snd (handler nonZero noDetails [] devEnvironment longPost)
  = [(endpoint ++ JS.lit "key",
      JS.lit "Climate change is accelerating everywhere.")]
  /\ (30 <= JS.length (JS.trim (JS.lit "Climate change is accelerating everywhere.")))%N.
Proof.
  destruct (proj1 (upstream_call_only_for_a_valid_text nonZero noDetails [])
              devEnvironment longPost
              (endpoint ++ JS.lit "key")
              (JS.lit "Climate change is accelerating everywhere.")
              (or_introl eq_refl)) as (A & _ & _ & _ & B & _).
  split; [exact A | exact B].
Defined.

Lemma questions_are_trimmed_and_not_empty_witness :
  JS.truthy (JS.lit "Why?") = true /\ JS.trim (JS.lit "Why?") = JS.lit "Why?".
Proof.
  exact (@questions_are_trimmed_and_not_empty N nonZero noDetails []
           devEnvironment longPost
           [JS.lit "Why?"; defaultQuestion; defaultQuestion]
           (JS.lit "Why?") eq_refl (or_introl eq_refl)).
Defined.

Lemma client_request_passes_validation_witness :
  exists apiKey,
    snd (handler nonZero noDetails [] devEnvironment
           (Client.post N (JS.lit "Climate change is accelerating everywhere.")))
    = [(endpoint ++ apiKey, JS.lit "Climate change is accelerating everywhere.")].
Proof.
  destruct (@client_request_passes_validation N nonZero noDetails [] Dom.content
              essay (JS.lit "/api/generate-questions")
              (JS.lit "Climate change is accelerating everywhere.")
              devEnvironment (or_introl eq_refl)) as [_ [H | H]].
  - discriminate H.
  - exact H.
Defined.

Lemma served_questions_reach_the_state_witness :
  exists q1 q2 q3,
    [JS.lit "Why?"; defaultQuestion; defaultQuestion] = [q1; q2; q3].
Proof.
  destruct (@served_questions_reach_the_state N nonZero noDetails [] JS.toString
              noMessage [] devEnvironment longPost
              [JS.lit "Why?"; defaultQuestion; defaultQuestion]
              clock Editor.initial eq_refl) as (q1 & q2 & q3 & E & _).
  exists q1, q2, q3. exact E.
Defined.

Lemma served_error_reaches_the_user_witness :
  option_map (fun c => Editor.generateQuestionsSettled c Editor.initial)
    (Client.completion
       (Client.settle nonZero JS.toString noMessage [] clock
          (Client.delivered N 400 invalidInput)))
  = Some (Editor.initial,
          [Editor.Alert
             (JS.lit "Error: Invalid input - Text is required and must be at least 30 characters")]).
Proof.
  exact (@served_error_reaches_the_user N nonZero noDetails [] JS.toString
           noMessage [] devEnvironment shortPost
           400%N (JS.lit "Invalid input")
           (Some (JS.lit "Text is required and must be at least 30 characters"))
           clock Editor.initial eq_refl).
Defined.

Lemma reply_without_candidates_witness :
  fst (handler nonZero noDetails [] bareEnvironment longPost)
  = Sent 200 (Questions [defaultQuestion; defaultQuestion; defaultQuestion]).
Proof.
  refine (proj1 (@reply_without_candidates N nonZero noDetails []
                   bareEnvironment longPost
                   (JS.lit "Climate change is accelerating everywhere.")
                   (JS.lit "key") 200%N (JS.lit "OK") (JObject [])
                   eq_refl eq_refl eq_refl _ eq_refl eq_refl eq_refl eq_refl) _).
  - discriminate.
  - exists []. split; reflexivity.
Defined.

End EndpointInstances.

Section EditorInstances.
Import Dom Marker Editor.

Lemma series_hold_one_sample_per_tick_witness :
  List.length (charSeries (run content [Tick; ClearDocument; Tick; Tick] initial))
  = List.length (backspaceSeries (run content [Tick; ClearDocument; Tick; Tick] initial)).
Proof.
  exact (proj2 (proj2 (series_hold_one_sample_per_tick content
                         [Tick; ClearDocument; Tick; Tick] initial)) eq_refl).
Defined.

Lemma series_are_cumulative_witness :
  cumulative (charSeries beforeClear) (charAmount beforeClear)
  /\ cumulative (backspaceSeries beforeClear) (backspaceAmount beforeClear).
Proof.
  exact (series_are_cumulative content
           (Input (JS.lit "insertText") (typed 4) :: repeat Tick 15)
           (setReferences twoReferences initial)
           (SamplerFacts.cumulative_nil 0) (SamplerFacts.cumulative_nil 0)).
Defined.

Lemma reference_leaves_the_store_three_ways_witness :
  In stored (references (step content Tick oneStored)).
Proof.
  destruct (reference_leaves_the_store_three_ways content Tick oneStored stored
              (or_introl eq_refl))
    as [H | [H | [H | (inputType & doc & H & _)]]].
  - exact H.
  - discriminate H.
  - discriminate H.
  - discriminate H.
Defined.

Lemma ui_reference_leaves_the_store_by_removal_only_witness :
  In stored (UiEditor.references (UiEditor.step UiEditor.ClearDocument uiStored)).
Proof.
  destruct (ui_reference_leaves_the_store_by_removal_only UiEditor.ClearDocument
              uiStored stored (or_introl eq_refl)) as [H | H].
  - exact H.
  - discriminate H.
Defined.

Lemma ids_stay_unique_witness :
  NoDup (map Reference.id
             (references (step content (AddReference 1700000000001 None)
                               (setCitation ipcc (setSelectedText climate oneStored))))).
Proof.
  apply ids_stay_unique.
  - constructor; [intros [] | constructor].
  - intros now sel H. injection H as <- <-. vm_compute.
    intros [H | []]. discriminate H.
Defined.

Lemma sidebar_removal_takes_one_entry_witness :
  references (step content (RemoveReference (JS.lit "1700000000000"))
                   (setReferences twoReferences initial))
  = [Reference.Build (JS.lit "1700000000001") (JS.lit "second") (JS.lit "(B, 2024)")].
Proof.
  refine (proj1 (sidebar_removal_takes_one_entry content)
                (setReferences twoReferences initial) []
                (Reference.Build (JS.lit "1700000000000") (JS.lit "first")
                                 (JS.lit "(A, 2023)"))
                _ eq_refl _).
  vm_compute. constructor.
  - intros [H | []]. discriminate H.
  - constructor; [intros [] | constructor].
Defined.

Lemma repeated_notification_changes_nothing_witness :
  step content (Input (JS.lit "deleteContentBackward") (typed 4))
       (step content (Input (JS.lit "insertText") (typed 4)) initial)
  = step content (Input (JS.lit "insertText") (typed 4)) initial.
Proof.
  exact (repeated_notification_changes_nothing content (JS.lit "insertText")
           (JS.lit "deleteContentBackward") (typed 4) initial eq_refl).
Defined.

Lemma ui_marker_never_outlives_the_dialog_witness :
  tidy uiPasted /\ tidy (UiEditor.step (UiEditor.OpenChange false) uiPasted).
Proof.
  assert (H : tidy uiPasted) by (vm_compute; apply le_n).
  split; [exact H|].
  apply ui_marker_never_outlives_the_dialog; [exact H|].
  intros cd sel E. discriminate E.
Defined.


End EditorInstances.

Section PageInstances.

Lemma activity_series_grow_together_witness :
  List.length (ActivityPage.keystrokes (ActivityPage.run session ActivityPage.initial)) = 2
  /\ cumulative (ActivityPage.backspaces (ActivityPage.run session ActivityPage.initial))
                (ActivityPage.backspaceRef (ActivityPage.run session ActivityPage.initial)).
Proof.
  destruct (activity_series_grow_together session ActivityPage.initial eq_refl
              (SamplerFacts.cumulative_nil 0) (SamplerFacts.cumulative_nil 0))
    as (A & _ & _ & D).
  split; [exact A | exact D].
Defined.

Lemma activity_export_reads_back_witness :
  readCsv (ActivityPage.exportCSV (ActivityPage.run session ActivityPage.initial))
  = Some ([1%N; 1%N], [0%N; 1%N]).
Proof.
  exact (proj2 activity_export_reads_back
               (ActivityPage.run session ActivityPage.initial) eq_refl).
Defined.

Lemma text_is_the_last_logged_change_witness :
  EventLog.text (EventLog.run visit (EventLog.initial N)) = JS.lit "hi".
Proof.
  exact (text_is_the_last_logged_change visit (EventLog.initial N) eq_refl).
Defined.

Lemma logged_records_carry_their_payload_witness :
  Forall (@wellFormed N) (EventLog.events (EventLog.run visit (EventLog.initial N))).
Proof.
  exact (logged_records_carry_their_payload visit (EventLog.initial N)
           (Forall_nil _)).
Defined.

Lemma exporters_agree_witness :
  ActivityPage.exportCSV sampledPage = Editor.handleExportToCsv sampledEditor.
Proof.
  exact (exporters_agree sampledPage sampledEditor eq_refl eq_refl eq_refl).
Defined.

End PageInstances.
